(** * Digital-twin backend: voice synthesis client, debate generator and
      Slack webhook dispatcher

    A shallow embedding of the [VoiceService] class, of [generateDebate],
    of the Slack routes ([/slack], [/slack/webhook], the [/debate]
    command) and of the [/api/voice/synthesize] route, followed by the
    properties of the specification that concern them.  The Slack
    conversation handlers with their store and the voice catalog routes
    are embedded as well, with further properties of the code.

    Modelling conventions

    - A JavaScript string is a [string]: one [ascii] per UTF-16 code unit.
      The embedding therefore covers strings whose code units are below
      256 (the Latin-1 range); [String.length] is the [.length] of such a
      string.  Source literals containing characters outside that range
      are carried as their UTF-8 bytes; no definition inspects them.
    - Effects (the clock, timers, outbound HTTP calls, the HTTP response,
      the mutable field of [VoiceService]) are threaded through a
      state-and-exception monad [M] over a [World].  A JavaScript
      exception is the [inl] outcome; the world survives it.
    - Time is a logical clock in milliseconds.  It advances at suspension
      points only, by an amount the environment chooses, never backwards;
      a timer resumes no earlier than asked.
    - What the program does not decide is an [Env]: environment variables,
      the answer to each [fetch], the duration of each [await], and the
      library functions [JSON.parse], HMAC-SHA256 and [Number], and the
      text [ToString] gives for a value that has one.
    - A JavaScript number is a rational; where the source divides or
      subtracts, the result is rounded as a double rounds it.
    - One request is run at a time; interleavings of concurrent requests
      are not modelled.
    - [console.log]/[warn]/[error] calls are not modelled, except where
      evaluating their arguments can throw.
    - Property lookup on the two record literals of [synthesizeSpeech] is
      own-property lookup: persona names equal to a member of
      [Object.prototype] (such as "constructor") are outside the model. *)

From Stdlib Require Import String Ascii List ZArith NArith QArith Qabs Bool Lia.
From Stdlib Require Qcanon.
From Stdlib Require Import Lqa.
From Stdlib Require Import Strings.Byte DecimalString.
Import ListNotations.

#[local] Set Warnings "-register-all".

Local Open Scope list_scope.
Local Open Scope string_scope.

(* ===================================================================== *)
(** * JavaScript string primitives                                        *)
(* ===================================================================== *)

Module JS.

(** [String.prototype.toLowerCase] on one code unit of the Latin-1 range:
    A-Z, and the accented capitals U+00C0-U+00DE except the
    multiplication sign U+00D7, move up by 32. *)
Definition lower_unit (c : ascii) : ascii :=
  let n := N_of_ascii c in
  if (((65 <=? n) && (n <=? 90)) ||
      ((192 <=? n) && (n <=? 222) && negb (n =? 215)))%N
  then ascii_of_N (n + 32) else c.

Fixpoint toLowerCase (s : string) : string :=
  match s with
  | EmptyString => EmptyString
  | String c s' => String (lower_unit c) (toLowerCase s')
  end.

(** WhiteSpace and LineTerminator code units below 256:
    TAB, LF, VT, FF, CR, SP and NBSP. *)
Definition is_space (c : ascii) : bool :=
  let n := N_of_ascii c in
  (((9 <=? n) && (n <=? 13)) || (n =? 32) || (n =? 160))%N.

Fixpoint trimStart (s : string) : string :=
  match s with
  | EmptyString => EmptyString
  | String c s' => if is_space c then trimStart s' else s
  end.

Fixpoint trimEnd (s : string) : string :=
  match s with
  | EmptyString => EmptyString
  | String c s' =>
      match trimEnd s' with
      | EmptyString => if is_space c then EmptyString else String c EmptyString
      | r => String c r
      end
  end.

Definition trim (s : string) : string := trimEnd (trimStart s).

(** [s.includes(sub)] *)
Fixpoint includes (s sub : string) : bool :=
  String.prefix sub s ||
  match s with
  | EmptyString => false
  | String _ s' => includes s' sub
  end.

(** [s.substring(a, b)] for non-negative integer arguments: both are
    clamped to the length and swapped when out of order. *)
Definition substring (a b : nat) (s : string) : string :=
  let a' := Nat.min a (String.length s) in
  let b' := Nat.min b (String.length s) in
  String.substring (Nat.min a' b') (Nat.max a' b' - Nat.min a' b') s.

(** [s.slice(a, b)] for non-negative integer arguments: clamped, and
    empty when out of order. *)
Definition slice (a b : nat) (s : string) : string :=
  let a' := Nat.min a (String.length s) in
  let b' := Nat.min b (String.length s) in
  String.substring a' (b' - a') s.

(** Truthiness of a [string | undefined]. *)
Definition truthy (s : option string) : bool :=
  match s with
  | Some s => negb (s =? "")
  | None => false
  end.

(** The characters a literal here cannot hold. *)
Definition dquote : string := String "034" EmptyString.
Definition newline : string := String "010" EmptyString.

(** [array.join(sep)] on strings. *)
Definition join (sep : string) (l : list string) : string := String.concat sep l.

(** [Buffer.from(s)]: the UTF-8 encoding of a string of Latin-1 code
    units; a unit below 128 is one byte, any other is two. *)
Definition utf8_unit (c : ascii) : list byte :=
  let n := N_of_ascii c in
  if (n <? 128)%N then [byte_of_ascii c]
  else [byte_of_ascii (ascii_of_N (192 + N.shiftr n 6));
        byte_of_ascii (ascii_of_N (128 + N.land n 63))].

Fixpoint Buffer_from (s : string) : list byte :=
  match s with
  | EmptyString => []
  | String c s' => utf8_unit c ++ Buffer_from s'
  end.

End JS.

Definition Buffer := list byte.

(* ===================================================================== *)
(** * voice-service.ts: persona to voice resolution                       *)
(* ===================================================================== *)

Module Persona.

(** Own-property lookup in a record literal, in insertion order. *)
Fixpoint lookup {A} (m : list (string * A)) (k : string) : option A :=
  match m with
  | [] => None
  | (k', v) :: m' => if k' =? k then Some v else lookup m' k
  end.

Definition personaVoiceMap : list (string * string) :=
  [ ("Leonardo da Vinci", "iLVmqjzCGGvqtMCk6vVQ");
    ("Steve Jobs",        "RScb7njQ3VwA2nyCsZX4");
    ("Albert Einstein",   "e2odxVHlmLJ5GY1yuWNl");
    ("Elon Musk",         "3ltnAVoovAIVA7uE9Zbz");
    ("Walt Disney",       "1KmhFCCzy2hRrIDMEXFZ");
    ("Emad Mostaque",     "OXihjRbFbxh4LfP9Wt5H");
    ("Fei-Fei Li",        "JL6vl3xyRi3Ly7WoywNO") ].

Definition personaAliases : list (string * list string) :=
  [ ("Fei-Fei Li",
     [ "fei fei li"; "fei-fei li"; "feifei li"; "fi fi lee"; "fei fei lee";
       "fei-fei lee"; "fifi li"; "fei fei le"; "fei-fei le"; "fe fe li";
       "fe fe le"; "fi fi li" ]) ].

(** The closure [resolveVoiceIdForPersona] of [synthesizeSpeech]:
    exact key, case-insensitive key, alias table, substring containment. *)
Definition resolveVoiceIdForPersona (name : option string) : option string :=
  match name with
  | None => None
  | Some name =>
      if name =? "" then None else
      match lookup personaVoiceMap name with
      | Some v => Some v
      | None =>
          let normalized := JS.trim (JS.toLowerCase name) in
          match find (fun kv => JS.toLowerCase (fst kv) =? normalized)
                     personaVoiceMap with
          | Some (_, v) => Some v
          | None =>
              match find (fun ca => existsb (fun a => a =? normalized) (snd ca))
                         personaAliases with
              | Some (canonical, _) => lookup personaVoiceMap canonical
              | None =>
                  match find (fun kv =>
                                JS.includes normalized (JS.toLowerCase (fst kv)) ||
                                JS.includes (JS.toLowerCase (fst kv)) normalized)
                             personaVoiceMap with
                  | Some (_, v) => Some v
                  | None => None
                  end
              end
          end
      end
  end.

(** Voice selection of [synthesizeSpeech] (lines 96-107): the explicit
    [voiceId], else the resolved persona, else the hardcoded default that
    branches on the substring "leonardo". *)
Definition selectVoiceId (persona voiceId : option string) : string :=
  let selectedVoiceId := voiceId in
  let selectedVoiceId :=
    if negb (JS.truthy selectedVoiceId) then
      let r := resolveVoiceIdForPersona persona in
      if JS.truthy r then r else None
    else selectedVoiceId in
  let isLeonardo :=
    match persona with
    | Some p => JS.includes (JS.toLowerCase p) "leonardo"
    | None => false
    end in
  match selectedVoiceId with
  | Some v =>
      if negb (JS.truthy selectedVoiceId)
      then (if isLeonardo then "iLVmqjzCGGvqtMCk6vVQ" else "RScb7njQ3VwA2nyCsZX4")
      else v
  | None => if isLeonardo then "iLVmqjzCGGvqtMCk6vVQ" else "RScb7njQ3VwA2nyCsZX4"
  end.

End Persona.

(* ===================================================================== *)
(** * Values, events and the world                                        *)
(* ===================================================================== *)

(** A JavaScript value as far as request bodies and provider replies go:
    what [JSON.parse] and the body parsers produce, and [undefined]. *)
Inductive value :=
| JUndefined
| JNull
| JBool (b : bool)
| JNum (q : Q)
| JStr (s : string)
| JArr (l : list value)
| JObj (fields : list (string * value)).

(** One [fetch] of the program, by destination. *)
Inductive NetCall :=
| TextToSpeech (voiceId : string) (text : string)
| ListVoices
| ChatPostMessage (channel : value) (text : string) (blocks : option value)
| ChatPostEphemeral (channel user : value) (text : string) (blocks : option value)
| FilesUpload (channel : value) (filename : string) (file : Buffer) (title : string).

(** One validation issue of a zod schema: where, and which check. *)
Record ZodIssue := mkIssue { issue_path : list string; issue_code : string }.

Inductive ResBody :=
| NoBody
| Text (s : string)
| Json (v : value)
| Bytes (b : Buffer)
| Invalid (details : list ZodIssue).

(** What a handler wrote to [res]: status, the content type it set (if
    any) and the body. *)
Record HttpResponse := mkRes {
  res_status : Z;
  res_type : option string;
  res_body : ResBody
}.

(** The observable trace.  [Enter] is a ghost event recording that a
    function of the program was entered. *)
Inductive Event :=
| Enter (fn : string)
| Net (at_ms : Z) (call : NetCall)
| Respond (r : HttpResponse).

(** The outcome of one [fetch] as the environment decides it. *)
Inductive FetchResult :=
| NetworkError
| Responded (status : Z) (body : option string).

(** A JavaScript number produced by [Number(string)]. *)
Inductive number := NaN | PosInf | NegInf | Fin (q : Q).

(** Everything the program does not decide: the process environment
    variables, the remote parties, the time each suspension takes, and
    the library functions left abstract. *)
Record Env := mkEnv {
  ELEVENLABS_API_KEY : string;
  SLACK_SIGNING_SECRET : string;
  SLACK_BOT_TOKEN : string;
  reply : nat -> NetCall -> FetchResult;   (* n-th fetch of the run *)
  elapsed : nat -> N;                      (* ms spent in the n-th await *)
  JSON_parse : string -> option value;     (* None: SyntaxError *)
  hmac_sha256_hex : string -> string -> string;  (* key, message *)
  Number : string -> number;
  ToString : value -> string               (* of a value that is no string *)
}.

Record World := mkWorld {
  now : Z;                  (* what Date.now() returns *)
  awaits : nat;             (* suspension points passed so far *)
  fetches : nat;            (* fetch calls made so far *)
  lastCallTimestamp : Z;    (* field of the VoiceService singleton *)
  trace : list Event
}.

Definition exn := string.

(** State over exceptions: a thrown exception keeps the world. *)
Definition M (A : Type) : Type := World -> (exn + A) * World.

Definition ret {A} (a : A) : M A := fun w => (inr a, w).

Definition bind {A B} (c : M A) (k : A -> M B) : M B :=
  fun w => match c w with
           | (inl e, w') => (inl e, w')
           | (inr a, w') => k a w'
           end.

Definition throw {A} (e : exn) : M A := fun w => (inl e, w).

Definition try_catch {A} (c : M A) (h : exn -> M A) : M A :=
  fun w => match c w with
           | (inl e, w') => h e w'
           | (inr a, w') => (inr a, w')
           end.

Declare Scope js_scope.
Delimit Scope js_scope with js.
Notation "x <- c ;; k" := (bind c (fun x => k))
  (at level 61, c at next level, right associativity) : js_scope.
Notation "c ;; k" := (bind c (fun _ => k))
  (at level 61, right associativity) : js_scope.
Local Open Scope js_scope.

Definition gets {A} (f : World -> A) : M A := fun w => (inr (f w), w).
Definition modify (f : World -> World) : M unit := fun w => (inr tt, f w).

(** The world after one more event. *)
Definition log (e : Event) (w : World) : World :=
  mkWorld (now w) (awaits w) (fetches w) (lastCallTimestamp w) (trace w ++ [e]).

(** The world [ms] milliseconds later. *)
Definition later (ms : Z) (w : World) : World :=
  mkWorld (now w + ms) (awaits w) (fetches w) (lastCallTimestamp w) (trace w).

(** The world after [this.lastCallTimestamp = t]. *)
Definition stamp (t : Z) (w : World) : World :=
  mkWorld (now w) (awaits w) (fetches w) t (trace w).

(** The world with one more fetch counted. *)
Definition counted (w : World) : World :=
  mkWorld (now w) (awaits w) (S (fetches w)) (lastCallTimestamp w) (trace w).

Definition emit (e : Event) : M unit := modify (log e).

Definition Date_now : M Z := gets now.

Definition set_lastCallTimestamp (t : Z) : M unit := modify (stamp t).

Definition advance (ms : Z) : M unit := modify (later ms).

Definition next_fetch : M nat := fun w => (inr (fetches w), counted w).

(** Spawn-and-forget of an async function ([(async () => {...})()]): the
    body runs, a rejection is nobody's. *)
Definition detached (c : M unit) : M unit := try_catch c (fun _ => ret tt).

Section Runtime.

Variable E : Env.

(** The world after a suspension point ([await]): the clock has moved on
    by what the environment says this one takes; it never moves back. *)
Definition tick (w : World) : World :=
  mkWorld (now w + Z.of_N (elapsed E (awaits w))) (S (awaits w)) (fetches w)
          (lastCallTimestamp w) (trace w).

Definition suspend : M unit := modify tick.

(** [await new Promise(r => setTimeout(r, ms))]: resumes no earlier than
    [ms] milliseconds later. *)
Definition setTimeout (ms : Z) : M unit := advance (Z.max 0 ms) ;; suspend.

(** A received response.  Reading the body consumes it: the reads below
    hand back the response with [bodyUsed] set, and the caller goes on
    with that one, as the source goes on with the same object. *)
Record Response := mkResponse {
  status : Z;
  body : option string;   (* None: the body stream fails *)
  bodyUsed : bool
}.

(** [response.ok]: a status in the range 200-299. *)
Definition ok_status (st : Z) : bool := (200 <=? st)%Z && (st <=? 299)%Z.

Definition ok (r : Response) : bool := ok_status (status r).

(** [await fetch(...)]: the call is fired now; the environment answers. *)
Definition fetch (call : NetCall) : M Response :=
  t <- Date_now ;;
  emit (Net t call) ;;
  n <- next_fetch ;;
  suspend ;;
  match reply E n call with
  | NetworkError => throw "TypeError: fetch failed"
  | Responded st b => ret (mkResponse st b false)
  end.

(** A second read of the same response rejects with a TypeError, as the
    Fetch standard has it. *)
Definition read_body (r : Response) : M (string * Response) :=
  if bodyUsed r then throw "TypeError: Body is unusable" else
  suspend ;;
  match body r with
  | Some s => ret (s, mkResponse (status r) (body r) true)
  | None => throw "TypeError: terminated"
  end.

Definition response_text (r : Response) : M (string * Response) := read_body r.

Definition response_arrayBuffer (r : Response) : M Buffer :=
  sr <- read_body r ;; ret (list_byte_of_string (fst sr)).

Definition response_json (r : Response) : M value :=
  sr <- read_body r ;;
  match JSON_parse E (fst sr) with
  | Some v => ret v
  | None => throw "SyntaxError"
  end.

End Runtime.

(* ===================================================================== *)
(** * Operations on values                                                *)
(* ===================================================================== *)

Module Val.

(** Own-property lookup in an object, in insertion order. *)
Fixpoint lookup {A} (m : list (string * A)) (k : string) : option A :=
  match m with
  | [] => None
  | (k', v) :: m' => if k' =? k then Some v else lookup m' k
  end.

(** [v.k]: a TypeError on [null] and [undefined], an own property of an
    object, [undefined] otherwise. *)
Definition prop (v : value) (k : string) : exn + value :=
  match v with
  | JUndefined | JNull => inl "TypeError: cannot read properties"
  | JObj fields =>
      match lookup fields k with
      | Some x => inr x
      | None => inr JUndefined
      end
  | _ => inr JUndefined
  end.

Definition lift {A} (r : exn + A) : M A :=
  match r with
  | inl e => throw e
  | inr a => ret a
  end.

(** Truthiness of a value. *)
Definition truthy (v : value) : bool :=
  match v with
  | JUndefined | JNull => false
  | JBool b => b
  | JNum q => negb (Qeq_bool q 0)
  | JStr s => negb (s =? "")
  | JArr _ | JObj _ => true
  end.

Fixpoint mapM {A B} (f : A -> M B) (l : list A) : M (list B) :=
  match l with
  | [] => ret []
  | x :: l' => y <- f x ;; ys <- mapM f l' ;; ret (y :: ys)
  end.

(** Whether [ToString] of a value returns.  The values here come from
    [JSON.parse] and the body parsers, so no property is callable: an
    object with a [toString] property of its own has no primitive form,
    and converting it throws a TypeError ([valueOf], own or inherited,
    gives no primitive either); any other object is "[object Object]".
    An array joins its elements, [null] and [undefined] as the empty
    string, the others converted in turn. *)
Fixpoint convertible (v : value) : bool :=
  match v with
  | JObj fields => negb (existsb (fun kv => fst kv =? "toString") fields)
  | JArr l => forallb convertible l
  | _ => true
  end.

(** What is left of a value once [JSON.stringify] has written it: a
    property whose value is [undefined] is left out, an [undefined]
    element of an array is written [null]. *)
Fixpoint serialised (v : value) : value :=
  match v with
  | JArr l =>
      JArr (map (fun x => match x with
                          | JUndefined => JNull
                          | _ => serialised x
                          end) l)
  | JObj fields =>
      JObj ((fix kept (fs : list (string * value)) : list (string * value) :=
               match fs with
               | [] => []
               | (k, x) :: fs' =>
                   match x with
                   | JUndefined => kept fs'
                   | _ => (k, serialised x) :: kept fs'
                   end
               end) fields)
  | _ => v
  end.

(** [if (blocks) payload.blocks = blocks] *)
Definition if_truthy (v : option value) : option value :=
  match v with
  | Some x => if truthy x then Some x else None
  | None => None
  end.

End Val.

(* ===================================================================== *)
(** * voice-service.ts: class VoiceService                                *)
(* ===================================================================== *)

Module VoiceService.

(** The two shapes [synthesizeSpeech] resolves to: a [Buffer], or
    [{ fallback: true, text, persona, reason }]. *)
Inductive SynthResult :=
| Audio (b : Buffer)
| Fallback (text : string) (persona : option string) (reason : string).

Definition rateLimitDelay : Z := 1000.

(** Template-literal rendering of an integer status. *)
Definition show_int (z : Z) : string := NilZero.string_of_int (Z.to_int z).

Definition maxChars : nat := 600.

(** Lines 36-38. *)
Definition truncatedText (text : string) : string :=
  if (maxChars <? String.length text)%nat
  then JS.substring 0 maxChars text ++ "..."
  else text.

(** [{ voice_id, name }] *)
Definition voice_entry (voice_id name : value) : value :=
  JObj [("voice_id", voice_id); ("name", name)].

Definition fallbackVoices : list value :=
  [ voice_entry (JStr "iLVmqjzCGGvqtMCk6vVQ") (JStr "Leonardo da Vinci (Fallback)");
    voice_entry (JStr "RScb7njQ3VwA2nyCsZX4") (JStr "Steve Jobs (Fallback)") ].

Section Service.

Variable E : Env.

(** [this.apiKey = process.env.ELEVENLABS_API_KEY || ''] *)
Definition apiKey : string := ELEVENLABS_API_KEY E.

Definition synthesizeSpeech (text : string) (persona voiceId : option string)
  : M SynthResult :=
  emit (Enter "synthesizeSpeech") ;;
  try_catch
    (if apiKey =? "" then
       ret (Fallback text persona "missing_api_key")
     else
       let truncatedText := truncatedText text in
       t <- Date_now ;;
       last <- gets lastCallTimestamp ;;
       let timeSinceLastCall := (t - last)%Z in
       (if (timeSinceLastCall <? rateLimitDelay)%Z
        then setTimeout E (rateLimitDelay - timeSinceLastCall)
        else ret tt) ;;
       let selectedVoiceId := Persona.selectVoiceId persona voiceId in
       let makeRequest (payloadText : string) :=
         fetch E (TextToSpeech selectedVoiceId payloadText) in
       response <- makeRequest truncatedText ;;
       response <-
         (if negb (ok response) then
            errorBody <- response_text E response ;;
            let response := snd errorBody in
            if JS.includes (fst errorBody) "quota_exceeded" then
              let shortText := JS.slice 0 120 text in
              makeRequest shortText
            else ret response
          else ret response) ;;
       if negb (ok response) then
         errorText <- response_text E response ;;
         ret (Fallback text persona ("api_error_" ++ show_int (status response)))
       else
         t <- Date_now ;;
         set_lastCallTimestamp t ;;
         arrayBuffer <- response_arrayBuffer E response ;;
         ret (Audio arrayBuffer))
    (fun _ => ret (Fallback text persona "exception")).

(** [useElevenLabs] is initialised to [true] and never assigned. *)
Definition useElevenLabs : bool := true.

Definition getVoices : M (list value) :=
  emit (Enter "getVoices") ;;
  if negb useElevenLabs then ret fallbackVoices else
  try_catch
    (response <- fetch E ListVoices ;;
     if negb (ok response) then
       errorText <- response_text E response ;;
       ret fallbackVoices
     else
       data <- response_json E response ;;
       voices <- Val.lift (Val.prop data "voices") ;;
       match voices with
       | JArr l =>
           Val.mapM (fun v =>
                   voice_id <- Val.lift (Val.prop v "voice_id") ;;
                   name <- Val.lift (Val.prop v "name") ;;
                   ret (voice_entry voice_id name)) l
       | _ => throw "TypeError: data.voices.map is not a function"
       end)
    (fun _ => ret fallbackVoices).

(** [getAllVoices] resolves to [data.voices || []].  The argument of the
    [console.log] call in between is evaluated: [data.voices?.map(...)]
    reads three properties of every element, and throws when
    [data.voices] is neither nullish nor an array. *)
Definition getAllVoices : M value :=
  emit (Enter "getAllVoices") ;;
  try_catch
    (if apiKey =? "" then ret (JArr []) else
     response <- fetch E ListVoices ;;
     if negb (ok response) then
       throw "Error: Failed to fetch voices"
     else
       data <- response_json E response ;;
       voices <- Val.lift (Val.prop data "voices") ;;
       match voices with
       | JUndefined | JNull => ret []
       | JArr l =>
           Val.mapM (fun v =>
                   Val.lift (Val.prop v "voice_id") ;;
                   Val.lift (Val.prop v "name") ;;
                   Val.lift (Val.prop v "category") ;;
                   ret tt) l
       | _ => throw "TypeError: data.voices?.map is not a function"
       end ;;
       ret (if Val.truthy voices then voices else JArr []))
    (fun _ => ret (JArr [])).

End Service.

End VoiceService.

(* ===================================================================== *)
(** * debate-generator.ts                                                 *)
(* ===================================================================== *)

Module Debate.

Record DebateTurn := mkTurn { speaker : string; text : string }.

Record DebateResult := mkDebate {
  topic : string;
  turns : list DebateTurn;
  combinedText : string;
  audioBuffer : option Buffer
}.

Definition DEFAULT_SPEAKERS : list string := [ "Albert Einstein"; "Steve Jobs" ].

Definition craftPerspective (speaker topic : string) (index : nat) : string :=
  let base := JS.trim topic in
  if speaker =? "Albert Einstein" then
    "From a theoretical and systemic perspective, " ++ JS.dquote ++ base ++ JS.dquote ++
    " demands that we examine fundamental assumptions, reduce them to first principles, then recompose them into models we can test. Practical progress emerges when abstraction meets empirical validation."
  else if speaker =? "Steve Jobs" then
    "If we care about " ++ JS.dquote ++ base ++ JS.dquote ++
    ", we have to start with the user experience and work backwards to the technology. Focus. Eliminate the noise. What actually delights or liberates people here? Build that—relentlessly."
  else
    speaker ++ " adds viewpoint #" ++ VoiceService.show_int (Z.of_nat (index + 1)) ++
    " regarding " ++ JS.dquote ++ base ++ JS.dquote ++
    " focusing on pragmatic trade‑offs and emergent possibilities.".

(** The turns pushed by one pass of the inner loop. *)
Definition roundTurns (topic : string) (speakers : list string) (round : nat)
  : list DebateTurn :=
  map (fun ix => mkTurn (snd ix)
                        (craftPerspective (snd ix) topic
                                          (round * List.length speakers + fst ix)))
      (combine (seq 0 (List.length speakers)) speakers).

Definition allTurns (topic : string) (speakers : list string) (maxTurnsPerSpeaker : nat)
  : list DebateTurn :=
  flat_map (roundTurns topic speakers) (seq 0 maxTurnsPerSpeaker).

Definition renderTurns (turns : list DebateTurn) : string :=
  JS.join JS.newline
          (map (fun t => "*" ++ speaker t ++ ":* " ++ text t) turns).

Section Generator.

Variable E : Env.

(** One iteration of [for (const turn of turns)] in the audio branch. *)
Definition synthTurn (buffers : list Buffer) (turn : DebateTurn) : M (list Buffer) :=
  try_catch
    (audio <- VoiceService.synthesizeSpeech E (text turn) (Some (speaker turn)) None ;;
     match audio with
     | VoiceService.Audio b => ret (buffers ++ [b])%list
     | VoiceService.Fallback _ _ _ => ret buffers
     end)
    (fun _ => ret buffers).

Fixpoint synthTurns (buffers : list Buffer) (turns : list DebateTurn) : M (list Buffer) :=
  match turns with
  | [] => ret buffers
  | turn :: rest => buffers' <- synthTurn buffers turn ;; synthTurns buffers' rest
  end.

(** [generateDebate(options)]; an absent option takes its default. *)
Definition generateDebate (topic : string) (speakers : option (list string))
    (includeAudio : option bool) (maxTurnsPerSpeaker : option nat) : M DebateResult :=
  emit (Enter "generateDebate") ;;
  let speakers := match speakers with Some l => l | None => DEFAULT_SPEAKERS end in
  let includeAudio := match includeAudio with Some b => b | None => false end in
  let maxTurnsPerSpeaker := match maxTurnsPerSpeaker with Some n => n | None => 1%nat end in
  let turns := allTurns topic speakers maxTurnsPerSpeaker in
  audioBuffer <-
    (if includeAudio then
       buffers <- synthTurns [] turns ;;
       ret (match buffers with
            | [] => None
            | _ => Some (List.concat buffers)
            end)
     else ret None) ;;
  let combinedText := renderTurns turns in
  ret (mkDebate topic turns combinedText audioBuffer).

End Generator.

End Debate.

(* ===================================================================== *)
(** * Double-precision arithmetic                                         *)
(* ===================================================================== *)

(** Rounding to the nearest double (IEEE 754 binary64, ties to even),
    on rationals.  The exponent is left unbounded: the model is the
    format wherever the result is a normal double, that is between
    2^-1022 and 2^1024 in magnitude, or zero. *)
Module Double.

(** [2 ^ k] for [k >= 0], and 1 otherwise. *)
Definition up (k : Z) : Z := (2 ^ Z.max 0 k)%Z.

(** The integer nearest to [num / den], ties to the even one
    ([0 <= num], [0 < den]). *)
Definition nearest_even (num den : Z) : Z :=
  let f := (num / den)%Z in
  let r := (2 * (num mod den))%Z in
  if (r <? den)%Z then f
  else if (den <? r)%Z then (f + 1)%Z
  else if Z.even f then f else (f + 1)%Z.

(** [floor (log2 (p / q))] for positive [p] and [q]. *)
Definition exponent (p q : Z) : Z :=
  let l := (Z.log2 p - Z.log2 q)%Z in
  if (q * up l <=? p * up (- l))%Z then l else (l - 1)%Z.

(** The number with a 53-bit significand nearest to [x], ties to even:
    the double nearest to [x] wherever that double is normal. *)
Definition round (x : Q) : Q :=
  let x := Qred x in
  let p := Z.abs (Qnum x) in
  let q := Zpos (Qden x) in
  if (p =? 0)%Z then 0 else
  let e := (exponent p q - 52)%Z in
  let significand := nearest_even (p * up (- e)) (q * up e) in
  (Z.sgn (Qnum x) * significand * up e) # Z.to_pos (up (- e)).

End Double.

(* ===================================================================== *)
(** * slack-routes: signature check, /slack and /slack/webhook            *)
(* ===================================================================== *)

Module Slack.

(** What the handlers read of an inbound request.  [rawBody] is set by
    the [verify] hook of the router's urlencoded parser, so it may be
    [undefined]; [req_body] is what the body parsers left in [req.body]. *)
Record Request := mkReq {
  rawBody : option string;
  x_slack_timestamp : option string;
  x_slack_signature : option string;
  content_type : option string;
  req_body : value
}.

(** [res.status(st).send(b)] and the like, on a response nothing was
    written to yet. *)
Definition res_send (st : Z) (ty : option string) (b : ResBody) : M unit :=
  emit (Respond (mkRes st ty b)).

Definition is_response (e : Event) : bool :=
  match e with
  | Respond _ => true
  | _ => false
  end.

(** [res.headersSent], for the response of the request that began when
    the trace had [start] events. *)
Definition headersSent (start : nat) (w : World) : bool :=
  existsb is_response (skipn start (trace w)).

(** The same where a response may have been written already: the
    headers cannot be set twice. *)
Definition res_send_again (start : nat) (st : Z) (ty : option string) (b : ResBody)
  : M unit :=
  sent <- gets (headersSent start) ;;
  if sent
  then throw "Error [ERR_HTTP_HEADERS_SENT]: Cannot set headers after they are sent to the client"
  else res_send st ty b.

Fixpoint bytes_eqb (a b : Buffer) : bool :=
  match a, b with
  | [], [] => true
  | x :: a', y :: b' => Byte.eqb x y && bytes_eqb a' b'
  | _, _ => false
  end.

(** [crypto.timingSafeEqual]: a RangeError when the byte lengths differ. *)
Definition timingSafeEqual (a b : Buffer) : M bool :=
  if Nat.eqb (List.length a) (List.length b)
  then ret (bytes_eqb a b)
  else throw "RangeError: Input buffers must have the same byte length".

(** [Math.abs(Date.now() / 1000 - Number(timestamp)) > 60 * 5], in
    doubles: the quotient is rounded, then the difference; the absolute
    value and the comparison are exact.  Neither operation leaves the
    range where [Double.round] is the format: the quotient is below
    2^44 in magnitude, too small to carry a finite timestamp past the
    largest double, and a difference of two doubles that falls below the
    normal range is exact, in the format as in the model.  Every
    comparison with NaN is false. *)
Definition outside_window (now_ms : Z) (n : number) : bool :=
  match n with
  | NaN => false
  | PosInf | NegInf => true
  | Fin q =>
      negb (Qle_bool
              (Qabs (Double.round (Double.round (inject_Z now_ms / 1000) - q)))
              (60 * 5))
  end.

Definition str_eq (v : value) (s : string) : bool :=
  match v with
  | JStr x => x =? s
  | _ => false
  end.

(** [Object.keys(v).length] of a truthy value. *)
Definition keys_count (v : value) : nat :=
  match v with
  | JObj fields => List.length fields
  | JArr l => List.length l
  | JStr x => String.length x
  | _ => 0
  end.

Definition help_text : string :=
  "ü§ñ *DigitalTwin Bot Commands:*" ++ JS.newline ++
  "‚Ä¢ `/chat [message]` - Chat with a digital twin persona" ++ JS.newline ++
  "‚Ä¢ `/personas` - See all available personas" ++ JS.newline ++
  "‚Ä¢ `/debate [topic]` - Generate a debate between personas" ++ JS.newline ++
  "          " ++ JS.newline ++
  "Use `/chat` to start a conversation!".

(** The three texts of [handleDebateCommand]. *)
Definition debate_ack (topic : string) : string :=
  "üé≠ Generating debate on " ++ JS.dquote ++ topic ++ JS.dquote ++
  " between digital twin personas...".

Definition debate_message (topic combinedText : string) : string :=
  "*üé≠ Debate: " ++ topic ++ "*" ++ JS.newline ++ combinedText.

Definition debate_failure (topic : string) : string :=
  "‚ùå Failed to generate debate for topic: " ++ topic.

Section Routes.

Variable E : Env.

(** The handlers no property below is about stay abstract: any
    computation over the world.  Their invocations are recorded by
    [Enter] events at the call sites. *)
Variable handleChatCommand : value -> M unit.
Variable handlePersonasCommand : value -> M unit.
Variable handleInteractivePayload : value -> M unit.
Variable handleSlackEvent : value -> M unit.

Definition verifySlackSignature (rawBody timestamp signature : option string)
  : M bool :=
  match timestamp, signature with
  | Some timestamp, Some signature =>
      if (SLACK_SIGNING_SECRET E =? "") || (timestamp =? "") || (signature =? "")
      then ret false else
      now <- Date_now ;;
      if outside_window now (Number E timestamp) then ret false else
      let sigBase := "v0:" ++ timestamp ++ ":" ++
                     match rawBody with Some b => b | None => "undefined" end in
      let hmac := hmac_sha256_hex E (SLACK_SIGNING_SECRET E) sigBase in
      let expected := "v0=" ++ hmac in
      timingSafeEqual (JS.Buffer_from expected) (JS.Buffer_from signature)
  | _, _ => ret false
  end.

Definition postSlackMessage (channel : value) (text : string) (blocks : option value)
  : M unit :=
  if SLACK_BOT_TOKEN E =? "" then ret tt else
  fetch E (ChatPostMessage channel text (Val.if_truthy blocks)) ;; ret tt.

Definition postEphemeralMessage (channel user : value) (text : string)
    (blocks : option value) : M unit :=
  if SLACK_BOT_TOKEN E =? "" then ret tt else
  fetch E (ChatPostEphemeral channel user text (Val.if_truthy blocks)) ;; ret tt.

Definition uploadSlackFile (channel : value) (filename : string) (buffer : Buffer)
    (title : string) : M unit :=
  if SLACK_BOT_TOKEN E =? "" then ret tt else
  fetch E (FilesUpload channel filename buffer
                       (if title =? "" then filename else title)) ;; ret tt.

(** Lines 873-884: what the detached continuation of [/debate] does with
    a debate result. *)
Definition announceDebate (channel_id : value) (topic : string)
    (debate : Debate.DebateResult) : M unit :=
  postSlackMessage channel_id
    (debate_message topic (Debate.combinedText debate))
    None ;;
  match Debate.audioBuffer debate with
  | Some audio =>
      if (Z.of_nat (List.length audio) <? 24000000)%Z then
        t <- Date_now ;;
        uploadSlackFile channel_id
          ("debate-" ++ VoiceService.show_int t ++ ".mp3") audio
          ("Debate Audio: " ++ topic)
      else ret tt
  | None => ret tt
  end.

(** [(payload.text || "").trim()]: a truthy value that is no string has
    no [trim]. *)
Definition trimmed_text (payload : value) : M string :=
  text <- Val.lift (Val.prop payload "text") ;;
  match text with
  | JStr x => ret (JS.trim x)
  | v => if Val.truthy v
         then throw "TypeError: trim is not a function"
         else ret (JS.trim "")
  end.

Definition handleDebateCommand (payload : value) : M unit :=
  emit (Enter "handleDebateCommand") ;;
  topic <- trimmed_text payload ;;
  if topic =? "" then
    res_send 200 None (Text "Please provide a topic, e.g. `/debate AI ethics`")
  else
    res_send 200 None (Text (debate_ack topic)) ;;
    channel_id <- Val.lift (Val.prop payload "channel_id") ;;
    detached
      (try_catch
         (debate <- Debate.generateDebate E topic None (Some false) None ;;
          announceDebate channel_id topic debate)
         (fun _ =>
            postSlackMessage channel_id (debate_failure topic) None)).

(** [router.post("/webhook", ...)] *)
Definition webhook (req : Request) : M unit :=
  start <- gets (fun w => List.length (trace w)) ;;
  try_catch
    (let raw := rawBody req in
     let ts := x_slack_timestamp req in
     let sig := x_slack_signature req in
     valid <- verifySlackSignature raw ts sig ;;
     if negb valid then res_send 401 None (Text "Invalid signature") else
     let body := req_body req in
     let body :=
       if negb (Val.truthy body) || Nat.eqb (keys_count body) 0 then
         let ct := match content_type req with Some c => c | None => "" end in
         if JS.includes (JS.toLowerCase ct) "application/json" && JS.truthy raw then
           match JSON_parse E (match raw with Some r => r | None => "" end) with
           | Some parsed => parsed
           | None => body
           end
         else body
       else body in
     if Val.truthy body &&
        match Val.prop body "type" with
        | inr t => str_eq t "url_verification"
        | inl _ => false
        end
     then
       challenge <- Val.lift (Val.prop body "challenge") ;;
       match challenge with
       | JStr c => res_send 200 (Some "text/plain") (Text c)
       | _ => res_send 400 None (Json (JObj [("error", JStr "missing_challenge")]))
       end
     else
       payload <- Val.lift (Val.prop body "payload") ;;
       if Val.truthy payload then
         if negb (Val.convertible payload)
         then throw "TypeError: Cannot convert object to primitive value" else
         match JSON_parse E (match payload with JStr x => x | v => ToString E v end) with
         | None => throw "SyntaxError"
         | Some interactivePayload =>
             emit (Enter "handleInteractivePayload") ;;
             handleInteractivePayload interactivePayload
         end
       else
         command <- Val.lift (Val.prop body "command") ;;
         if str_eq command "/chat" then
           emit (Enter "handleChatCommand") ;; handleChatCommand body
         else if str_eq command "/personas" then
           emit (Enter "handlePersonasCommand") ;; handlePersonasCommand body
         else if str_eq command "/debate" then
           handleDebateCommand body
         else
           res_send 200 None (Text help_text))
    (fun _ => res_send_again start 500 None (Text "Internal error")).

(** [app.post("/slack", ...)] *)
Definition slack_root (req : Request) : M unit :=
  let body := if Val.truthy (req_body req) then req_body req else JObj [] in
  type <- Val.lift (Val.prop body "type") ;;
  challenge <- Val.lift (Val.prop body "challenge") ;;
  event <- Val.lift (Val.prop body "event") ;;
  if str_eq type "url_verification" then
    match challenge with
    | JStr c =>
        if (0 <? String.length c)%nat
        then res_send 200 (Some "text/plain") (Text c)
        else res_send 400 (Some "text/plain") (Text "missing_challenge")
    | _ => res_send 400 (Some "text/plain") (Text "missing_challenge")
    end
  else if str_eq type "event_callback" && Val.truthy event then
    res_send 200 None (Text "OK") ;;
    try_catch
      (emit (Enter "handleSlackEvent") ;; handleSlackEvent event)
      (fun _ => ret tt)
  else
    res_send 200 None (Text "OK").

(** [registerSlackRoutes(app)]: the POST routes it leaves registered, by
    full path.  The router is mounted only past the secret check. *)
Definition registerSlackRoutes : list (string * (Request -> M unit)) :=
  ("/slack", slack_root) ::
  (if SLACK_SIGNING_SECRET E =? "" then []
   else [("/slack/webhook", webhook)]).

Inductive Routed := Handled | NotRegistered.

(** A POST to [path] against the registered routes. *)
Definition post (path : string) (req : Request) : M Routed :=
  match Val.lookup registerSlackRoutes path with
  | Some handler => handler req ;; ret Handled
  | None => ret NotRegistered
  end.

End Routes.

End Slack.

(* ===================================================================== *)
(** * routes: POST /api/voice/synthesize                                  *)
(* ===================================================================== *)

Module Api.

(** [z.string().min(1).max(500)] at [path]: the type check, then both
    length checks, every failed one reported. *)
Definition check_text (path : list string) (v : value) : list ZodIssue :=
  match v with
  | JStr x =>
      (if (String.length x <? 1)%nat then [mkIssue path "too_small"] else []) ++
      (if (500 <? String.length x)%nat then [mkIssue path "too_big"] else [])
  | _ => [mkIssue path "invalid_type"]
  end.

(** [z.string().optional()] at [path]. *)
Definition check_optional_string (path : list string) (v : value) : list ZodIssue :=
  match v with
  | JUndefined | JStr _ => []
  | _ => [mkIssue path "invalid_type"]
  end.

(** [schema.safeParse(req.body)] for
    [z.object({ text: z.string().min(1).max(500), persona: z.string().optional() })]:
    the issues, or the parsed [{ text, persona }]. *)
Definition safeParse (body : value) : list ZodIssue + (string * option string) :=
  match body with
  | JObj fields =>
      let text := match Val.lookup fields "text" with Some v => v | None => JUndefined end in
      let persona := match Val.lookup fields "persona" with Some v => v | None => JUndefined end in
      match (check_text ["text"] text ++ check_optional_string ["persona"] persona)%list with
      | [] =>
          match text with
          | JStr x => inr (x, match persona with JStr p => Some p | _ => None end)
          | _ => inl [mkIssue ["text"] "invalid_type"]
          end
      | issues => inl issues
      end
  | _ => inl [mkIssue [] "invalid_type"]
  end.

(** [res.json(audioData)] of a fallback descriptor; an [undefined]
    persona is not serialised. *)
Definition fallback_json (text : string) (persona : option string) (reason : string)
  : value :=
  JObj ([("fallback", JBool true); ("text", JStr text)] ++
        match persona with Some p => [("persona", JStr p)] | None => [] end ++
        [("reason", JStr reason)])%list.

Section Route.

Variable E : Env.

Definition voice_synthesize (body : value) : M unit :=
  try_catch
    (match safeParse body with
     | inl issues => Slack.res_send 400 None (Invalid issues)
     | inr (text, persona) =>
         audioData <- VoiceService.synthesizeSpeech E text persona None ;;
         match audioData with
         | VoiceService.Fallback t p r =>
             Slack.res_send 200 None (Json (fallback_json t p r))
         | VoiceService.Audio b =>
             Slack.res_send 200 (Some "audio/mpeg") (Bytes b)
         end
     end)
    (fun _ =>
       Slack.res_send 500 None
         (Json (JObj [("error", JStr "Failed to synthesize speech")]))).

End Route.

End Api.

(* ===================================================================== *)
(** * Conversations with the personas in Slack                            *)
(* ===================================================================== *)

(** The handlers behind the Slack routes: [/chat], events (mentions and
    direct messages) and interactive components, with the in-memory
    conversation store they share.

    - The store is the [Map] [userConversations], kept in insertion
      order.  [Map] compares keys by SameValueZero: strings, numbers,
      booleans, [null] and [undefined] by value, objects and arrays by
      identity; every request parses its own body, so an object or array
      key never equals a stored one.
    - A conversation is a mutable object the handlers hold a reference
      to.  The reference is the position of the entry in the store;
      entries are never removed or reordered.
    - The handlers run over a [Process]: the store and the world.  An
      exception keeps both.
    - [JSON.stringify] is a parameter.  The [generate_voice] case of
      [handleInteractivePayload] passes [voiceData.text], a value of any
      type, to [synthesizeSpeech]; it is kept abstract: any computation
      over the world. *)

Module Chat.

Record Twin := mkTwin {
  id : string;
  name : string;
  expertise : list string;
  emoji : string;
  description : string
}.

Definition DIGITAL_TWINS : list Twin :=
  [ mkTwin "albert-einstein" "Albert Einstein"
      ["Innovation"; "Research"; "Problem Solving"]
      "üß†" "Theoretical physicist and innovator";
    mkTwin "elon-musk" "Elon Musk"
      ["Innovation"; "Strategic Thinking"; "Product Development"]
      "üöÄ" "Tech entrepreneur and visionary";
    mkTwin "steve-jobs" "Steve Jobs"
      ["Innovation"; "Product Development"; "Design"]
      "üçé" "Tech visionary and design pioneer";
    mkTwin "leonardo-da-vinci" "Leonardo da Vinci"
      ["Innovation"; "Art"; "Engineering"; "Design Thinking"]
      "üé®" "Renaissance innovator and polymath";
    mkTwin "walt-disney" "Walt Disney"
      ["Creativity"; "Innovation"; "Storytelling"]
      "üè∞" "Creative visionary and storyteller";
    mkTwin "emad-mostaque" "Emad Mostaque"
      ["Artificial Intelligence"; "Leadership"; "Technical Vision"]
      "ü§ñ" "AI innovator and leader";
    mkTwin "fei-fei-li" "Fei-Fei Li"
      ["Artificial Intelligence"; "Research"; "Technical Vision"]
      "üë©‚Äçüî¨" "AI researcher and computer vision expert" ].

(** [DIGITAL_TWINS.find((t) => t.id === persona)] *)
Definition find_twin (persona : value) : option Twin :=
  find (fun t => Slack.str_eq persona (id t)) DIGITAL_TWINS.

(** [twin?.name] and [twin?.emoji] inside a template literal. *)
Definition shown (field : Twin -> string) (twin : option Twin) : string :=
  match twin with
  | Some t => field t
  | None => "undefined"
  end.

(** ** The conversation store *)

Record HistoryEntry := mkEntry {
  role : string;
  content : value;
  persona : option value
}.

Record Conversation := mkConv {
  selectedPersona : value;                      (* [undefined] when unset *)
  conversationHistory : list HistoryEntry;
  lastActivity : Z
}.

Definition Store := list (value * Conversation).

Definition same_value_zero (a b : value) : bool :=
  match a, b with
  | JUndefined, JUndefined => true
  | JNull, JNull => true
  | JBool x, JBool y => Bool.eqb x y
  | JNum x, JNum y => Qeq_bool x y
  | JStr x, JStr y => x =? y
  | _, _ => false
  end.

(** The position of the entry of [userId], if it has one. *)
Fixpoint index_of (userId : value) (s : Store) : option nat :=
  match s with
  | [] => None
  | (k, _) :: s' =>
      if same_value_zero k userId then Some O
      else option_map S (index_of userId s')
  end.

Fixpoint update_at (i : nat) (f : Conversation -> Conversation) (s : Store) : Store :=
  match s, i with
  | [], _ => []
  | (k, c) :: s', O => (k, f c) :: s'
  | e :: s', S j => e :: update_at j f s'
  end.

Definition fresh (t : Z) : Conversation := mkConv JUndefined [] t.

Definition conversation_at (i : nat) (s : Store) : Conversation :=
  match nth_error s i with
  | Some (_, c) => c
  | None => fresh 0
  end.

Definition touched (t : Z) (c : Conversation) : Conversation :=
  mkConv (selectedPersona c) (conversationHistory c) t.

Definition selecting (p : value) (c : Conversation) : Conversation :=
  mkConv p (conversationHistory c) (lastActivity c).

Definition pushed (entries : list HistoryEntry) (c : Conversation) : Conversation :=
  mkConv (selectedPersona c) (conversationHistory c ++ entries)%list (lastActivity c).

(** ** The monad of the handlers *)

Record Process := mkProcess {
  userConversations : Store;
  world : World
}.

Definition Handler (A : Type) : Type := Process -> (exn + A) * Process.

Definition unit_ {A} (a : A) : Handler A := fun p => (inr a, p).

Definition then_ {A B} (c : Handler A) (k : A -> Handler B) : Handler B :=
  fun p => match c p with
           | (inl e, p') => (inl e, p')
           | (inr a, p') => k a p'
           end.

Definition raise {A} (e : exn) : Handler A := fun p => (inl e, p).

Definition try_ {A} (c : Handler A) (h : exn -> Handler A) : Handler A :=
  fun p => match c p with
           | (inl e, p') => h e p'
           | (inr a, p') => (inr a, p')
           end.

(** A computation over the world alone. *)
Definition io {A} (c : M A) : Handler A :=
  fun p => match c (world p) with
           | (r, w') => (r, mkProcess (userConversations p) w')
           end.

Definition store : Handler Store := fun p => (inr (userConversations p), p).

Definition set_store (s : Store) : Handler unit := fun p => (inr tt, mkProcess s (world p)).

(** Reads and writes through a reference to a conversation. *)
Definition read {A} (userConv : nat) (field : Conversation -> A) : Handler A :=
  fun p => (inr (field (conversation_at userConv (userConversations p))), p).

Definition write (userConv : nat) (f : Conversation -> Conversation) : Handler unit :=
  fun p => (inr tt, mkProcess (update_at userConv f (userConversations p)) (world p)).

(** [(async () => {...})()] *)
Definition spawn (c : Handler unit) : Handler unit := try_ c (fun _ => unit_ tt).

Declare Scope chat_scope.
Delimit Scope chat_scope with chat.
Notation "x <- c ;; k" := (then_ c (fun x => k))
  (at level 61, c at next level, right associativity) : chat_scope.
Notation "c ;; k" := (then_ c (fun _ => k))
  (at level 61, right associativity) : chat_scope.
Local Open Scope chat_scope.

(** [getUserConversation(userId)]: the reference to the conversation of
    [userId], created at first contact, with [lastActivity] set to now. *)
Definition getUserConversation (userId : value) : Handler nat :=
  s <- store ;;
  conv <-
    match index_of userId s with
    | Some i => unit_ i
    | None =>
        t <- io Date_now ;;
        set_store (s ++ [(userId, fresh t)])%list ;;
        unit_ (List.length s)
    end ;;
  t <- io Date_now ;;
  write conv (touched t) ;;
  unit_ conv.

(** ** Blocks *)

Definition plain_text (text : string) : value :=
  JObj [("type", JStr "plain_text"); ("text", JStr text)].

Definition mrkdwn (text : string) : value :=
  JObj [("type", JStr "mrkdwn"); ("text", JStr text)].

Definition section (text : string) : value :=
  JObj [("type", JStr "section"); ("text", mrkdwn text)].

Definition createPersonaSelectionBlocks : list value :=
  [ section ("ü§ñ *Choose a Digital Twin to chat with:*" ++ JS.newline ++ "Select from our collection of AI personas based on historical figures and innovators.");
    JObj [("type", JStr "actions");
          ("elements",
           JArr [JObj [("type", JStr "static_select");
                       ("placeholder", plain_text "Select a persona...");
                       ("action_id", JStr "select_persona");
                       ("options",
                        JArr (map (fun twin =>
                                     JObj [("text", plain_text (emoji twin ++ " " ++ name twin));
                                           ("description", plain_text (description twin));
                                           ("value", JStr (id twin))])
                                  DIGITAL_TWINS))]])];
    JObj [("type", JStr "context");
          ("elements", JArr [mrkdwn ("üí° *Tip:* Each persona has unique expertise and personality based on their real-world counterpart.")])] ].

Section Handlers.

Variable E : Env.
Variable JSON_stringify : value -> string.

(** The [generate_voice] case, given the payload and the action. *)
Variable generate_voice : value -> value -> M unit.

(** [`${v}`]: the string itself, else what [ToString] gives; a TypeError
    for a value that has no primitive form. *)
Definition interpolated (v : value) : exn + string :=
  match v with
  | JStr s => inr s
  | _ =>
      if Val.convertible v then inr (ToString E v)
      else inl "TypeError: Cannot convert object to primitive value"
  end.

Definition createConversationBlocks (persona userMessage : value) (response : string)
  : list value :=
  let twin := find_twin persona in
  [ section ("*" ++ shown emoji twin ++ " " ++ shown name twin ++ ":*" ++ JS.newline ++
             response);
    JObj [("type", JStr "actions");
          ("elements",
           JArr [JObj [("type", JStr "button");
                       ("text", plain_text "üé§ Get Voice Response");
                       ("value",
                        JStr (JSON_stringify
                                (JObj [("persona", persona); ("text", JStr response)])));
                       ("action_id", JStr "generate_voice")];
                 JObj [("type", JStr "button");
                       ("text", plain_text "üí≠ Continue Chat");
                       ("value", persona);
                       ("action_id", JStr "continue_chat")];
                 JObj [("type", JStr "button");
                       ("text", plain_text "üîÑ Switch Persona");
                       ("action_id", JStr "switch_persona")]])] ].

(** [generatePersonaResponse(persona, userMessage, conversationHistory)].
    Once the twin is found, the template of [contextualPrompt] converts
    [userMessage]; the TypeError of a message that has no primitive form
    is caught, and the answer is the apology of line 745. *)
Definition generatePersonaResponse (persona userMessage : value) : string :=
  match find_twin persona with
  | None => "I'm sorry, I couldn't find that persona."
  | Some twin =>
      match interpolated userMessage with
      | inr message =>
          "As " ++ name twin ++ ", I find your question about " ++ JS.dquote ++ message ++ JS.dquote ++ " quite intriguing. Based on my expertise in " ++
          hd "undefined" (expertise twin) ++ ", I would suggest... [This would be replaced with actual AI-generated content]"
      | inl _ => "I'm having trouble thinking right now. Please try again in a moment."
      end
  end.

(** The two entries pushed for an answered message. *)
Definition exchange (persona message : value) (response : string) : list HistoryEntry :=
  [ mkEntry "user" message None;
    mkEntry "assistant" (JStr response) (Some persona) ].

(** Lines 786-807, 964-985 and 1026-1047: answer [message] as the
    selected persona, record the exchange, post the answer.  The reads of
    [userConv.selectedPersona] see one value: nothing runs in between. *)
Definition answer (userConv : nat) (channel message : value) : Handler unit :=
  selected <- read userConv selectedPersona ;;
  let response := generatePersonaResponse selected message in
  write userConv (pushed (exchange selected message response)) ;;
  let blocks := createConversationBlocks selected message response in
  io (Slack.postSlackMessage E channel "" (Some (JArr blocks))).

Definition selection_prompt (text : string) : value :=
  JObj [("response_type", JStr "ephemeral");
        ("text", JStr text);
        ("blocks", JArr createPersonaSelectionBlocks)].

Definition thinking (selected : value) : string :=
  "üí≠ Thinking as " ++ shown name (find_twin selected) ++ "...".

Definition handleChatCommand (payload : value) : Handler unit :=
  message <- io (Slack.trimmed_text payload) ;;
  user_id <- io (Val.lift (Val.prop payload "user_id")) ;;
  userConv <- getUserConversation user_id ;;
  if message =? "" then
    io (Slack.res_send 200 None (Json (selection_prompt "Choose a persona to chat with:")))
  else
    selected <- read userConv selectedPersona ;;
    if negb (Val.truthy selected) then
      io (Slack.res_send 200 None (Json (selection_prompt "Please select a persona first:")))
    else
      io (Slack.res_send 200 None (Text (thinking selected))) ;;
      spawn
        (try_
           (channel_id <- io (Val.lift (Val.prop payload "channel_id")) ;;
            answer userConv channel_id (JStr message))
           (fun _ =>
              channel_id <- io (Val.lift (Val.prop payload "channel_id")) ;;
              io (Slack.postSlackMessage E channel_id "Sorry, I encountered an error processing your message." None))).

(** ** Events *)

Definition is_upper_or_digit (c : ascii) : bool :=
  let n := N_of_ascii c in
  (((65 <=? n) && (n <=? 90)) || ((48 <=? n) && (n <=? 57)))%N.

(** The length of the longest prefix matching [[A-Z0-9]*], and what
    follows it. *)
Fixpoint run_length (s : string) : nat :=
  match s with
  | String c s' => if is_upper_or_digit c then S (run_length s') else O
  | EmptyString => O
  end.

Fixpoint after_run (s : string) : string :=
  match s with
  | String c s' => if is_upper_or_digit c then after_run s' else s
  | EmptyString => EmptyString
  end.

(** The length of the match of [/<@[UW][A-Z0-9]+>/] at the head of [s],
    if there is one.  The class excludes [>], so the greedy run is the
    only candidate. *)
Definition mention_length (s : string) : option nat :=
  match s with
  | String a (String b (String c rest)) =>
      if ((a =? "<") && (b =? "@") && ((c =? "U") || (c =? "W")))%char &&
         (0 <? run_length rest)%nat
      then
        match after_run rest with
        | String d _ =>
            if (d =? ">")%char then Some (3 + run_length rest + 1)%nat else None
        | EmptyString => None
        end
      else None
  | _ => None
  end.

(** [s.replace(/<@[UW][A-Z0-9]+>/g, "")]: matches are found left to
    right, each search resuming after the previous match; [skip] is what
    is left of the current match. *)
Fixpoint strip (skip : nat) (s : string) : string :=
  match s with
  | EmptyString => EmptyString
  | String c s' =>
      match skip with
      | S k => strip k s'
      | O =>
          match mention_length s with
          | Some n => strip (n - 1) s'
          | None => String c (strip 0 s')
          end
      end
  end.

Definition strip_mentions (s : string) : string := strip 0 s.

Definition helpBlocks : list value :=
  [ section ("üëã Hi! I'm DigitalTwinBot. Here's how to chat with me:" ++ JS.newline ++ JS.newline ++ "‚Ä¢ `/chat [message]` - Chat with a digital twin persona" ++ JS.newline ++ "‚Ä¢ `/personas` - See all available personas" ++ JS.newline ++ "‚Ä¢ `/debate [topic]` - Generate debates between personas" ++ JS.newline ++ JS.newline ++ "Or just mention me with a question!") ].

(** [[first, ...createPersonaSelectionBlocks().slice(1)]] *)
Definition queued_prompt (text : string) : list value :=
  section text :: tl createPersonaSelectionBlocks.

Definition handleAppMention (event : value) : Handler unit :=
  user <- io (Val.lift (Val.prop event "user")) ;;
  channel <- io (Val.lift (Val.prop event "channel")) ;;
  text <- io (Val.lift (Val.prop event "text")) ;;
  cleanText <-
    match text with
    | JStr s => unit_ (JS.trim (strip_mentions s))
    | _ => raise "TypeError: text.replace is not a function"
    end ;;
  if cleanText =? "" then
    io (Slack.postSlackMessage E channel "" (Some (JArr helpBlocks)))
  else
    userConv <- getUserConversation user ;;
    selected <- read userConv selectedPersona ;;
    if negb (Val.truthy selected) then
      io (Slack.postSlackMessage E channel ""
            (Some (JArr (queued_prompt ("üí≠ I'd love to help with: " ++ JS.dquote ++ cleanText ++ JS.dquote ++ JS.newline ++ JS.newline ++ "First, choose which digital twin persona you'd like to hear from:"))))) ;;
      write userConv (pushed [mkEntry "user" (JStr cleanText) None])
    else
      try_
        (answer userConv channel (JStr cleanText))
        (fun _ => io (Slack.postSlackMessage E channel "Sorry, I encountered an error processing your message. Please try again." None)).

Definition handleDirectMessage (event : value) : Handler unit :=
  user <- io (Val.lift (Val.prop event "user")) ;;
  channel <- io (Val.lift (Val.prop event "channel")) ;;
  text <- io (Val.lift (Val.prop event "text")) ;;
  subtype <- io (Val.lift (Val.prop event "subtype")) ;;
  bot_id <- io (Val.lift (Val.prop event "bot_id")) ;;
  if Slack.str_eq subtype "bot_message" || Val.truthy bot_id then unit_ tt else
  userConv <- getUserConversation user ;;
  selected <- read userConv selectedPersona ;;
  if negb (Val.truthy selected) then
    said <- io (Val.lift (interpolated text)) ;;
    io (Slack.postSlackMessage E channel ""
          (Some (JArr (queued_prompt ("üëã Hi! I'm DigitalTwinBot. I can help you chat with digital twin personas of famous innovators." ++ JS.newline ++ JS.newline ++ "You said: " ++ JS.dquote ++ said ++ JS.dquote ++ JS.newline ++ JS.newline ++ "Who would you like to discuss this with?"))))) ;;
    write userConv (pushed [mkEntry "user" text None])
  else
    try_
      (answer userConv channel text)
      (fun _ => io (Slack.postSlackMessage E channel "Sorry, I encountered an error processing your message. Please try again or use `/chat` command." None)).

(** The [console.log] of line 897 converts [event.type] before anything
    else happens. *)
Definition handleSlackEvent (event : value) : Handler unit :=
  type <- io (Val.lift (Val.prop event "type")) ;;
  io (Val.lift (interpolated type)) ;;
  if Slack.str_eq type "app_mention" then
    handleAppMention event
  else if Slack.str_eq type "message" then
    channel_type <- io (Val.lift (Val.prop event "channel_type")) ;;
    if Slack.str_eq channel_type "im" then handleDirectMessage event else unit_ tt
  else unit_ tt.

(** ** Interactive components *)

(** [v.length === 0] of a truthy [v]. *)
Definition length_is_zero (v : value) : bool :=
  match v with
  | JArr l => Nat.eqb (List.length l) 0
  | JStr s => Nat.eqb (String.length s) 0
  | JObj fields =>
      match Val.lookup fields "length" with
      | Some (JNum q) => Qeq_bool q 0
      | _ => false
      end
  | _ => false
  end.

(** [v[0]] of a truthy [v]. *)
Definition first (v : value) : value :=
  match v with
  | JArr l => nth 0 l JUndefined
  | JStr (String c _) => JStr (String c EmptyString)
  | JObj fields =>
      match Val.lookup fields "0" with
      | Some x => x
      | None => JUndefined
      end
  | _ => JUndefined
  end.

(** [v?.k] *)
Definition optional (v : value) (k : string) : value :=
  match Val.prop v k with
  | inr x => x
  | inl _ => JUndefined
  end.

(** [payload.channel?.id || ""] *)
Definition channel_of (payload : value) : M value :=
  (channel <- Val.lift (Val.prop payload "channel") ;;
   let id := optional channel "id" in
   ret (if Val.truthy id then id else JStr ""))%js.

Definition handleInteractivePayload (payload : value) : Handler unit :=
  io (Slack.res_send 200 None NoBody) ;;
  user <- io (Val.lift (Val.prop payload "user")) ;;
  userId <- io (Val.lift (Val.prop user "id")) ;;
  userConv <- getUserConversation userId ;;
  actions <- io (Val.lift (Val.prop payload "actions")) ;;
  if negb (Val.truthy actions) || length_is_zero actions then unit_ tt else
  let action := first actions in
  action_id <- io (Val.lift (Val.prop action "action_id")) ;;
  if Slack.str_eq action_id "select_persona" then
    selected_option <- io (Val.lift (Val.prop action "selected_option")) ;;
    let selected := optional selected_option "value" in
    if Val.truthy selected then
      write userConv (selecting selected) ;;
      let twin := find_twin selected in
      channel <- io (channel_of payload) ;;
      io (Slack.postEphemeralMessage E channel userId
            ("‚úÖ Selected " ++ shown emoji twin ++ " " ++ shown name twin ++ "! You can now use `/chat [your message]` to start chatting.")
            None)
    else unit_ tt
  else if Slack.str_eq action_id "generate_voice" then
    io (generate_voice payload action)
  else if Slack.str_eq action_id "continue_chat" then
    channel <- io (channel_of payload) ;;
    chosen <- io (Val.lift (Val.prop action "value")) ;;
    io (Slack.postEphemeralMessage E channel userId
          ("üí¨ Continue chatting with " ++ shown name (find_twin chosen) ++ " using `/chat [your message]`")
          None)
  else if Slack.str_eq action_id "switch_persona" then
    write userConv (selecting JUndefined) ;;
    channel <- io (channel_of payload) ;;
    io (Slack.postEphemeralMessage E channel userId "Choose a new persona:"
          (Some (JArr createPersonaSelectionBlocks)))
  else if Slack.str_eq action_id "start_chat" then
    channel <- io (channel_of payload) ;;
    io (Slack.postEphemeralMessage E channel userId "Choose a persona to start chatting:"
          (Some (JArr createPersonaSelectionBlocks)))
  else unit_ tt.

End Handlers.

End Chat.

(* ===================================================================== *)
(** * The voice catalog routes                                            *)
(* ===================================================================== *)

Module Catalog.

Section Routes.

Variable E : Env.

(** [res.json(v)]: the body is [v] as [JSON.stringify] writes it. *)
Definition res_json (st : Z) (v : value) : M unit :=
  Slack.res_send st None (Json (Val.serialised v)).

(** [app.get("/api/voices", ...)] *)
Definition voices : M unit :=
  try_catch
    (voices <- VoiceService.getVoices E ;;
     res_json 200 (JArr voices))
    (fun _ => res_json 500 (JObj [("error", JStr "Failed to fetch voices")])).

(** [app.get("/api/voices/all", ...)] *)
Definition voices_all : M unit :=
  try_catch
    (voices <- VoiceService.getAllVoices E ;;
     res_json 200 voices)
    (fun _ => res_json 500 (JObj [("error", JStr "Failed to fetch all voices")])).

End Routes.

End Catalog.

(* ===================================================================== *)
(** * Sample environments and requests                                    *)
(* ===================================================================== *)

Module Sample.

(** Midnight UTC, 15 November 2023, in milliseconds. *)
Definition t0 : Z := 1700000000000.

(** A process just started: nothing recorded, nothing called. *)
Definition boot : World := mkWorld t0 0 0 0 [].

(** [Number] on strings of decimal digits, which is all the samples
    pass to it; anything else is NaN here. *)
Fixpoint digits (acc : Z) (s : string) : option Z :=
  match s with
  | EmptyString => Some acc
  | String c s' =>
      let n := Z.of_N (N_of_ascii c) in
      if ((48 <=? n) && (n <=? 57))%Z then digits (acc * 10 + (n - 48)) s' else None
  end.

Definition decimal (s : string) : number :=
  match digits 0 s with
  | Some z => Fin (inject_Z z)
  | None => NaN
  end.

(** An environment around a provider: every await takes 20 ms, keys and
    secrets are set, the abstract library functions are inert. *)
Definition env (provider : nat -> NetCall -> FetchResult) : Env :=
  mkEnv "sk-test" "s3cret" "xoxb-test" provider (fun _ => 20%N)
        (fun _ => None)
        (fun _ _ => "0000000000000000000000000000000000000000000000000000000000000000")
        decimal (fun _ => "").

(** A provider that is down. *)
Definition failing : Env := env (fun _ _ => Responded 500 (Some "Internal Server Error")).

(** A provider out of quota on the first call, serving the second. *)
Definition quota_then_audio : Env :=
  env (fun n _ => match n with
                  | O => Responded 401 (Some "{ status: quota_exceeded }")
                  | _ => Responded 200 (Some "ID3")
                  end).

(** A provider that serves. *)
Definition serving : Env := env (fun _ _ => Responded 200 (Some "ID3")).

(** The same, with one variable unset. *)
Definition without_api_key (E : Env) : Env :=
  mkEnv "" (SLACK_SIGNING_SECRET E) (SLACK_BOT_TOKEN E) (reply E) (elapsed E)
        (JSON_parse E) (hmac_sha256_hex E) (Number E) (ToString E).

Definition without_signing_secret (E : Env) : Env :=
  mkEnv (ELEVENLABS_API_KEY E) "" (SLACK_BOT_TOKEN E) (reply E) (elapsed E)
        (JSON_parse E) (hmac_sha256_hex E) (Number E) (ToString E).


(** A handler that does nothing, for the handlers kept abstract. *)
Definition idle : value -> M unit := fun _ => ret tt.

(** Slack's URL verification handshake. *)
Definition challenge_request : Slack.Request :=
  Slack.mkReq None None None (Some "application/json")
    (JObj [("type", JStr "url_verification"); ("challenge", JStr "abc123")]).

(** A [/debate AI ethics] slash command in channel C123, as the
    urlencoded parser leaves it. *)
Definition debate_body : value :=
  JObj [("command", JStr "/debate"); ("text", JStr "AI ethics");
        ("channel_id", JStr "C123"); ("user_id", JStr "U42")].

(** The same command, signed with [signature] at [timestamp]. *)
Definition debate_request (timestamp signature : option string) : Slack.Request :=
  Slack.mkReq (Some "command=%2Fdebate&text=AI+ethics&channel_id=C123&user_id=U42")
    timestamp signature (Some "application/x-www-form-urlencoded") debate_body.

(** A well-formed signature that is not the one of this request. *)
Definition forged_signature : string :=
  "v0=ffffffffffffffffffffffffffffffffffffffffffffffffffffffffffffffff".

(** 601 characters. *)
Definition long_text : string :=
  String.concat "" (repeat "abcdefghijklmnopqrstuvwxyz0123456789!" 16) ++ "123456789".

End Sample.

Local Open Scope list_scope.

(* ===================================================================== *)
(** * Reading a run: the new events of a world                            *)
(* ===================================================================== *)

(** The events a run from [w] to [w'] appended. *)
Definition added (w w' : World) : list Event :=
  skipn (List.length (trace w)) (trace w').

(** The instants at which the provider or Slack was called. *)
Fixpoint fire_times (evs : list Event) : list Z :=
  match evs with
  | [] => []
  | Net t _ :: evs' => t :: fire_times evs'
  | _ :: evs' => fire_times evs'
  end.

(** The calls made, in order. *)
Fixpoint calls (evs : list Event) : list NetCall :=
  match evs with
  | [] => []
  | Net _ c :: evs' => c :: calls evs'
  | _ :: evs' => calls evs'
  end.

(** The functions entered, in order. *)
Fixpoint entered (evs : list Event) : list string :=
  match evs with
  | [] => []
  | Enter f :: evs' => f :: entered evs'
  | _ :: evs' => entered evs'
  end.

(** The responses written, in order. *)
Fixpoint responses (evs : list Event) : list HttpResponse :=
  match evs with
  | [] => []
  | Respond r :: evs' => r :: responses evs'
  | _ :: evs' => responses evs'
  end.

(* ===================================================================== *)
(** * synthesizeSpeech as a decision tree                                 *)
(* ===================================================================== *)

Module Tree.

Import VoiceService.

(** The world after a fetch has been fired and has settled. *)
Definition fired (E : Env) (call : NetCall) (w : World) : World :=
  tick E (counted (log (Net (now w) call) w)).

(** The world after the rate-limit wait of lines 40-43. *)
Definition waited (E : Env) (w : World) : World :=
  if (now w - lastCallTimestamp w <? rateLimitDelay)%Z
  then tick E (later (Z.max 0 (rateLimitDelay - (now w - lastCallTimestamp w))) w)
  else w.

Definition failed (text : string) (persona : option string) (w : World)
  : (exn + SynthResult) * World :=
  (inr (Fallback text persona "exception"), w).

(** Lines 162-168, from a response with a success status. *)
Definition finish (E : Env) (text : string) (persona : option string)
    (b : option string) (w : World) : (exn + SynthResult) * World :=
  let w' := tick E (stamp (now w) w) in
  match b with
  | Some s => (inr (Audio (list_byte_of_string s)), w')
  | None => failed text persona w'
  end.

(** Every path through [synthesizeSpeech], by what the environment
    answers.  A non-success answer without the quota marker ends in the
    [catch] block: line 153 reads the body line 145 has consumed. *)
Definition synthesizeSpeech_tree (E : Env) (text : string)
    (persona voiceId : option string) (w : World) : (exn + SynthResult) * World :=
  let w0 := log (Enter "synthesizeSpeech") w in
  if apiKey E =? "" then (inr (Fallback text persona "missing_api_key"), w0) else
  let w1 := waited E w0 in
  let voice := Persona.selectVoiceId persona voiceId in
  let call1 := TextToSpeech voice (truncatedText text) in
  let w2 := fired E call1 w1 in
  match reply E (fetches w1) call1 with
  | NetworkError => failed text persona w2
  | Responded st b =>
      if ok_status st then finish E text persona b w2 else
      match b with
      | None => failed text persona (tick E w2)
      | Some errorBody =>
          let w3 := tick E w2 in
          if JS.includes errorBody "quota_exceeded" then
            let call2 := TextToSpeech voice (JS.slice 0 120 text) in
            let w4 := fired E call2 w3 in
            match reply E (fetches w3) call2 with
            | NetworkError => failed text persona w4
            | Responded st2 b2 =>
                if ok_status st2 then finish E text persona b2 w4 else
                match b2 with
                | None => failed text persona (tick E w4)
                | Some _ =>
                    (inr (Fallback text persona ("api_error_" ++ show_int st2)),
                     tick E w4)
                end
            end
          else failed text persona w3
      end
  end.

End Tree.

(* ===================================================================== *)
(** * Running the primitives                                              *)
(* ===================================================================== *)

Lemma fetch_run E call w :
  fetch E call w =
  (match reply E (fetches w) call with
   | NetworkError => inl "TypeError: fetch failed"
   | Responded st b => inr (mkResponse st b false)
   end, Tree.fired E call w).
Proof.
  unfold fetch, bind, Date_now, gets, emit, modify, next_fetch, suspend, Tree.fired; cbn.
  destruct (reply E (fetches w) call); reflexivity.
Qed.

Lemma read_body_run E r w :
  read_body E r w =
  if bodyUsed r then (inl "TypeError: Body is unusable", w)
  else (match body r with
        | Some s => inr (s, mkResponse (status r) (body r) true)
        | None => inl "TypeError: terminated"
        end, tick E w).
Proof.
  unfold read_body, bind, suspend, modify, throw, ret.
  destruct (bodyUsed r); [reflexivity|]. destruct (body r); reflexivity.
Qed.


Ltac run_step :=
  cbv beta iota zeta
      delta [ok status body bodyUsed ret negb fst snd response_text
             response_arrayBuffer set_lastCallTimestamp modify bind
             Tree.finish Tree.failed].

Lemma synthesizeSpeech_run E text persona voiceId w :
  VoiceService.synthesizeSpeech E text persona voiceId w =
  Tree.synthesizeSpeech_tree E text persona voiceId w.
Proof.
  unfold VoiceService.synthesizeSpeech, Tree.synthesizeSpeech_tree.
  cbv [bind try_catch emit modify].
  destruct (VoiceService.apiKey E =? ""); [reflexivity|].
  cbv [bind Date_now gets setTimeout advance suspend modify ret Tree.waited].
  cbn [now lastCallTimestamp log].
  set (w0 := log (Enter "synthesizeSpeech") w).
  destruct (now w - lastCallTimestamp w <? VoiceService.rateLimitDelay)%Z;
    [ set (w1 := tick E _) | set (w1 := w0) ]; clearbody w1; clear w0.
  all: rewrite fetch_run.
  all: destruct (reply E (fetches w1) _) as [|st b]; [reflexivity|].
  all: run_step.
  all: destruct (ok_status st) eqn:Hok; run_step; rewrite ?Hok; run_step.
  all: rewrite read_body_run; run_step.
  all: destruct b as [errorBody|]; try reflexivity.
  all: destruct (JS.includes errorBody "quota_exceeded"); run_step; rewrite ?Hok;
       run_step; try (rewrite read_body_run; run_step; reflexivity).
  all: rewrite fetch_run; set (w3 := tick E (Tree.fired E _ w1)).
  all: destruct (reply E (fetches w3) _) as [|st2 b2]; [reflexivity|].
  all: run_step.
  all: destruct (ok_status st2) eqn:Hok2; run_step; rewrite ?Hok2; run_step;
       rewrite read_body_run; run_step.
  all: destruct b2; reflexivity.
Qed.

(* ===================================================================== *)
(** * Facts about worlds                                                  *)
(* ===================================================================== *)

Section WorldFacts.

Variable E : Env.

Lemma trace_tick w : trace (tick E w) = trace w.
Proof. reflexivity. Qed.

Lemma trace_fired c w : trace (Tree.fired E c w) = trace w ++ [Net (now w) c].
Proof. reflexivity. Qed.

Lemma trace_waited w : trace (Tree.waited E w) = trace w.
Proof. unfold Tree.waited. destruct (_ <? _)%Z; reflexivity. Qed.

Lemma fetches_waited w : fetches (Tree.waited E w) = fetches w.
Proof. unfold Tree.waited. destruct (_ <? _)%Z; reflexivity. Qed.

Lemma last_waited w : lastCallTimestamp (Tree.waited E w) = lastCallTimestamp w.
Proof. unfold Tree.waited. destruct (_ <? _)%Z; reflexivity. Qed.

Lemma now_tick w : (now w <= now (tick E w))%Z.
Proof. cbn [now tick]. lia. Qed.

Lemma now_fired c w : (now w <= now (Tree.fired E c w))%Z.
Proof. cbn [now tick Tree.fired counted log awaits]. lia. Qed.

(** The rate limiter: past the wait, the clock is at least one delay
    after the recorded timestamp. *)
Lemma now_waited w :
  (lastCallTimestamp w + VoiceService.rateLimitDelay <= now (Tree.waited E w))%Z.
Proof.
  unfold Tree.waited, VoiceService.rateLimitDelay.
  destruct (Z.ltb_spec (now w - lastCallTimestamp w) 1000);
    cbn [now tick later]; lia.
Qed.

Lemma added_app w w' evs : trace w' = trace w ++ evs -> added w w' = evs.
Proof.
  unfold added. intros ->. rewrite skipn_app, skipn_all, Nat.sub_diag. reflexivity.
Qed.

End WorldFacts.

Lemma fire_times_app evs1 evs2 :
  fire_times (evs1 ++ evs2) = (fire_times evs1 ++ fire_times evs2)%list.
Proof.
  induction evs1 as [|[f|t c|r] evs1 IH]; cbn; rewrite ?IH; reflexivity.
Qed.

Lemma substring_length n s :
  (n <= String.length s)%nat -> String.length (String.substring 0 n s) = n.
Proof.
  revert s. induction n as [|n IH]; intros [|c s] H; cbn in *; try lia; auto.
  rewrite IH; lia.
Qed.

Lemma substring_min n s :
  String.substring 0 (Nat.min n (String.length s)) s = String.substring 0 n s.
Proof.
  revert s. induction n as [|n IH]; intros [|c s]; cbn; try reflexivity.
  rewrite IH. reflexivity.
Qed.

Lemma append_length s1 s2 :
  String.length (s1 ++ s2) = (String.length s1 + String.length s2)%nat.
Proof. induction s1; cbn; auto. Qed.

(** [text.substring(0, n)] and [text.slice(0, n)] are both the first [n]
    characters. *)
Lemma js_substring_prefix n s : JS.substring 0 n s = String.substring 0 n s.
Proof.
  unfold JS.substring. cbn [Nat.min].
  rewrite Nat.max_r, Nat.sub_0_r by lia. apply substring_min.
Qed.

Lemma js_slice_prefix n s : JS.slice 0 n s = String.substring 0 n s.
Proof.
  unfold JS.slice. cbn [Nat.min]. rewrite Nat.sub_0_r. apply substring_min.
Qed.

(** Walks the decision tree: one goal per path. *)
Ltac case_reply E st b :=
  match goal with
  | |- context [reply E ?n ?c] => destruct (reply E n c) as [|st b]
  end.

Ltac tree_cases E :=
  rewrite synthesizeSpeech_run; unfold Tree.synthesizeSpeech_tree; cbv zeta;
  destruct (VoiceService.apiKey E =? "")%string eqn:?;
  [ | let st := fresh "st" in
      let b := fresh "b" in
      let errorBody := fresh "errorBody" in
      let st2 := fresh "st2" in
      let b2 := fresh "b2" in
      case_reply E st b;
      [ | destruct (ok_status st) eqn:?;
          [ destruct b
          | destruct b as [errorBody|];
            [ destruct (JS.includes errorBody _) eqn:?;
              [ case_reply E st2 b2;
                [ | destruct (ok_status st2) eqn:?; destruct b2 ]
              | ]
            | ] ] ] ];
  unfold Tree.finish, Tree.failed; cbn [fst snd].

(* ===================================================================== *)
(** * Properties of the voice synthesis client                            *)
(* ===================================================================== *)

(** The reason codes the specification lists. *)
Definition listed_reason (reason : string) : Prop :=
  reason = "missing_api_key" \/
  (exists st, reason = ("api_error_" ++ VoiceService.show_int st)%string) \/
  reason = "exception".

(** [synthesizeSpeech] always resolves, in every world and whatever the
    provider does. *)
Lemma synthesizeSpeech_resolves E text persona voiceId w :
  exists r, fst (VoiceService.synthesizeSpeech E text persona voiceId w) = inr r.
Proof.
  tree_cases E; eexists; reflexivity.
Qed.

(** C3. For every input and every behaviour of the provider,
    [synthesizeSpeech] resolves (it never rejects) to audio bytes or to a
    fallback descriptor that carries the original text and persona and a
    reason among missing_api_key, api_error_<status> and exception; with
    no API key the result is the missing_api_key fallback and no fetch is
    made (the run adds its entry event and nothing else). *)
Theorem C3_synthesizeSpeech_two_shapes_never_raises
    (E : Env) (text : string) (persona voiceId : option string) (w : World) :
  exists r,
    fst (VoiceService.synthesizeSpeech E text persona voiceId w) = inr r /\
    match r with
    | VoiceService.Audio _ => True
    | VoiceService.Fallback t p reason =>
        t = text /\ p = persona /\ listed_reason reason
    end /\
    (if (ELEVENLABS_API_KEY E =? "")%string then
       r = VoiceService.Fallback text persona "missing_api_key" /\
       snd (VoiceService.synthesizeSpeech E text persona voiceId w) =
         log (Enter "synthesizeSpeech") w /\
       calls (added w (snd (VoiceService.synthesizeSpeech E text persona voiceId w))) = []
     else True).
Proof.
  change (ELEVENLABS_API_KEY E) with (VoiceService.apiKey E).
  tree_cases E; eexists; (split; [reflexivity|]); unfold listed_reason;
    try (split; [solve [exact I | repeat split; eauto] | exact I]).
  split; [repeat split; auto|]. split; [reflexivity|]. split; [reflexivity|].
  rewrite (added_app w _ [Enter "synthesizeSpeech"]); reflexivity.
Qed.

(** C8. Every name variant of the alias table resolves to the voice id
    of its canonical name, the id the persona table gives that name; in
    particular "fi fi lee" and "Fei-Fei Li" both resolve to
    JL6vl3xyRi3Ly7WoywNO. *)
Theorem C8_alias_resolves_like_canonical
    (canonical : string) (aliases : list string) (variant : string) :
  In (canonical, aliases) Persona.personaAliases ->
  In variant aliases ->
  (exists voice,
     In (canonical, voice) Persona.personaVoiceMap /\
     Persona.resolveVoiceIdForPersona (Some variant) = Some voice /\
     Persona.resolveVoiceIdForPersona (Some canonical) = Some voice) /\
  Persona.resolveVoiceIdForPersona (Some "fi fi lee") = Some "JL6vl3xyRi3Ly7WoywNO" /\
  Persona.resolveVoiceIdForPersona (Some "Fei-Fei Li") = Some "JL6vl3xyRi3Ly7WoywNO".
Proof.
  intros Hc Hv. split; [|split; reflexivity].
  destruct Hc as [Hc|[]]. inversion Hc; subst; clear Hc.
  exists "JL6vl3xyRi3Ly7WoywNO". split; [cbn; tauto|].
  split; [|reflexivity].
  cbn [In] in Hv.
  repeat (destruct Hv as [<-|Hv]; [vm_compute; reflexivity|]).
  destruct Hv.
Qed.

Lemma C8_alias_witness :
  (exists voice,
     In ("Fei-Fei Li", voice) Persona.personaVoiceMap /\
     Persona.resolveVoiceIdForPersona (Some "fe fe le") = Some voice /\
     Persona.resolveVoiceIdForPersona (Some "Fei-Fei Li") = Some voice) /\
  Persona.resolveVoiceIdForPersona (Some "fi fi lee") = Some "JL6vl3xyRi3Ly7WoywNO" /\
  Persona.resolveVoiceIdForPersona (Some "Fei-Fei Li") = Some "JL6vl3xyRi3Ly7WoywNO".
Proof.
  apply (C8_alias_resolves_like_canonical "Fei-Fei Li"
           (snd (hd ("", []) Persona.personaAliases)) "fe fe le").
  - left. reflexivity.
  - cbn. tauto.
Defined.

(** The specification's words for the text of the first attempt: over
    600 characters, the first 600 and an ellipsis; otherwise the text. *)
Definition first_attempt_text (text : string) : string :=
  if (600 <? String.length text)%nat
  then (String.substring 0 600 text ++ "...")%string
  else text.

Lemma truncatedText_spec text : VoiceService.truncatedText text = first_attempt_text text.
Proof.
  unfold VoiceService.truncatedText, first_attempt_text, VoiceService.maxChars.
  rewrite js_substring_prefix. reflexivity.
Qed.

Lemma key_present E :
  ELEVENLABS_API_KEY E <> "" -> (VoiceService.apiKey E =? "")%string = false.
Proof. intros H. apply String.eqb_neq. exact H. Qed.

Ltac added_norm :=
  erewrite !added_app
    by (cbn [trace tick stamp log Tree.fired counted]; rewrite ?trace_waited;
        cbn [trace log]; rewrite <- ?app_assoc; reflexivity).

(** C5. With an API key, the first request a call of [synthesizeSpeech]
    sends carries the first 600 characters of the input followed by "..."
    (603 characters in all) when the input is longer than 600 characters,
    and the input unchanged otherwise. *)
Theorem C5_first_attempt_truncates_at_600
    (E : Env) (text : string) (persona voiceId : option string) (w : World) :
  ELEVENLABS_API_KEY E <> "" ->
  (exists t rest,
     added w (snd (VoiceService.synthesizeSpeech E text persona voiceId w)) =
       Enter "synthesizeSpeech" ::
       Net t (TextToSpeech (Persona.selectVoiceId persona voiceId)
                           (first_attempt_text text)) :: rest) /\
  ((600 < String.length text)%nat ->
     first_attempt_text text = (String.substring 0 600 text ++ "...")%string /\
     String.length (first_attempt_text text) = 603%nat) /\
  ((String.length text <= 600)%nat -> first_attempt_text text = text).
Proof.
  intros Hkey%key_present. split; [|split].
  - rewrite <- truncatedText_spec.
    tree_cases E; try congruence; added_norm; cbn [app]; eauto.
  - intros Hlen. unfold first_attempt_text.
    destruct (Nat.ltb_spec 600 (String.length text)); [|lia].
    split; [reflexivity|].
    rewrite append_length, substring_length by lia. reflexivity.
  - intros Hlen. unfold first_attempt_text.
    destruct (Nat.ltb_spec 600 (String.length text)); [lia|reflexivity].
Qed.

Lemma C5_first_attempt_witness :
  exists t rest,
    added Sample.boot
      (snd (VoiceService.synthesizeSpeech Sample.serving Sample.long_text None None
              Sample.boot)) =
    Enter "synthesizeSpeech" ::
    Net t (TextToSpeech (Persona.selectVoiceId None None)
                        (first_attempt_text Sample.long_text)) :: rest.
Proof.
  apply (C5_first_attempt_truncates_at_600 Sample.serving Sample.long_text None None
           Sample.boot).
  discriminate.
Defined.

(** C4. With an API key, when the provider's first answer has a
    non-success status: if its body contains "quota_exceeded" the call
    makes exactly one more request, whose text is the first 120
    characters of the original text; with any other body, or a body
    that cannot be read, it makes no further request. *)
Theorem C4_quota_exceeded_retries_once
    (E : Env) (text : string) (persona voiceId : option string) (w : World)
    (st : Z) (b : option string) :
  ELEVENLABS_API_KEY E <> "" ->
  reply E (fetches w)
        (TextToSpeech (Persona.selectVoiceId persona voiceId)
                      (VoiceService.truncatedText text)) = Responded st b ->
  ok_status st = false ->
  calls (added w (snd (VoiceService.synthesizeSpeech E text persona voiceId w))) =
    TextToSpeech (Persona.selectVoiceId persona voiceId)
                 (VoiceService.truncatedText text) ::
    match b with
    | Some errorBody =>
        if JS.includes errorBody "quota_exceeded"
        then [TextToSpeech (Persona.selectVoiceId persona voiceId)
                           (String.substring 0 120 text)]
        else []
    | None => []
    end.
Proof.
  intros Hkey%key_present Hreply Hst.
  rewrite <- js_slice_prefix.
  assert (Hf : fetches (Tree.waited E (log (Enter "synthesizeSpeech") w)) = fetches w)
    by (rewrite fetches_waited; reflexivity).
  rewrite synthesizeSpeech_run; unfold Tree.synthesizeSpeech_tree; cbv zeta.
  rewrite Hkey, Hf, Hreply, Hst.
  destruct b as [errorBody|]; [destruct (JS.includes errorBody _)|].
  - clear Hreply. case_reply E st2 b2;
      [|destruct (ok_status st2); destruct b2];
      unfold Tree.finish, Tree.failed; cbn [fst snd]; added_norm; reflexivity.
  - unfold Tree.failed; cbn [fst snd]; added_norm; reflexivity.
  - unfold Tree.failed; cbn [fst snd]; added_norm; reflexivity.
Qed.

Lemma C4_quota_witness :
  calls (added Sample.boot
           (snd (VoiceService.synthesizeSpeech Sample.quota_then_audio
                   Sample.long_text (Some "Steve Jobs") None Sample.boot))) =
  [ TextToSpeech "RScb7njQ3VwA2nyCsZX4" (VoiceService.truncatedText Sample.long_text);
    TextToSpeech "RScb7njQ3VwA2nyCsZX4" (String.substring 0 120 Sample.long_text) ].
Proof.
  apply (C4_quota_exceeded_retries_once Sample.quota_then_audio Sample.long_text
           (Some "Steve Jobs") None Sample.boot 401
           (Some "{ status: quota_exceeded }")).
  - discriminate.
  - reflexivity.
  - reflexivity.
Defined.

(** The wait of lines 40-43: every request of a call is fired at least
    [rateLimitDelay] after the timestamp recorded when the call began. *)
Lemma rate_limit_wait E text persona voiceId w :
  Forall (fun t => (lastCallTimestamp w + VoiceService.rateLimitDelay <= t)%Z)
         (fire_times
            (added w (snd (VoiceService.synthesizeSpeech E text persona voiceId w)))).
Proof.
  pose proof (now_waited E (log (Enter "synthesizeSpeech") w)) as Hw.
  cbn [lastCallTimestamp log] in Hw.
  tree_cases E; added_norm; cbn [fire_times app];
    repeat constructor;
    cbn [now tick stamp Tree.fired counted log awaits]; lia.
Qed.

(** Line 162: a call that resolves to audio leaves in
    [lastCallTimestamp] the instant its successful response arrived,
    which is not before any of its requests and not in the future. *)
Lemma stamp_on_success E text persona voiceId w audio :
  fst (VoiceService.synthesizeSpeech E text persona voiceId w) =
    inr (VoiceService.Audio audio) ->
  let w' := snd (VoiceService.synthesizeSpeech E text persona voiceId w) in
  Forall (fun t => (t <= lastCallTimestamp w')%Z) (fire_times (added w w')) /\
  (lastCallTimestamp w' <= now w')%Z.
Proof.
  cbv zeta. tree_cases E; intros H; try discriminate H; clear H;
    added_norm; cbn [fire_times app];
    (split; [repeat constructor|]);
    cbn [now lastCallTimestamp tick stamp Tree.fired counted log awaits]; lia.
Qed.

(** A call that resolves to a fallback other than [exception] leaves the
    timestamp as it was. *)
Lemma stamp_only_on_success E text persona voiceId w t p reason :
  fst (VoiceService.synthesizeSpeech E text persona voiceId w) =
    inr (VoiceService.Fallback t p reason) ->
  reason <> "exception" ->
  lastCallTimestamp (snd (VoiceService.synthesizeSpeech E text persona voiceId w)) =
    lastCallTimestamp w.
Proof.
  tree_cases E; intros H Hr; inversion H; subst; try congruence;
    cbn [lastCallTimestamp tick stamp Tree.fired counted log];
    rewrite ?last_waited; reflexivity.
Qed.

(** What the rate limiter does enforce.  Every request of a call fires
    at least 1000 ms after the timestamp recorded when the call began (a
    call arriving sooner waits out the difference); a call that resolves
    to audio records the instant of its success, a call that resolves to
    a missing_api_key or api_error fallback records nothing; hence, of
    two calls the second of which begins when the first has resolved,
    when the first resolves to audio, each request of the second fires
    at least 1000 ms after each request of the first. *)
Lemma requests_1000ms_after_last_success
    (E : Env) (text1 text2 : string) (persona1 voiceId1 persona2 voiceId2 : option string)
    (w : World) :
  let run1 := VoiceService.synthesizeSpeech E text1 persona1 voiceId1 w in
  let w1 := snd run1 in
  let w2 := snd (VoiceService.synthesizeSpeech E text2 persona2 voiceId2 w1) in
  Forall (fun t => (lastCallTimestamp w + 1000 <= t)%Z) (fire_times (added w w1)) /\
  (forall audio, fst run1 = inr (VoiceService.Audio audio) ->
     Forall (fun t => (t <= lastCallTimestamp w1)%Z) (fire_times (added w w1)) /\
     (lastCallTimestamp w1 <= now w1)%Z /\
     Forall (fun t2 => Forall (fun t1 => (t1 + 1000 <= t2)%Z) (fire_times (added w w1)))
            (fire_times (added w1 w2))) /\
  (forall t p reason, fst run1 = inr (VoiceService.Fallback t p reason) ->
     reason <> "exception" -> lastCallTimestamp w1 = lastCallTimestamp w).
Proof.
  cbv zeta. split; [apply rate_limit_wait|]. split.
  - intros audio Ha.
    destruct (stamp_on_success E text1 persona1 voiceId1 w audio Ha) as [H1 H2].
    cbv zeta in H1, H2. split; [exact H1|]. split; [exact H2|].
    eapply Forall_impl; [|apply rate_limit_wait].
    cbv beta. intros t2 Ht2.
    eapply Forall_impl; [|exact H1].
    cbv beta. unfold VoiceService.rateLimitDelay in Ht2. intros t1 Ht1. lia.
  - intros t p reason. apply stamp_only_on_success.
Qed.

(** C6 at a failing input: the code against the specification and its
    own comment on line 9 ("1 second between calls").  The provider is
    down; the first call records no timestamp, since line 162 is reached
    on success only, and the request of the second call, begun when the
    first has resolved, fires 40 ms after the request of the first. *)
Theorem C6_failed_call_leaves_no_delay :
  let w1 := snd (VoiceService.synthesizeSpeech Sample.failing "first" None None
                   Sample.boot) in
  let w2 := snd (VoiceService.synthesizeSpeech Sample.failing "second" None None w1) in
  fire_times (added Sample.boot w1) = [1700000000000%Z] /\
  fire_times (added w1 w2) = [1700000000040%Z] /\
  ~ Forall (fun t2 => Forall (fun t1 => (t1 + 1000 <= t2)%Z)
                             (fire_times (added Sample.boot w1)))
           (fire_times (added w1 w2)).
Proof.
  cbv zeta.
  assert (H1 : fire_times (added Sample.boot
                 (snd (VoiceService.synthesizeSpeech Sample.failing "first" None None
                         Sample.boot))) = [1700000000000%Z]) by (vm_compute; reflexivity).
  assert (H2 : fire_times (added
                 (snd (VoiceService.synthesizeSpeech Sample.failing "first" None None
                         Sample.boot))
                 (snd (VoiceService.synthesizeSpeech Sample.failing "second" None None
                         (snd (VoiceService.synthesizeSpeech Sample.failing "first" None
                                 None Sample.boot))))) = [1700000000040%Z])
    by (vm_compute; reflexivity).
  rewrite H1, H2. split; [reflexivity|]. split; [reflexivity|].
  intros H. inversion H as [|? ? Hh _]; subst.
  inversion Hh as [|? ? Hlt _]; subst. lia.
Qed.

(* ===================================================================== *)
(** * Voice listing                                                       *)
(* ===================================================================== *)

Lemma try_catch_resolves {A} (c : M A) (h : exn -> M A) w :
  (forall e w1, exists a, fst (h e w1) = inr a) ->
  exists a, fst (try_catch c h w) = inr a.
Proof.
  intros Hh. unfold try_catch. destruct (c w) as [[e|a] w1]; [apply Hh|].
  exists a. reflexivity.
Qed.

Lemma try_catch_inl {A} (c : M A) (h : exn -> M A) w e w1 :
  c w = (inl e, w1) -> try_catch c h w = h e w1.
Proof. unfold try_catch. intros ->. reflexivity. Qed.

Lemma bind_inl {A B} (c : M A) (k : A -> M B) w e w1 :
  c w = (inl e, w1) -> bind c k w = (inl e, w1).
Proof. unfold bind. intros ->. reflexivity. Qed.

Lemma bind_inr {A B} (c : M A) (k : A -> M B) w a w1 :
  c w = (inr a, w1) -> bind c k w = k a w1.
Proof. unfold bind. intros ->. reflexivity. Qed.





(* ===================================================================== *)
(** * POST /api/voice/synthesize                                          *)
(* ===================================================================== *)

Lemma check_text_empty path v :
  Api.check_text path v = [] ->
  exists x, v = JStr x /\ (1 <= String.length x <= 500)%nat.
Proof.
  unfold Api.check_text. destruct v; try discriminate.
  destruct (Nat.ltb_spec (String.length s) 1); [discriminate|].
  destruct (Nat.ltb_spec 500 (String.length s)); [discriminate|].
  intros _. exists s. split; [reflexivity|lia].
Qed.

Lemma safeParse_inr body text persona :
  Api.safeParse body = inr (text, persona) ->
  Val.prop body "text" = inr (JStr text) /\ (1 <= String.length text <= 500)%nat.
Proof.
  unfold Api.safeParse. destruct body; try discriminate. cbn [Val.prop].
  destruct (Val.lookup fields "text") as [v|]; cbv zeta.
  - destruct (Api.check_text ["text"] v) as [|i l] eqn:Hc; [|discriminate].
    apply check_text_empty in Hc. destruct Hc as (x & -> & Hx).
    cbn [app].
    destruct (Api.check_optional_string ["persona"] _); [|discriminate].
    intros H. inversion H; subst. auto.
  - discriminate.
Qed.

Lemma safeParse_inl body issues : Api.safeParse body = inl issues -> issues <> [].
Proof.
  unfold Api.safeParse. destruct body; try (intros H; inversion H; discriminate).
  cbv zeta.
  destruct (Api.check_text ["text"] _ ++ Api.check_optional_string ["persona"] _)
    as [|i l] eqn:Hc.
  - apply app_eq_nil in Hc. destruct Hc as [Hc _].
    apply check_text_empty in Hc. destruct Hc as (x & -> & _). discriminate.
  - intros H. inversion H. discriminate.
Qed.

Lemma truncatedText_short text :
  (String.length text <= 600)%nat -> VoiceService.truncatedText text = text.
Proof.
  intros H. unfold VoiceService.truncatedText, VoiceService.maxChars.
  destruct (Nat.ltb_spec 600 (String.length text)); [lia|reflexivity].
Qed.

(** C9. The handler of POST /api/voice/synthesize answers a body whose
    [text] is empty or longer than 500 characters with HTTP 400 and a
    non-empty list of validation issues, and does nothing else:
    [synthesizeSpeech] is not entered.  Whenever the body passes the
    schema its text has 1 to 500 characters, so [synthesizeSpeech] sends
    it untruncated: the 600-character cut is out of reach from here. *)
Theorem C9_voice_synthesize_rejects_bad_text (E : Env) (body : value) (w : World) :
  (forall text,
     Val.prop body "text" = inr (JStr text) ->
     text = "" \/ (500 < String.length text)%nat ->
     exists issues,
       issues <> [] /\
       Api.voice_synthesize E body w =
         (inr tt, log (Respond (mkRes 400 None (Invalid issues))) w) /\
       entered (added w (snd (Api.voice_synthesize E body w))) = []) /\
  (forall text persona,
     Api.safeParse body = inr (text, persona) ->
     (1 <= String.length text <= 500)%nat /\
     VoiceService.truncatedText text = text) /\
  match Api.safeParse body with
  | inl issues =>
      Api.voice_synthesize E body w =
        (inr tt, log (Respond (mkRes 400 None (Invalid issues))) w)
  | inr (text, persona) =>
      exists r : HttpResponse,
        Api.voice_synthesize E body w =
          (inr tt,
           log (Respond r) (snd (VoiceService.synthesizeSpeech E text persona None w)))
  end.
Proof.
  split; [|split].
  - intros text Ht Hbad.
    destruct (Api.safeParse body) as [issues|[text' persona]] eqn:Hp.
    + exists issues. split; [eapply safeParse_inl; eassumption|].
      unfold Api.voice_synthesize, try_catch. rewrite Hp.
      split; [reflexivity|].
      cbn [snd Slack.res_send emit modify].
      rewrite (added_app w _ [Respond (mkRes 400 None (Invalid issues))]); reflexivity.
    + exfalso. apply safeParse_inr in Hp. destruct Hp as [Hp Hlen].
      rewrite Ht in Hp. inversion Hp; subst.
      destruct Hbad as [-> | Hbad]; cbn in *; lia.
  - intros text persona Hp. apply safeParse_inr in Hp. destruct Hp as [_ Hlen].
    split; [exact Hlen|]. apply truncatedText_short. lia.
  - destruct (Api.safeParse body) as [issues|[text persona]] eqn:Hp;
      unfold Api.voice_synthesize, try_catch, bind; rewrite Hp; [reflexivity|].
    destruct (synthesizeSpeech_resolves E text persona None w) as [r Hr].
    destruct (VoiceService.synthesizeSpeech E text persona None w) as [o w1].
    cbn [fst snd] in *. subst o.
    destruct r; eexists; reflexivity.
Qed.

(* ===================================================================== *)
(** * Rounding to doubles                                                 *)
(* ===================================================================== *)

Section Integers.

Local Open Scope Z_scope.


Lemma up_pos k : 0 < Double.up k.
Proof. unfold Double.up. apply Z.pow_pos_nonneg; lia. Qed.

Lemma up_nonneg k : 0 <= k -> Double.up k = 2 ^ k.
Proof. intros H. unfold Double.up. rewrite Z.max_r by lia. reflexivity. Qed.

Lemma up_neg k : k <= 0 -> Double.up k = 1.
Proof. intros H. unfold Double.up. rewrite Z.max_l by lia. reflexivity. Qed.

(** [2 ^ k <= p / q], in integers. *)
Definition reaches (k p q : Z) : Prop := q * Double.up k <= p * Double.up (- k).

Lemma reaches_shift k p q :
  0 < q -> reaches k p q -> 2 ^ 52 * (q * Double.up (k - 52)) <= p * Double.up (- (k - 52)).
Proof.
  unfold reaches. intros Hq H.
  destruct (Z_lt_le_dec k 0) as [Hk|Hk]; [|destruct (Z_lt_le_dec k 52) as [Hk'|Hk']].
  - rewrite (up_neg k), (up_nonneg (- k)) in H by lia.
    rewrite (up_neg (k - 52)), (up_nonneg (- (k - 52))) by lia.
    replace (- (k - 52)) with (- k + 52) by lia. rewrite Z.pow_add_r by lia. nia.
  - rewrite (up_nonneg k), (up_neg (- k)) in H by lia.
    rewrite (up_neg (k - 52)), (up_nonneg (- (k - 52))) by lia.
    replace 52 with (k + - (k - 52)) at 1 by lia. rewrite Z.pow_add_r by lia.
    assert (0 < 2 ^ (- (k - 52))) by (apply Z.pow_pos_nonneg; lia). nia.
  - rewrite (up_nonneg k), (up_neg (- k)) in H by lia.
    rewrite (up_nonneg (k - 52)), (up_neg (- (k - 52))) by lia.
    replace k with (52 + (k - 52)) in H at 1 by lia. rewrite Z.pow_add_r in H by lia. nia.
Qed.

Lemma exponent_reaches p q :
  0 < p -> 0 < q -> reaches (Double.exponent p q) p q.
Proof.
  intros Hp Hq. unfold Double.exponent, reaches.
  set (l := Z.log2 p - Z.log2 q).
  destruct (Z.leb_spec (q * Double.up l) (p * Double.up (- l))) as [H|H]; [exact H|].
  destruct (Z.log2_spec p Hp) as [Hlp _]. destruct (Z.log2_spec q Hq) as [_ Hlq].
  assert (H0p := Z.log2_nonneg p). assert (H0q := Z.log2_nonneg q).
  destruct (Z_lt_le_dec (l - 1) 0) as [Hk|Hk].
  - rewrite (up_neg (l - 1)), (up_nonneg (- (l - 1))) by lia.
    replace (Z.succ (Z.log2 q)) with (Z.log2 p + - (l - 1)) in Hlq by (subst l; lia).
    rewrite Z.pow_add_r in Hlq by lia.
    assert (0 < 2 ^ (- (l - 1))) by (apply Z.pow_pos_nonneg; lia). nia.
  - rewrite (up_nonneg (l - 1)), (up_neg (- (l - 1))) by lia.
    replace (Z.log2 p) with (Z.succ (Z.log2 q) + (l - 1)) in Hlp by (subst l; lia).
    rewrite Z.pow_add_r in Hlp by lia.
    assert (0 < 2 ^ (l - 1)) by (apply Z.pow_pos_nonneg; lia). nia.
Qed.

Lemma nearest_even_spec num den :
  0 < den ->
  - den <= 2 * (Double.nearest_even num den * den - num) <= den.
Proof.
  intros Hd. unfold Double.nearest_even.
  assert (Hdm := Z.div_mod num den ltac:(lia)).
  assert (Hr := Z.mod_pos_bound num den Hd).
  destruct (Z.ltb_spec (2 * (num mod den)) den); [nia|].
  destruct (Z.ltb_spec den (2 * (num mod den))); [nia|].
  destruct (Z.even (num / den)); nia.
Qed.

Lemma round_error x :
  (Qabs (Double.round x - x) * inject_Z (2 ^ 53) <= Qabs x)%Q.
Proof.
  assert (Hx := Qred_correct x). unfold Double.round. cbv zeta.
  set (x' := Qred x) in *. clearbody x'. rewrite <- Hx. clear Hx x.
  destruct x' as [P q]. cbn [Qnum Qden].
  destruct (Z.eqb_spec (Z.abs P) 0) as [H0|H0].
  { assert (P = 0) by lia. subst P.
    unfold Qle, Qabs, Qminus, Qplus, Qopp, Qmult, inject_Z. cbn. lia. }
  set (p := Z.abs P) in *.
  assert (Hpp : p = Z.abs P) by reflexivity. clearbody p.
  assert (Hp : 0 < p) by lia.
  assert (Hq : 0 < Zpos q) by lia.
  set (e := Double.exponent p (Zpos q) - 52).
  assert (Hlow := reaches_shift _ _ _ Hq (exponent_reaches p (Zpos q) Hp Hq)).
  fold e in Hlow.
  set (num := p * Double.up (- e)) in *. set (den := Zpos q * Double.up e) in *.
  assert (Hden : 0 < den) by (subst den; assert (H := up_pos e); nia).
  assert (Hn := nearest_even_spec num den Hden).
  set (s := Double.nearest_even num den) in *. clearbody s.
  assert (HU := up_pos e). assert (HV := up_pos (- e)).
  set (U := Double.up e) in *. set (V := Double.up (- e)) in *.
  clearbody U V. clear e.
  unfold Qle, Qabs, Qminus, Qplus, Qopp, Qmult, inject_Z. cbn [Qnum Qden].
  rewrite !Pos2Z.inj_mul, Z2Pos.id by exact HV.
  subst num den.
  assert (Hpow : 0 < 2 ^ 53) by reflexivity.
  assert (H52 : 2 ^ 53 = 2 * 2 ^ 52) by reflexivity.
  set (c := 2 ^ 52) in *. rewrite H52.
  assert (Hc : 0 < c) by reflexivity. clearbody c. clear H52 Hpow.
  assert (Hkey : forall D, - (Zpos q * U) <= 2 * D <= Zpos q * U ->
                           Z.abs D * (2 * c) * Zpos q <= p * (V * Zpos q * 1)).
  { intros D HD.
    assert (H1 : Z.abs D * 2 <= Zpos q * U) by lia.
    assert (H2 : Z.abs D * 2 * c <= Zpos q * U * c) by (apply Z.mul_le_mono_nonneg_r; lia).
    assert (H3 : Z.abs D * 2 * c <= p * V) by lia.
    assert (H4 : Z.abs D * 2 * c * Zpos q <= p * V * Zpos q)
      by (apply Z.mul_le_mono_nonneg_r; lia).
    lia. }
  destruct (Z.sgn_spec P) as [(HP & ->)|[(HP & ->)|(HP & ->)]]; [|lia|].
  - assert (HPp : P = p) by lia. rewrite HPp.
    rewrite (Z.abs_eq p) by lia. apply Hkey. lia.
  - assert (HPp : P = - p) by lia. rewrite HPp.
    rewrite (Z.abs_neq (- p)) by lia.
    match goal with
    | |- Z.abs ?D * _ * _ <= _ =>
        replace D with (- (s * (Zpos q * U) - p * V)) by ring
    end.
    rewrite Z.abs_opp, Z.opp_involutive. apply Hkey. lia.
Qed.

Lemma round_wd x y : (x == y)%Q -> Double.round x = Double.round y.
Proof. intros H. unfold Double.round. rewrite (Qred_complete x y H). reflexivity. Qed.

Lemma nearest_even_whole num : Double.nearest_even num 1 = num.
Proof.
  unfold Double.nearest_even. rewrite Z.mod_1_r, Z.div_1_r. reflexivity.
Qed.

(** Integers below [2 ^ 53] in magnitude are doubles. *)
Lemma round_integer z :
  Z.abs z < 2 ^ 53 -> (Double.round (inject_Z z) == inject_Z z)%Q.
Proof.
  intros Hz. unfold Double.round. cbv zeta.
  rewrite (Qcanon.Qred_identity (inject_Z z)) by (cbn; apply Z.gcd_1_r).
  cbn [inject_Z Qnum Qden].
  destruct (Z.eqb_spec (Z.abs z) 0) as [H0|H0].
  { assert (z = 0) by lia. subst z. reflexivity. }
  set (p := Z.abs z) in *. assert (Hp : 0 < p) by lia.
  assert (Hm : Double.exponent p 1 = Z.log2 p).
  { unfold Double.exponent. cbn [Z.log2]. rewrite Z.sub_0_r.
    assert (Hl := Z.log2_nonneg p).
    rewrite (up_nonneg (Z.log2 p)), (up_neg (- Z.log2 p)) by lia.
    destruct (Z.log2_spec p Hp) as [Hlow _].
    destruct (Z.leb_spec (1 * 2 ^ Z.log2 p) (p * 1)); [reflexivity|lia]. }
  rewrite Hm.
  assert (Hl : 0 <= Z.log2 p < 53).
  { split; [apply Z.log2_nonneg|]. apply Z.log2_lt_pow2; lia. }
  rewrite (up_neg (Z.log2 p - 52)) by lia.
  rewrite Z.mul_1_r, nearest_even_whole.
  assert (HV := up_pos (- (Z.log2 p - 52))).
  set (V := Double.up (- (Z.log2 p - 52))) in *. clearbody V.
  unfold Qeq. cbn [Qnum Qden]. rewrite Z2Pos.id by exact HV.
  assert (Hs : Z.sgn z * p = z) by (subst p; lia).
  cbn [inject_Z Qnum Qden]. rewrite Z.mul_1_r, Z.mul_assoc, Hs. reflexivity.
Qed.

End Integers.

Section Rationals.

Local Open Scope Q_scope.

Lemma round_between x :
  x - Qabs x * (1 # 9007199254740992) <= Double.round x <=
  x + Qabs x * (1 # 9007199254740992).
Proof.
  assert (H := round_error x).
  assert (Hc : inject_Z (2 ^ 53) == 9007199254740992) by reflexivity.
  rewrite Hc in H.
  assert (H' : Qabs (Double.round x - x) <= Qabs x * (1 # 9007199254740992)).
  { assert (Ha := Qabs_nonneg (Double.round x - x)). assert (Hb := Qabs_nonneg x).
    set (u := Qabs (Double.round x - x)) in *. set (v := Qabs x) in *.
    clearbody u v. lra. }
  apply Qabs_Qle_condition in H'. lra.
Qed.

(** The date range of ECMAScript: a time value is at most 8.64e15 ms
    from the epoch. *)
Definition time_value (t : Z) : Prop := (Z.abs t <= 8640000000000000)%Z.

(** The two roundings of line 538 move the difference by less than a
    millisecond. *)
Lemma window_rounding (now_ms : Z) (q : Q) :
  time_value now_ms ->
  let exact := inject_Z now_ms / 1000 - q in
  let computed := Double.round (Double.round (inject_Z now_ms / 1000) - q) in
  Qabs (computed - exact) <=
    (96 # 100000) + Qabs exact * (2 # 9007199254740992).
Proof.
  intros Hrange. cbv zeta. unfold time_value in Hrange.
  set (A := inject_Z now_ms / 1000).
  assert (HA : Qabs A <= 8640000000000).
  { apply Qabs_Qle_condition. subst A. unfold Qle, Qdiv, Qmult, Qinv, Qopp, inject_Z.
    cbn. lia. }
  assert (Ha := round_between A).
  set (a := Double.round A) in *.
  assert (Hy := round_between (a - q)).
  set (R := Double.round (a - q)) in *.
  assert (HA0 := Qabs_nonneg A).
  assert (Hy0 := Qabs_nonneg (a - q)).
  assert (He0 := Qabs_nonneg (A - q)).
  assert (Hyabs : Qabs (a - q) <= Qabs (A - q) + Qabs A * (1 # 9007199254740992)).
  { apply Qabs_Qle_condition.
    assert (H1 := Qle_Qabs (A - q)). assert (H2 := Qle_Qabs (- (A - q))).
    rewrite Qabs_opp in H2.
    clearbody A a. set (v := Qabs A) in *. set (u := Qabs (A - q)) in *.
    clearbody u v. lra. }
  apply Qabs_Qle_condition.
  clearbody A a R. set (v := Qabs A) in *. set (u := Qabs (A - q)) in *.
  set (y := Qabs (a - q)) in *. clearbody u v y. lra.
Qed.

(** More than five minutes and a millisecond away is outside the window
    as line 538 computes it. *)
Lemma window_far (now_ms : Z) (q : Q) :
  time_value now_ms ->
  300001 <= Qabs (inject_Z now_ms - 1000 * q) ->
  Slack.outside_window now_ms (Fin q) = true.
Proof.
  intros Hrange Hfar. cbn [Slack.outside_window].
  assert (Hr := window_rounding now_ms q Hrange). cbv zeta in Hr.
  set (exact := inject_Z now_ms / 1000 - q) in *.
  set (R := Double.round (Double.round (inject_Z now_ms / 1000) - q)) in *.
  assert (He : inject_Z now_ms - 1000 * q == 1000 * exact) by (subst exact; field).
  rewrite He, Qabs_Qmult in Hfar. change (Qabs 1000) with 1000 in Hfar.
  apply negb_true_iff. destruct (Qle_bool (Qabs R) (60 * 5)) eqn:Hle; [|reflexivity].
  exfalso. apply Qle_bool_iff in Hle.
  assert (Htri : Qabs exact <= Qabs R + Qabs (R - exact)).
  { assert (H := Qabs_triangle R (exact - R)).
    assert (Hs : R + (exact - R) == exact) by ring. rewrite Hs in H.
    assert (Ho : Qabs (exact - R) == Qabs (R - exact)).
    { rewrite <- (Qabs_opp (exact - R)). apply Qabs_wd. ring. }
    rewrite Ho in H. exact H. }
  clearbody R exact. set (u := Qabs exact) in *. set (r := Qabs R) in *.
  set (d := Qabs (R - exact)) in *. clearbody u r d.
  change (60 * 5) with 300 in Hle. lra.
Qed.

(** On a timestamp of whole seconds the doubles of line 538 decide as
    the integers do. *)
Lemma window_whole_seconds (now_ms n : Z) :
  time_value now_ms ->
  Slack.outside_window now_ms (Fin (inject_Z n)) =
    (300000 <? Z.abs (now_ms - 1000 * n))%Z.
Proof.
  intros Hrange.
  assert (Hd : inject_Z now_ms - 1000 * inject_Z n == inject_Z (now_ms - 1000 * n)).
  { unfold Z.sub. rewrite inject_Z_plus, inject_Z_opp, inject_Z_mult. ring. }
  set (D := (now_ms - 1000 * n)%Z) in *.
  destruct (Z.ltb_spec 300000 (Z.abs D)) as [Hout|Hin].
  { apply window_far; [exact Hrange|]. rewrite Hd.
    assert (Hi : Qabs (inject_Z D) == inject_Z (Z.abs D)) by reflexivity.
    rewrite Hi. change 300001 with (inject_Z 300001). rewrite <- Zle_Qle. lia. }
  cbn [Slack.outside_window]. apply negb_false_iff. apply Qle_bool_iff.
  destruct (Z.eq_dec (Z.abs D) 300000) as [Hedge|Hne].
  - (* on the edge the arithmetic is exact *)
    unfold time_value in Hrange.
    set (k := (D / 1000)%Z).
    assert (Hk : (D = 1000 * k /\ (k = 300 \/ k = -300))%Z).
    { assert (D = 300000 \/ D = -300000)%Z as [HD|HD] by lia; subst k; rewrite HD;
        (split; [reflexivity|]); [left|right]; reflexivity. }
    destruct Hk as [HDk Hk].
    assert (Hnow : (now_ms = 1000 * (n + k))%Z) by (subst D; lia).
    assert (HAk : inject_Z now_ms / 1000 == inject_Z (n + k)).
    { rewrite Hnow at 1. rewrite inject_Z_mult.
      change (inject_Z 1000) with 1000. field. }
    assert (Hak : Double.round (inject_Z now_ms / 1000) == inject_Z (n + k)).
    { rewrite (round_wd _ _ HAk). apply round_integer.
      assert (2 ^ 53 = 9007199254740992)%Z by reflexivity. lia. }
    assert (Hyk : Double.round (inject_Z now_ms / 1000) - inject_Z n == inject_Z k).
    { rewrite Hak, inject_Z_plus. ring. }
    rewrite (round_wd _ _ Hyk).
    assert (HRk : Double.round (inject_Z k) == inject_Z k).
    { apply round_integer. assert (2 ^ 53 = 9007199254740992)%Z by reflexivity. lia. }
    rewrite HRk. destruct Hk as [-> | ->]; apply Qabs_Qle_condition; split; compute;
      discriminate.
  - assert (Hr := window_rounding now_ms (inject_Z n) Hrange). cbv zeta in Hr.
    set (exact := inject_Z now_ms / 1000 - inject_Z n) in *.
    set (R := Double.round (Double.round (inject_Z now_ms / 1000) - inject_Z n)) in *.
    assert (He : 1000 * exact == inject_Z D).
    { rewrite <- Hd. subst exact. field. }
    assert (Hex : Qabs exact <= 299999 # 1000).
    { assert (H1 : Qabs (1000 * exact) == inject_Z (Z.abs D)).
      { rewrite He. reflexivity. }
      rewrite Qabs_Qmult in H1. change (Qabs 1000) with 1000 in H1.
      assert (H2 : inject_Z (Z.abs D) <= inject_Z 299999) by (rewrite <- Zle_Qle; lia).
      change (inject_Z 299999) with 299999 in H2.
      set (u := Qabs exact) in *. set (z := inject_Z (Z.abs D)) in *.
      clearbody u z. lra. }
    assert (Htri : Qabs R <= Qabs exact + Qabs (R - exact)).
    { assert (H := Qabs_triangle exact (R - exact)).
      assert (Hs : exact + (R - exact) == R) by ring. rewrite Hs in H. exact H. }
    clearbody R exact. set (u := Qabs exact) in *. set (r := Qabs R) in *.
    set (d := Qabs (R - exact)) in *. clearbody u r d.
    change (60 * 5) with 300. lra.
Qed.

End Rationals.

(** A timestamp a tenth of a microsecond past the edge of the window is
    inside it as the doubles have it: the quotient 1700000000.001 and the
    double of 1699999700.0009999 are exactly 300 apart. *)
Example window_at_the_edge :
  Slack.outside_window 1700000000001
    (Fin (Double.round (16999997000009999 # 10000000))) = false.
Proof. vm_compute. reflexivity. Qed.

(* ===================================================================== *)
(** * Slack routes                                                        *)
(* ===================================================================== *)

(** The challenge the bare endpoint echoes: a non-empty string. *)
Definition echoed_challenge (body : value) : option string :=
  match Val.prop body "challenge" with
  | inr (JStr c) => if (c =? "")%string then None else Some c
  | _ => None
  end.

Section SlackProperties.

Variable E : Env.
Variables handleChatCommand handlePersonasCommand : value -> M unit.
Variables handleInteractivePayload handleSlackEvent : value -> M unit.

Let post := Slack.post E handleChatCommand handlePersonasCommand
                       handleInteractivePayload handleSlackEvent.

(** C2. A POST to /slack whose body has type "url_verification" is
    answered, whatever the signing secret (set or not) and whatever the
    other handlers are, with HTTP 200, content type text/plain and the
    challenge as body when the challenge is a non-empty string, and with
    HTTP 400 when it is absent, empty or not a string; nothing else
    happens. *)
Theorem C2_slack_url_verification (req : Slack.Request) (w : World) :
  Val.prop (Slack.req_body req) "type" = inr (JStr "url_verification") ->
  post "/slack" req w =
    (inr Slack.Handled,
     log (Respond
            match echoed_challenge (Slack.req_body req) with
            | Some c => mkRes 200 (Some "text/plain"%string) (Text c)
            | None => mkRes 400 (Some "text/plain"%string) (Text "missing_challenge")
            end) w).
Proof.
  intros Ht. subst post.
  unfold Slack.post, Slack.registerSlackRoutes. cbn [Val.lookup String.eqb Ascii.eqb Bool.eqb].
  unfold Slack.slack_root, echoed_challenge.
  destruct (Slack.req_body req) as [| |bv|q|s|l|fields] eqn:Hb; try discriminate Ht.
  cbn [Val.truthy]. cbn [Val.prop] in *.
  destruct (Val.lookup fields "type") as [ty|]; [|discriminate Ht].
  inversion Ht; subst ty. clear Ht.
  cbv [bind Val.lift ret].
  cbn [Slack.str_eq].
  replace ("url_verification" =? "url_verification")%string with true by reflexivity.
  destruct (Val.lookup fields "event") as [ev|];
    destruct (Val.lookup fields "challenge") as [[| |bv|q|c|l|fs]|];
    try reflexivity; destruct c as [|a c]; reflexivity.
Qed.

End SlackProperties.

(** ** The signature check *)

Lemma bytes_eqb_eq a b : Slack.bytes_eqb a b = true -> a = b.
Proof.
  revert b. induction a as [|x a IH]; intros [|y b]; cbn; try discriminate; auto.
  intros H. apply andb_true_iff in H. destruct H as [Hx Hab].
  apply Byte.byte_dec_bl in Hx. subst. f_equal. auto.
Qed.

(** A decoder for the encoding of [Buffer.from] on Latin-1 strings. *)
Fixpoint utf8_decode (l : list byte) : string :=
  match l with
  | [] => EmptyString
  | b :: rest =>
      let n := Byte.to_N b in
      if (n <? 128)%N then String (ascii_of_byte b) (utf8_decode rest)
      else
        match rest with
        | [] => EmptyString
        | b2 :: rest' =>
            String (ascii_of_N ((n - 192) * 64 + (Byte.to_N b2 - 128)))
                   (utf8_decode rest')
        end
  end.

Lemma utf8_decode_unit c rest :
  utf8_decode (JS.utf8_unit c ++ rest) = String c (utf8_decode rest).
Proof.
  destruct c as [[] [] [] [] [] [] [] []]; reflexivity.
Qed.

Lemma utf8_decode_encode s : utf8_decode (JS.Buffer_from s) = s.
Proof.
  induction s as [|c s IH]; [reflexivity|].
  cbn [JS.Buffer_from]. rewrite utf8_decode_unit, IH. reflexivity.
Qed.

(** [Buffer.from] maps different strings to different bytes. *)
Lemma Buffer_from_inj s1 s2 : JS.Buffer_from s1 = JS.Buffer_from s2 -> s1 = s2.
Proof.
  intros H. rewrite <- (utf8_decode_encode s1), <- (utf8_decode_encode s2), H.
  reflexivity.
Qed.

(** The signature Slack would have sent: "v0=" and the hex HMAC-SHA256
    of "v0:<timestamp>:<rawBody>" under the signing secret. *)
Definition expected_signature (E : Env) (timestamp : string) (rawBody : option string)
  : string :=
  ("v0=" ++ hmac_sha256_hex E (SLACK_SIGNING_SECRET E)
                            ("v0:" ++ timestamp ++ ":" ++
                             match rawBody with Some b => b | None => "undefined" end))%string.

Definition absent (header : option string) : Prop :=
  header = None \/ header = Some ""%string.

(** A timestamp too far from the clock, by the measure of the
    specification and not by the program's arithmetic: at least five
    minutes and one millisecond away.  Every timestamp of whole seconds,
    as Slack's are, that is more than five minutes away is that far; an
    infinite one is as far. *)
Definition stale (E : Env) (timestamp : string) (w : World) : Prop :=
  Number E timestamp = PosInf \/ Number E timestamp = NegInf \/
  exists q : Q,
    Number E timestamp = Fin q /\
    (inject_Z (5 * 60 * 1000 + 1) <= Qabs (inject_Z (now w) - 1000 * q))%Q.

(** A request Slack did not sign: a header is absent, or the timestamp
    is stale, or the signature is not the expected one. *)
Definition unsigned (E : Env) (req : Slack.Request) (w : World) : Prop :=
  absent (Slack.x_slack_timestamp req) \/
  absent (Slack.x_slack_signature req) \/
  exists timestamp signature,
    Slack.x_slack_timestamp req = Some timestamp /\
    Slack.x_slack_signature req = Some signature /\
    (stale E timestamp w \/
     signature <> expected_signature E timestamp (Slack.rawBody req)).

(** Among them, the requests answered 401: of those with a wrong
    signature, the ones where it has the length of the expected one. *)
Definition rejected (E : Env) (req : Slack.Request) (w : World) : Prop :=
  absent (Slack.x_slack_timestamp req) \/
  absent (Slack.x_slack_signature req) \/
  exists timestamp signature,
    Slack.x_slack_timestamp req = Some timestamp /\
    Slack.x_slack_signature req = Some signature /\
    (stale E timestamp w \/
     (signature <> expected_signature E timestamp (Slack.rawBody req) /\
      List.length (JS.Buffer_from signature) =
        List.length (JS.Buffer_from (expected_signature E timestamp (Slack.rawBody req))))).

Definition unauthorized : HttpResponse := mkRes 401 None (Text "Invalid signature").

Lemma stale_outside E timestamp w :
  time_value (now w) -> stale E timestamp w ->
  Slack.outside_window (now w) (Number E timestamp) = true.
Proof.
  intros Hrange [-> | [-> | (q & -> & Hfar)]]; [reflexivity|reflexivity|].
  apply window_far; assumption.
Qed.

(** At the start of a request nothing was written to its response. *)
Lemma headersSent_fresh w : Slack.headersSent (List.length (trace w)) w = false.
Proof. unfold Slack.headersSent. rewrite skipn_all. reflexivity. Qed.

Lemma res_send_again_fresh w st ty b :
  Slack.res_send_again (List.length (trace w)) st ty b w =
    (inr tt, log (Respond (mkRes st ty b)) w).
Proof.
  unfold Slack.res_send_again. cbv [bind gets]. rewrite headersSent_fresh. reflexivity.
Qed.

Section Webhook.

Variable E : Env.
Variables handleChatCommand handlePersonasCommand : value -> M unit.
Variables handleInteractivePayload handleSlackEvent : value -> M unit.

Let post := Slack.post E handleChatCommand handlePersonasCommand
                       handleInteractivePayload handleSlackEvent.

Lemma verify_rejects req w :
  time_value (now w) ->
  rejected E req w ->
  Slack.verifySlackSignature E (Slack.rawBody req) (Slack.x_slack_timestamp req)
                             (Slack.x_slack_signature req) w = (inr false, w).
Proof.
  unfold Slack.verifySlackSignature.
  intros Hrange [[Ht|Ht] | [[Hs|Hs] | (ts & sig & Ht & Hs & H)]]; rewrite ?Ht, ?Hs.
  - reflexivity.
  - destruct (Slack.x_slack_signature req); [|reflexivity].
    rewrite orb_true_r. reflexivity.
  - destruct (Slack.x_slack_timestamp req); reflexivity.
  - destruct (Slack.x_slack_timestamp req); [|reflexivity].
    rewrite !orb_true_r. reflexivity.
  - destruct (_ || _ || _); [reflexivity|].
    cbv [bind Date_now gets].
    destruct H as [H | [Hne Hlen]];
      [rewrite (stale_outside E ts w Hrange H); reflexivity|].
    destruct (Slack.outside_window (now w) (Number E ts)); [reflexivity|].
    fold (expected_signature E ts (Slack.rawBody req)).
    unfold Slack.timingSafeEqual.
    rewrite Hlen, Nat.eqb_refl. unfold ret. f_equal. f_equal.
    destruct (Slack.bytes_eqb _ _) eqn:Heq; [|reflexivity].
    apply bytes_eqb_eq, Buffer_from_inj in Heq. congruence.
Qed.

(** The check never passes an unsigned request: it returns false or
    throws, and leaves the world as it was. *)
Lemma verify_unsigned req w :
  time_value (now w) ->
  unsigned E req w ->
  exists r,
    Slack.verifySlackSignature E (Slack.rawBody req) (Slack.x_slack_timestamp req)
                               (Slack.x_slack_signature req) w = (r, w) /\
    r <> inr true.
Proof.
  unfold Slack.verifySlackSignature.
  intros Hrange [[Ht|Ht] | [[Hs|Hs] | (ts & sig & Ht & Hs & H)]]; rewrite ?Ht, ?Hs.
  - eexists. split; [reflexivity|discriminate].
  - destruct (Slack.x_slack_signature req);
      [rewrite orb_true_r|]; eexists; (split; [reflexivity|discriminate]).
  - destruct (Slack.x_slack_timestamp req); eexists; (split; [reflexivity|discriminate]).
  - destruct (Slack.x_slack_timestamp req);
      [rewrite !orb_true_r|]; eexists; (split; [reflexivity|discriminate]).
  - destruct (_ || _ || _); [eexists; split; [reflexivity|discriminate]|].
    cbv [bind Date_now gets].
    destruct H as [H | Hne];
      [rewrite (stale_outside E ts w Hrange H); eexists;
       split; [reflexivity|discriminate]|].
    destruct (Slack.outside_window (now w) (Number E ts));
      [eexists; split; [reflexivity|discriminate]|].
    fold (expected_signature E ts (Slack.rawBody req)).
    unfold Slack.timingSafeEqual.
    destruct (Nat.eqb _ _); [|eexists; split; [reflexivity|discriminate]].
    destruct (Slack.bytes_eqb _ _) eqn:Heq;
      [|eexists; split; [reflexivity|discriminate]].
    apply bytes_eqb_eq, Buffer_from_inj in Heq. congruence.
Qed.

Lemma webhook_route_registered :
  SLACK_SIGNING_SECRET E <> ""%string ->
  forall req,
    post "/slack/webhook" req =
    bind (Slack.webhook E handleChatCommand handlePersonasCommand
                        handleInteractivePayload req)
         (fun _ => ret Slack.Handled).
Proof.
  intros Hs req. subst post. unfold Slack.post, Slack.registerSlackRoutes.
  apply String.eqb_neq in Hs. rewrite Hs. reflexivity.
Qed.

(** C1, as the code has it.  With a signing secret configured and the
    clock a time value of [Date], a POST to /slack/webhook that Slack did
    not sign (the timestamp or the signature header is absent or empty;
    or the timestamp is more than five minutes from the clock, by at
    least a millisecond, as every timestamp of whole seconds more than
    five minutes away is; or the signature differs from "v0=" followed
    by the hex HMAC-SHA256 of "v0:<timestamp>:<rawBody>") enters no
    handler and makes no outbound call.  It is answered 401, and the
    answer is all that happens, when a header is absent or empty, when
    the timestamp is that far off, or when the differing signature has
    as many bytes as the expected one.  With no signing secret the route
    does not exist: the request is not handled here at all, and again
    nothing happens ([verifySlackSignature] itself would return false,
    but no route calls it). *)
Theorem C1_webhook_rejects_unsigned (req : Slack.Request) (w : World) :
  (SLACK_SIGNING_SECRET E <> ""%string ->
   time_value (now w) ->
   (unsigned E req w ->
    entered (added w (snd (post "/slack/webhook" req w))) = [] /\
    calls (added w (snd (post "/slack/webhook" req w))) = []) /\
   (rejected E req w ->
    post "/slack/webhook" req w = (inr Slack.Handled, log (Respond unauthorized) w))) /\
  (SLACK_SIGNING_SECRET E = ""%string ->
   post "/slack/webhook" req w = (inr Slack.NotRegistered, w) /\
   Slack.verifySlackSignature E (Slack.rawBody req) (Slack.x_slack_timestamp req)
                              (Slack.x_slack_signature req) w = (inr false, w)).
Proof.
  split.
  - intros Hs Hrange. split.
    + intros Hu.
      assert (Hrun : exists r, snd (post "/slack/webhook" req w) = log (Respond r) w).
      { rewrite webhook_route_registered by exact Hs.
        unfold Slack.webhook. cbv [bind try_catch gets].
        destruct (verify_unsigned req w Hrange Hu) as (r & -> & Hr).
        destruct r as [e|[|]]; [|contradiction|].
        - rewrite res_send_again_fresh. eexists. reflexivity.
        - eexists. reflexivity. }
      destruct Hrun as [r ->].
      rewrite (added_app w _ [Respond r]) by reflexivity.
      split; reflexivity.
    + intros Hr.
      rewrite webhook_route_registered by exact Hs.
      unfold Slack.webhook. cbv [bind try_catch gets].
      rewrite (verify_rejects req w Hrange Hr). reflexivity.
  - intros Hs. split.
    + subst post. unfold Slack.post, Slack.registerSlackRoutes.
      rewrite Hs. reflexivity.
    + unfold Slack.verifySlackSignature. rewrite Hs.
      destruct (Slack.x_slack_timestamp req); [|reflexivity].
      destruct (Slack.x_slack_signature req); reflexivity.
Qed.

(** Past the window and header checks, a signature whose byte length is
    not that of the expected one makes [crypto.timingSafeEqual] throw;
    the route's [catch] answers 500. *)
Lemma webhook_signature_length_mismatch req w timestamp signature :
  SLACK_SIGNING_SECRET E <> ""%string ->
  Slack.x_slack_timestamp req = Some timestamp -> timestamp <> ""%string ->
  Slack.x_slack_signature req = Some signature -> signature <> ""%string ->
  Slack.outside_window (now w) (Number E timestamp) = false ->
  List.length (JS.Buffer_from signature) <>
    List.length (JS.Buffer_from (expected_signature E timestamp (Slack.rawBody req))) ->
  post "/slack/webhook" req w =
    (inr Slack.Handled, log (Respond (mkRes 500 None (Text "Internal error"))) w).
Proof.
  intros Hs Ht Ht0 Hg Hg0 Hw Hlen.
  rewrite webhook_route_registered by exact Hs.
  unfold Slack.webhook, Slack.verifySlackSignature. cbv [bind try_catch gets].
  rewrite Ht, Hg.
  apply String.eqb_neq in Hs, Ht0, Hg0. rewrite Hs, Ht0, Hg0. cbn [orb].
  cbv [bind Date_now gets]. rewrite Hw.
  fold (expected_signature E timestamp (Slack.rawBody req)).
  unfold Slack.timingSafeEqual.
  destruct (Nat.eqb_spec (List.length (JS.Buffer_from (expected_signature E timestamp (Slack.rawBody req))))
                         (List.length (JS.Buffer_from signature))); [congruence|].
  cbv [throw]. rewrite res_send_again_fresh. reflexivity.
Qed.

End Webhook.

(** C1 as stated fails: with no signing secret configured the webhook
    route is never registered, so the unsigned request is not answered
    401: it is not answered by these routes at all. *)
Lemma C1_counterexample_no_secret :
  let E := Sample.without_signing_secret Sample.serving in
  let run := Slack.post E Sample.idle Sample.idle Sample.idle Sample.idle
                        "/slack/webhook" (Sample.debate_request None None) Sample.boot in
  SLACK_SIGNING_SECRET E = ""%string /\
  run = (inr Slack.NotRegistered, Sample.boot) /\
  responses (added Sample.boot (snd run)) = [].
Proof.
  cbv zeta. split; [reflexivity|]. split; reflexivity.
Qed.

(* ===================================================================== *)
(** * The debate generator and the /debate command                        *)
(* ===================================================================== *)

(** Every turn synthesized in order, whatever each one resolves to: the
    results, and the world after the last. *)
Fixpoint synthesize_all (E : Env) (turns : list Debate.DebateTurn) (w : World)
  : list VoiceService.SynthResult * World :=
  match turns with
  | [] => ([], w)
  | turn :: rest =>
      let run := VoiceService.synthesizeSpeech E (Debate.text turn)
                                               (Some (Debate.speaker turn)) None w in
      let more := synthesize_all E rest (snd run) in
      (match fst run with
       | inr r => r :: fst more
       | inl _ => fst more
       end, snd more)
  end.

(** The audio among some results, in their order. *)
Definition audio_of (results : list VoiceService.SynthResult) : list Buffer :=
  flat_map (fun r => match r with
                     | VoiceService.Audio b => [b]
                     | VoiceService.Fallback _ _ _ => []
                     end) results.

Lemma synthesize_all_length E turns w :
  List.length (fst (synthesize_all E turns w)) = List.length turns.
Proof.
  revert w. induction turns as [|turn rest IH]; intros w; [reflexivity|].
  cbn [synthesize_all fst].
  destruct (synthesizeSpeech_resolves E (Debate.text turn) (Some (Debate.speaker turn))
              None w) as [r Hr].
  rewrite Hr. cbn [List.length]. rewrite IH. reflexivity.
Qed.

Lemma synthTurns_run E turns : forall buffers w,
  Debate.synthTurns E buffers turns w =
    (inr (buffers ++ audio_of (fst (synthesize_all E turns w))),
     snd (synthesize_all E turns w)).
Proof.
  induction turns as [|turn rest IH]; intros buffers w.
  - cbn. rewrite app_nil_r. reflexivity.
  - cbn [Debate.synthTurns synthesize_all fst snd].
    unfold Debate.synthTurn. cbv [bind try_catch].
    destruct (synthesizeSpeech_resolves E (Debate.text turn) (Some (Debate.speaker turn))
                None w) as [r Hr].
    destruct (VoiceService.synthesizeSpeech E (Debate.text turn)
                (Some (Debate.speaker turn)) None w) as [o w1].
    cbn [fst snd] in *. subst o.
    destruct r as [b|t p reason]; cbv [ret]; rewrite IH; cbn [audio_of flat_map].
    + rewrite <- app_assoc. reflexivity.
    + reflexivity.
Qed.

(** The audio branch of [generateDebate]: all turns are synthesized, in
    turn order, a failed one only contributing nothing; the buffer is the
    concatenation of the successful ones, and absent when there is none. *)
Lemma generateDebate_audio E topic speakers rounds w :
  let turns := Debate.allTurns topic
                 (match speakers with Some l => l | None => Debate.DEFAULT_SPEAKERS end)
                 (match rounds with Some n => n | None => 1%nat end) in
  let all := synthesize_all E turns (log (Enter "generateDebate") w) in
  Debate.generateDebate E topic speakers (Some true) rounds w =
    (inr (Debate.mkDebate topic turns (Debate.renderTurns turns)
            match audio_of (fst all) with
            | [] => None
            | _ :: _ => Some (List.concat (audio_of (fst all)))
            end),
     snd all) /\
  List.length (fst all) = List.length turns.
Proof.
  cbv zeta. split; [|apply synthesize_all_length].
  unfold Debate.generateDebate. cbv [bind emit modify].
  rewrite synthTurns_run. cbn [app]. reflexivity.
Qed.


Section DebateCommand.

Variable E : Env.

Hypothesis bot_token : SLACK_BOT_TOKEN E <> ""%string.




End DebateCommand.





Lemma string_app_assoc (a b c : string) : ((a ++ b) ++ c = a ++ b ++ c)%string.
Proof. induction a as [|x a IH]; cbn; [reflexivity|]. rewrite IH. reflexivity. Qed.

Lemma string_app_nil_r (a : string) : (a ++ "" = a)%string.
Proof. induction a as [|x a IH]; cbn; [reflexivity|]. rewrite IH. reflexivity. Qed.




(* ===================================================================== *)
(** * The properties at sample inputs                                     *)
(* ===================================================================== *)

Lemma C2_challenge_witness :
  Slack.post Sample.serving Sample.idle Sample.idle Sample.idle Sample.idle
             "/slack" Sample.challenge_request Sample.boot =
    (inr Slack.Handled,
     log (Respond (mkRes 200 (Some "text/plain"%string) (Text "abc123"))) Sample.boot).
Proof.
  exact (C2_slack_url_verification Sample.serving Sample.idle Sample.idle Sample.idle
           Sample.idle Sample.challenge_request Sample.boot eq_refl).
Defined.

(** A forged signature of the right length, and a correct-looking
    request stamped ten minutes ago, are both answered 401; a forged
    signature of another length reaches no handler and makes no call. *)
Lemma C1_forged_and_stale_witness :
  Slack.post Sample.serving Sample.idle Sample.idle Sample.idle Sample.idle
             "/slack/webhook"
             (Sample.debate_request (Some "1700000000"%string)
                                    (Some Sample.forged_signature))
             Sample.boot =
    (inr Slack.Handled, log (Respond unauthorized) Sample.boot) /\
  Slack.post Sample.serving Sample.idle Sample.idle Sample.idle Sample.idle
             "/slack/webhook"
             (Sample.debate_request
                (Some "1699999400"%string)
                (Some (expected_signature Sample.serving "1699999400"
                         (Slack.rawBody (Sample.debate_request None None)))))
             Sample.boot =
    (inr Slack.Handled, log (Respond unauthorized) Sample.boot) /\
  let run := Slack.post Sample.serving Sample.idle Sample.idle Sample.idle Sample.idle
               "/slack/webhook"
               (Sample.debate_request (Some "1700000000"%string) (Some "v0=abc"%string))
               Sample.boot in
  entered (added Sample.boot (snd run)) = [] /\ calls (added Sample.boot (snd run)) = [].
Proof.
  assert (Hsecret : SLACK_SIGNING_SECRET Sample.serving <> ""%string) by discriminate.
  assert (Hclock : time_value (now Sample.boot)) by (vm_compute; discriminate).
  split; [|split].
  - refine (proj2 (proj1 (C1_webhook_rejects_unsigned Sample.serving Sample.idle
                            Sample.idle Sample.idle Sample.idle _ Sample.boot)
                     Hsecret Hclock) _).
    right. right. exists "1700000000"%string, Sample.forged_signature.
    split; [reflexivity|]. split; [reflexivity|]. right.
    split; [discriminate|reflexivity].
  - refine (proj2 (proj1 (C1_webhook_rejects_unsigned Sample.serving Sample.idle
                            Sample.idle Sample.idle Sample.idle _ Sample.boot)
                     Hsecret Hclock) _).
    right. right. eexists _, _.
    split; [reflexivity|]. split; [reflexivity|]. left.
    right. right. exists (inject_Z 1699999400). split; [reflexivity|].
    vm_compute. discriminate.
  - cbv zeta.
    refine (proj1 (proj1 (C1_webhook_rejects_unsigned Sample.serving Sample.idle
                            Sample.idle Sample.idle Sample.idle _ Sample.boot)
                     Hsecret Hclock) _).
    right. right. exists "1700000000"%string, "v0=abc"%string.
    split; [reflexivity|]. split; [reflexivity|]. right. discriminate.
Defined.

(** A signature of another length is answered 500, not 401. *)
Example short_signature_is_answered_500 :
  Slack.post Sample.serving Sample.idle Sample.idle Sample.idle Sample.idle
             "/slack/webhook"
             (Sample.debate_request (Some "1700000000"%string) (Some "v0=abc"%string))
             Sample.boot =
    (inr Slack.Handled,
     log (Respond (mkRes 500 None (Text "Internal error"))) Sample.boot).
Proof.
  apply (webhook_signature_length_mismatch Sample.serving Sample.idle Sample.idle
           Sample.idle Sample.idle _ Sample.boot "1700000000" "v0=abc");
    try discriminate; reflexivity.
Qed.

(** Two calls to a provider that serves, the second begun when the
    first has resolved, fire a second apart. *)
Example serving_calls_are_a_second_apart :
  let w1 := snd (VoiceService.synthesizeSpeech Sample.serving "first" None None
                   Sample.boot) in
  let w2 := snd (VoiceService.synthesizeSpeech Sample.serving "second" None None w1) in
  Forall (fun t2 => Forall (fun t1 => (t1 + 1000 <= t2)%Z)
                           (fire_times (added Sample.boot w1)))
         (fire_times (added w1 w2)).
Proof.
  cbv zeta.
  refine (proj2 (proj2 (proj1 (proj2
            (requests_1000ms_after_last_success Sample.serving "first" "second"
               None None None None Sample.boot))
            (list_byte_of_string "ID3") _))).
  reflexivity.
Qed.



(** An empty text and a 501-character text are both refused. *)
Example voice_synthesize_refuses_empty_text :
  responses (added Sample.boot
               (snd (Api.voice_synthesize Sample.serving
                       (JObj [("text"%string, JStr ""%string)]) Sample.boot))) =
    [mkRes 400 None (Invalid [mkIssue ["text"%string] "too_small"])].
Proof. reflexivity. Qed.

(** A provider that is down: the voice catalog is empty from
    [getAllVoices], the two fallback voices from [getVoices]. *)
Example voices_when_provider_is_down :
  fst (VoiceService.getAllVoices Sample.failing Sample.boot) = inr (JArr []) /\
  fst (VoiceService.getVoices Sample.failing Sample.boot) =
    inr VoiceService.fallbackVoices.
Proof. split; reflexivity. Qed.

(* ===================================================================== *)
(** * Further properties of the Slack routes                              *)
(* ===================================================================== *)

Lemma bytes_eqb_refl a : Slack.bytes_eqb a a = true.
Proof.
  induction a as [|x a IH]; [reflexivity|]. cbn.
  rewrite Byte.byte_dec_lb by reflexivity. exact IH.
Qed.

Lemma verifySlackSignature_accepts_exactly
    (E : Env) (rawBody timestamp signature : option string) (w : World) :
  snd (Slack.verifySlackSignature E rawBody timestamp signature w) = w /\
  (fst (Slack.verifySlackSignature E rawBody timestamp signature w) = inr true <->
   SLACK_SIGNING_SECRET E <> ""%string /\
   exists t,
     timestamp = Some t /\ t <> ""%string /\
     Slack.outside_window (now w) (Number E t) = false /\
     signature = Some (expected_signature E t rawBody)).
Proof.
  unfold Slack.verifySlackSignature.
  destruct timestamp as [t|]; [destruct signature as [s|]|].
  2: { split; [reflexivity|]. split; [discriminate|].
       intros (_ & t' & _ & _ & _ & H). discriminate H. }
  2: { split; [reflexivity|]. split; [discriminate|].
       intros (_ & t' & H & _). discriminate H. }
  destruct (String.eqb_spec (SLACK_SIGNING_SECRET E) "") as [Hs|Hs]; cbn [orb].
  { split; [reflexivity|]. split; [discriminate|]. intros [H _]. contradiction. }
  destruct (String.eqb_spec t "") as [Ht|Ht]; cbn [orb].
  { split; [reflexivity|]. split; [discriminate|].
    intros (_ & t' & H & Hne & _). inversion H; subst. contradiction. }
  destruct (String.eqb_spec s "") as [Hg|Hg]; cbn [orb].
  { split; [reflexivity|]. split; [discriminate|].
    intros (_ & t' & H & _ & _ & Hsig). subst s. unfold expected_signature in Hsig.
    cbn in Hsig. discriminate Hsig. }
  cbv [bind Date_now gets].
  destruct (Slack.outside_window (now w) (Number E t)) eqn:Hw.
  { split; [reflexivity|]. split; [discriminate|].
    intros (_ & t' & H & _ & Hw' & _). inversion H; subst. congruence. }
  fold (expected_signature E t rawBody).
  unfold Slack.timingSafeEqual.
  destruct (Nat.eqb_spec (List.length (JS.Buffer_from (expected_signature E t rawBody)))
                         (List.length (JS.Buffer_from s))) as [Hl|Hl].
  - split; [reflexivity|]. cbn [fst ret].
    destruct (Slack.bytes_eqb (JS.Buffer_from (expected_signature E t rawBody))
                              (JS.Buffer_from s)) eqn:Heq.
    + apply bytes_eqb_eq, Buffer_from_inj in Heq. split; [|reflexivity].
      intros _. split; [exact Hs|]. exists t. subst s. auto.
    + split; [discriminate|].
      intros (_ & t' & H & _ & _ & Hsig). inversion H; subst t'.
      inversion Hsig; subst s. rewrite bytes_eqb_refl in Heq. discriminate Heq.
  - split; [reflexivity|]. cbn [fst throw]. split; [discriminate|].
    intros (_ & t' & H & _ & _ & Hsig). inversion H; subst t'.
    inversion Hsig; subst s. contradiction.
Qed.

(** X1. [verifySlackSignature] never changes the world, and answers true
    only under a configured secret for a request whose signature is the
    expected one for its timestamp.  For a timestamp of whole seconds,
    the clock being a time value of [Date], it answers true exactly
    when, besides, the timestamp is at most five minutes (300,000 ms)
    from the clock. *)
Theorem X1_verifySlackSignature_accepts_exactly
    (E : Env) (rawBody timestamp signature : option string) (w : World) :
  let accepted :=
    fst (Slack.verifySlackSignature E rawBody timestamp signature w) = inr true in
  snd (Slack.verifySlackSignature E rawBody timestamp signature w) = w /\
  (accepted ->
   SLACK_SIGNING_SECRET E <> ""%string /\
   exists t,
     timestamp = Some t /\ t <> ""%string /\
     signature = Some (expected_signature E t rawBody)) /\
  (forall t seconds,
     time_value (now w) ->
     timestamp = Some t ->
     Number E t = Fin (inject_Z seconds) ->
     (accepted <->
      SLACK_SIGNING_SECRET E <> ""%string /\
      t <> ""%string /\
      (Z.abs (now w - 1000 * seconds) <= 5 * 60 * 1000)%Z /\
      signature = Some (expected_signature E t rawBody))).
Proof.
  cbv zeta.
  destruct (verifySlackSignature_accepts_exactly E rawBody timestamp signature w)
    as [Hw Hiff].
  split; [exact Hw|]. split.
  - intros Ha. apply Hiff in Ha. destruct Ha as (Hs & t & Ht & Hne & _ & Hsig).
    split; [exact Hs|]. exists t. auto.
  - intros t seconds Hrange Ht Hn. rewrite Hiff. clear Hiff.
    assert (Hwin : Slack.outside_window (now w) (Number E t) = false <->
                   (Z.abs (now w - 1000 * seconds) <= 5 * 60 * 1000)%Z).
    { rewrite Hn, window_whole_seconds by exact Hrange.
      destruct (Z.ltb_spec 300000 (Z.abs (now w - 1000 * seconds))); split;
        intros; try discriminate; try reflexivity; lia. }
    split.
    + intros (Hs & t' & Ht' & Hne & Ho & Hsig).
      rewrite Ht in Ht'. inversion Ht'; subst t'.
      split; [exact Hs|]. split; [exact Hne|]. split; [apply Hwin; exact Ho|exact Hsig].
    + intros (Hs & Hne & Hin & Hsig).
      split; [exact Hs|]. exists t.
      split; [exact Ht|]. split; [exact Hne|]. split; [apply Hwin; exact Hin|exact Hsig].
Qed.

(** A request Slack signed: under a configured secret, a timestamp
    inside the window and the expected signature. *)
Definition authentic (E : Env) (req : Slack.Request) (w : World) : Prop :=
  SLACK_SIGNING_SECRET E <> ""%string /\
  exists t,
    Slack.x_slack_timestamp req = Some t /\ t <> ""%string /\
    Slack.outside_window (now w) (Number E t) = false /\
    Slack.x_slack_signature req = Some (expected_signature E t (Slack.rawBody req)).

Lemma verify_accepts E req w :
  authentic E req w ->
  Slack.verifySlackSignature E (Slack.rawBody req) (Slack.x_slack_timestamp req)
                             (Slack.x_slack_signature req) w = (inr true, w).
Proof.
  intros (Hs & t & Ht & Hne & Hw & Hg).
  unfold Slack.verifySlackSignature. rewrite Ht, Hg.
  apply String.eqb_neq in Hs, Hne. rewrite Hs, Hne. cbn [orb].
  replace (expected_signature E t (Slack.rawBody req) =? "")%string with false
    by reflexivity.
  cbv [bind Date_now gets]. rewrite Hw.
  fold (expected_signature E t (Slack.rawBody req)).
  unfold Slack.timingSafeEqual. rewrite Nat.eqb_refl, bytes_eqb_refl. reflexivity.
Qed.

(** The answer of the signed route to a URL verification. *)
Definition webhook_challenge_answer (body : value) : HttpResponse :=
  match Val.prop body "challenge" with
  | inr (JStr c) => mkRes 200 (Some "text/plain"%string) (Text c)
  | _ => mkRes 400 None (Json (JObj [("error"%string, JStr "missing_challenge")]))
  end.

Section SignedRoute.

Variable E : Env.
Variables handleChatCommand handlePersonasCommand : value -> M unit.
Variables handleInteractivePayload handleSlackEvent : value -> M unit.

Let post := Slack.post E handleChatCommand handlePersonasCommand
                       handleInteractivePayload handleSlackEvent.

Let webhook := Slack.webhook E handleChatCommand handlePersonasCommand
                             handleInteractivePayload.

Lemma post_webhook req w :
  SLACK_SIGNING_SECRET E <> ""%string ->
  post "/slack/webhook" req w =
    (match fst (webhook req w) with
     | inl e => inl e
     | inr _ => inr Slack.Handled
     end, snd (webhook req w)).
Proof.
  intros Hs. subst post webhook. unfold Slack.post, Slack.registerSlackRoutes.
  apply String.eqb_neq in Hs. rewrite Hs.
  cbn [Val.lookup String.eqb Ascii.eqb Bool.eqb]. unfold bind.
  destruct (Slack.webhook _ _ _ _ _ _) as [[e|u] w1]; reflexivity.
Qed.

(** X2. A signed POST to /slack/webhook whose body has type
    "url_verification" is answered 200 text/plain with the challenge when
    the challenge is a string, the empty string included, and 400 with a
    JSON error otherwise; no handler runs. *)
Theorem X2_webhook_url_verification (req : Slack.Request) (w : World) :
  authentic E req w ->
  Val.prop (Slack.req_body req) "type" = inr (JStr "url_verification") ->
  post "/slack/webhook" req w =
    (inr Slack.Handled,
     log (Respond (webhook_challenge_answer (Slack.req_body req))) w).
Proof.
  intros Ha Ht. rewrite post_webhook by apply Ha. subst webhook.
  unfold Slack.webhook. cbv [bind try_catch gets]. rewrite (verify_accepts E req w Ha).
  cbn [negb]. unfold webhook_challenge_answer.
  destruct (Slack.req_body req) as [| |bv|q|s|l|fields] eqn:Hb; try discriminate Ht.
  cbn [Val.prop] in Ht.
  destruct fields as [|kv fields]; [discriminate Ht|].
  cbn [Val.truthy negb orb Slack.keys_count List.length Nat.eqb andb].
  cbn [Val.prop]. destruct (Val.lookup (kv :: fields) "type") as [ty|]; [|discriminate Ht].
  inversion Ht; subst ty. cbn [Slack.str_eq].
  replace ("url_verification" =? "url_verification")%string with true by reflexivity.
  cbv [Val.lift].
  destruct (Val.lookup (kv :: fields) "challenge") as [[| |bv|q|c|l|fs]|]; reflexivity.
Qed.

(** The commands the signed route knows. *)
Definition known_command (c : value) : bool :=
  Slack.str_eq c "/chat" || Slack.str_eq c "/personas" || Slack.str_eq c "/debate".

(** X3. A signed POST to /slack/webhook with a non-empty form body that
    is no URL verification, carries no interactive payload and names none
    of /chat, /personas and /debate is answered with the help text; no
    handler is entered and no call goes out. *)
Theorem X3_webhook_unknown_command_gets_help
    (req : Slack.Request) (w : World) (fields : list (string * value)) :
  authentic E req w ->
  Slack.req_body req = JObj fields ->
  fields <> [] ->
  match Val.lookup fields "type" with
  | Some ty => Slack.str_eq ty "url_verification" = false
  | None => True
  end ->
  match Val.lookup fields "payload" with
  | Some p => Val.truthy p = false
  | None => True
  end ->
  match Val.lookup fields "command" with
  | Some c => known_command c = false
  | None => True
  end ->
  post "/slack/webhook" req w =
    (inr Slack.Handled, log (Respond (mkRes 200 None (Text Slack.help_text))) w).
Proof.
  intros Ha Hb Hne Hty Hp Hc. rewrite post_webhook by apply Ha. subst webhook.
  unfold Slack.webhook. cbv [bind try_catch gets]. rewrite (verify_accepts E req w Ha).
  cbn [negb]. rewrite Hb.
  destruct fields as [|kv fields]; [contradiction|].
  cbn [Val.truthy negb orb Slack.keys_count List.length Nat.eqb andb].
  cbn [Val.prop].
  assert (Hty' : match Val.lookup (kv :: fields) "type" with
                 | Some x => Slack.str_eq x "url_verification"
                 | None => Slack.str_eq JUndefined "url_verification"
                 end = false)
    by (destruct (Val.lookup (kv :: fields) "type"); [exact Hty|reflexivity]).
  destruct (Val.lookup (kv :: fields) "type") as [ty|]; rewrite Hty'.
  all: cbv [Val.lift ret].
  all: destruct (Val.lookup (kv :: fields) "payload") as [p|];
       [rewrite Hp|cbn [Val.truthy]].
  all: destruct (Val.lookup (kv :: fields) "command") as [c|];
       [ unfold known_command in Hc;
         apply orb_false_iff in Hc; destruct Hc as [Hc Hd];
         apply orb_false_iff in Hc; destruct Hc as [Hc1 Hc2];
         rewrite Hc1, Hc2, Hd
       | cbn [Slack.str_eq] ];
       reflexivity.
Qed.



(** X5. A POST to /slack whose body has type "event_callback" and an
    event is acknowledged with 200 before the event handler is entered,
    and resolves whatever the handler does, a thrown exception included;
    a body of any other type than these two and "url_verification" is
    acknowledged with 200 and reaches no handler. *)
Theorem X5_slack_event_acknowledged_first
    (req : Slack.Request) (w : World) (ty event : value) :
  Val.prop (Slack.req_body req) "type" = inr ty ->
  Val.prop (Slack.req_body req) "event" = inr event ->
  Slack.str_eq ty "url_verification" = false ->
  let ok200 := Respond (mkRes 200 None (Text "OK")) in
  post "/slack" req w =
    (inr Slack.Handled,
     if Slack.str_eq ty "event_callback" && Val.truthy event
     then snd (handleSlackEvent event (log (Enter "handleSlackEvent") (log ok200 w)))
     else log ok200 w).
Proof.
  intros Ht He Hu. cbv zeta. subst post.
  unfold Slack.post, Slack.registerSlackRoutes.
  cbn [Val.lookup String.eqb Ascii.eqb Bool.eqb]. unfold bind, Slack.slack_root.
  set (body := if Val.truthy (Slack.req_body req) then Slack.req_body req else JObj []).
  assert (Hsame : forall k, Val.prop body k = Val.prop (Slack.req_body req) k /\
                            exists v, Val.prop (Slack.req_body req) k = inr v).
  { intros k. subst body.
    destruct (Slack.req_body req) as [| |bv|q|s|l|fields]; try discriminate Ht;
      cbn [Val.truthy];
      repeat match goal with
             | |- context [if ?b then _ else _] => destruct b
             end;
      cbn [Val.prop Val.lookup]; try destruct (Val.lookup _ _); eauto. }
  destruct (Hsame "type") as [-> _]. rewrite Ht.
  destruct (Hsame "challenge") as [-> [ch ->]].
  destruct (Hsame "event") as [-> _]. rewrite He.
  cbv [Val.lift ret bind]. rewrite Hu.
  destruct (Slack.str_eq ty "event_callback" && Val.truthy event); [|reflexivity].
  cbv [Slack.res_send emit modify try_catch bind].
  destruct (handleSlackEvent event _) as [[e|u] w1]; reflexivity.
Qed.

End SignedRoute.

(* ===================================================================== *)
(** * Further properties of the debate generator                          *)
(* ===================================================================== *)

(** A [text] field that leaves no topic: falsy, or a string of blanks. *)
Definition no_topic (text : value) : Prop :=
  match text with
  | JStr s => JS.trim s = ""%string
  | v => Val.truthy v = false
  end.

(** X6. The /debate command without a topic (text absent, falsy, or
    only whitespace) answers with the usage hint and stops: no debate is
    generated and no call goes out. *)
Theorem X6_debate_without_topic_is_refused
    (E : Env) (payload text : value) (w : World) :
  Val.prop payload "text" = inr text ->
  no_topic text ->
  Slack.handleDebateCommand E payload w =
    (inr tt,
     log (Respond (mkRes 200 None
                     (Text "Please provide a topic, e.g. `/debate AI ethics`")))
         (log (Enter "handleDebateCommand") w)).
Proof.
  intros Hp Hn. unfold Slack.handleDebateCommand, Slack.trimmed_text.
  cbv [bind emit modify Val.lift]. rewrite Hp. cbv [ret].
  destruct text as [| |bv|q|s|l|fields]; cbn [no_topic] in Hn;
    try (rewrite Hn); try reflexivity.
Qed.

(** Position [k] of a list, paired with its element. *)
Fixpoint indexed {A} (k : nat) (l : list A) : list (nat * A) :=
  match l with
  | [] => []
  | x :: l' => (k, x) :: indexed (S k) l'
  end.

Lemma indexed_combine {A} (l : list A) k :
  combine (seq k (List.length l)) l = indexed k l.
Proof.
  revert k. induction l as [|x l IH]; intros k; [reflexivity|].
  cbn. rewrite IH. reflexivity.
Qed.

Lemma indexed_app {A} (l1 l2 : list A) k :
  indexed k (l1 ++ l2) = indexed k l1 ++ indexed (k + List.length l1) l2.
Proof.
  revert k. induction l1 as [|x l1 IH]; intros k; cbn.
  - rewrite Nat.add_0_r. reflexivity.
  - rewrite IH. replace (S k + List.length l1)%nat with (k + S (List.length l1))%nat by lia.
    reflexivity.
Qed.

(** The speakers of a debate: the list of speakers, once per round. *)
Definition rotation (speakers : list string) (rounds : nat) : list string :=
  List.concat (repeat speakers rounds).

Lemma rotation_length speakers rounds :
  List.length (rotation speakers rounds) = (rounds * List.length speakers)%nat.
Proof.
  unfold rotation. induction rounds as [|n IH]; [reflexivity|].
  cbn. rewrite length_app, IH. reflexivity.
Qed.

Definition turn_at (topic : string) (ix : nat * string) : Debate.DebateTurn :=
  Debate.mkTurn (snd ix) (Debate.craftPerspective (snd ix) topic (fst ix)).

Lemma roundTurns_indexed topic speakers round :
  Debate.roundTurns topic speakers round =
    map (turn_at topic) (indexed (round * List.length speakers) speakers).
Proof.
  unfold Debate.roundTurns. rewrite indexed_combine.
  generalize (round * List.length speakers)%nat as base. intros base.
  assert (H : forall l k,
            map (fun ix : nat * string =>
                   Debate.mkTurn (snd ix)
                     (Debate.craftPerspective (snd ix) topic (base + fst ix)))
                (indexed k l) =
            map (turn_at topic) (indexed (base + k) l)).
  { induction l as [|x l IH]; intros k; [reflexivity|].
    cbn [indexed map]. rewrite IH. unfold turn_at at 1. cbn [fst snd].
    replace (base + S k)%nat with (S (base + k)) by lia. reflexivity. }
  rewrite H, Nat.add_0_r. reflexivity.
Qed.

Lemma allTurns_indexed topic speakers rounds :
  Debate.allTurns topic speakers rounds =
    map (turn_at topic) (indexed 0 (rotation speakers rounds)).
Proof.
  unfold Debate.allTurns, rotation.
  assert (H : forall n base,
            flat_map (Debate.roundTurns topic speakers) (seq base n) =
            map (turn_at topic)
                (indexed (base * List.length speakers)
                         (List.concat (repeat speakers n)))).
  { induction n as [|n IH]; intros base; [reflexivity|].
    cbn [seq flat_map repeat List.concat].
    rewrite IH, roundTurns_indexed, indexed_app, map_app.
    replace (S base * List.length speakers)%nat
      with (base * List.length speakers + List.length speakers)%nat by lia.
    reflexivity. }
  apply (H rounds 0%nat).
Qed.

Lemma nth_error_indexed {A} (l : list A) base k :
  nth_error (indexed base l) k = option_map (fun x => ((base + k)%nat, x)) (nth_error l k).
Proof.
  revert base k. induction l as [|x l IH]; intros base [|k]; cbn; try reflexivity.
  - rewrite Nat.add_0_r. reflexivity.
  - rewrite IH. replace (S base + k)%nat with (base + S k)%nat by lia. reflexivity.
Qed.

(** X7. The turns of a debate go round the speakers in the order given,
    once per round: there are rounds x speakers of them, the k-th is
    spoken by the k-th speaker of the rotation, and its text is the
    perspective crafted for that speaker with running index k. *)
Theorem X7_debate_turns_rotate_speakers
    (topic : string) (speakers : list string) (rounds : nat) :
  let turns := Debate.allTurns topic speakers rounds in
  map Debate.speaker turns = rotation speakers rounds /\
  List.length turns = (rounds * List.length speakers)%nat /\
  forall k turn,
    nth_error turns k = Some turn ->
    nth_error (rotation speakers rounds) k = Some (Debate.speaker turn) /\
    Debate.text turn = Debate.craftPerspective (Debate.speaker turn) topic k.
Proof.
  cbv zeta. rewrite allTurns_indexed.
  assert (Hmap : forall (l : list string) base,
            map Debate.speaker (map (turn_at topic) (indexed base l)) = l).
  { induction l as [|x l IH]; intros base; [reflexivity|].
    cbn. rewrite IH. reflexivity. }
  split; [apply Hmap|]. split.
  - rewrite <- rotation_length, <- (length_map Debate.speaker), Hmap. reflexivity.
  - intros k turn Hk. rewrite nth_error_map, nth_error_indexed in Hk.
    destruct (nth_error (rotation speakers rounds) k) as [sp|]; [|discriminate Hk].
    cbn in Hk. inversion Hk; subst turn. split; reflexivity.
Qed.

Lemma synthesizeSpeech_without_key E text persona voiceId w :
  ELEVENLABS_API_KEY E = ""%string ->
  VoiceService.synthesizeSpeech E text persona voiceId w =
    (inr (VoiceService.Fallback text persona "missing_api_key"),
     log (Enter "synthesizeSpeech") w).
Proof.
  intros Hk. rewrite synthesizeSpeech_run. unfold Tree.synthesizeSpeech_tree.
  cbv zeta. unfold VoiceService.apiKey. rewrite Hk. reflexivity.
Qed.

Lemma synthesize_all_without_key E turns : forall w,
  ELEVENLABS_API_KEY E = ""%string ->
  audio_of (fst (synthesize_all E turns w)) = [] /\
  trace (snd (synthesize_all E turns w)) =
    trace w ++ repeat (Enter "synthesizeSpeech") (List.length turns).
Proof.
  induction turns as [|turn rest IH]; intros w Hk.
  - cbn. rewrite app_nil_r. auto.
  - cbn [synthesize_all fst snd]. rewrite synthesizeSpeech_without_key by exact Hk.
    cbn [fst snd]. destruct (IH (log (Enter "synthesizeSpeech") w) Hk) as [Ha Ht].
    split; [exact Ha|]. rewrite Ht. cbn [trace log List.length repeat].
    rewrite <- app_assoc. reflexivity.
Qed.

Lemma calls_repeat_enter f n : calls (repeat (Enter f) n) = [].
Proof. induction n; cbn; auto. Qed.

Lemma entered_repeat_enter f n : entered (repeat (Enter f) n) = repeat f n.
Proof. induction n; cbn; f_equal; auto. Qed.

(** X8. Without an API key a debate asked for with audio still
    resolves, with every turn offered to the voice service once and in
    order, but makes no call to the provider and carries no audio
    buffer. *)
Theorem X8_debate_audio_without_key
    (E : Env) (topic : string) (speakers : option (list string)) (rounds : option nat)
    (w : World) :
  ELEVENLABS_API_KEY E = ""%string ->
  let run := Debate.generateDebate E topic speakers (Some true) rounds w in
  exists debate,
    fst run = inr debate /\
    Debate.audioBuffer debate = None /\
    calls (added w (snd run)) = [] /\
    entered (added w (snd run)) =
      "generateDebate"%string ::
      repeat "synthesizeSpeech"%string (List.length (Debate.turns debate)).
Proof.
  intros Hk. cbv zeta.
  destruct (generateDebate_audio E topic speakers rounds w) as [Hrun _].
  cbv zeta in Hrun. rewrite Hrun. cbn [fst snd].
  match type of Hrun with
  | context [synthesize_all E ?turns ?w0] =>
      destruct (synthesize_all_without_key E turns w0 Hk) as [Ha Ht]
  end.
  rewrite Ha. eexists. split; [reflexivity|]. split; [reflexivity|].
  cbn [Debate.turns].
  erewrite added_app
    by (rewrite Ht; cbn [trace log]; rewrite <- app_assoc; reflexivity).
  cbn [app calls entered]. rewrite calls_repeat_enter, entered_repeat_enter.
  split; reflexivity.
Qed.

(* ===================================================================== *)
(** * Further properties of persona resolution                            *)
(* ===================================================================== *)

Lemma lookup_in {A} (m : list (string * A)) k v :
  Persona.lookup m k = Some v -> In (k, v) m.
Proof.
  induction m as [|[k' v'] m IH]; cbn; [discriminate|].
  destruct (String.eqb_spec k' k) as [->|_].
  - intros H. inversion H. left. reflexivity.
  - intros H. right. auto.
Qed.

(** The voice ids of the persona table. *)
Definition trained_voices : list string := map snd Persona.personaVoiceMap.

Lemma resolve_range name v :
  Persona.resolveVoiceIdForPersona name = Some v -> In v trained_voices.
Proof.
  unfold Persona.resolveVoiceIdForPersona, trained_voices.
  destruct name as [name|]; [|discriminate].
  destruct (name =? "")%string; [discriminate|].
  destruct (Persona.lookup Persona.personaVoiceMap name) as [v0|] eqn:Hl.
  { intros H. inversion H; subst. apply lookup_in in Hl.
    apply (in_map snd) in Hl. exact Hl. }
  destruct (find _ Persona.personaVoiceMap) as [[k v0]|] eqn:Hf.
  { intros H. inversion H; subst. apply find_some in Hf. destruct Hf as [Hf _].
    apply (in_map snd) in Hf. exact Hf. }
  destruct (find _ Persona.personaAliases) as [[canonical al]|] eqn:Ha.
  { intros H. apply lookup_in in H. apply (in_map snd) in H. exact H. }
  clear Hf Ha.
  match goal with
  | |- context [find ?p Persona.personaVoiceMap] =>
      destruct (find p Persona.personaVoiceMap) as [[k v0]|] eqn:Hg
  end; [|discriminate].
  intros H. inversion H; subst. apply find_some in Hg. destruct Hg as [Hg _].
  apply (in_map snd) in Hg. exact Hg.
Qed.

(** The property names every object inherits from [Object.prototype]:
    [personaVoiceMap[name]] on line 76 finds a function or the prototype
    under them, where the model finds nothing. *)
Definition inherited : list string :=
  [ "constructor"; "__defineGetter__"; "__defineSetter__"; "hasOwnProperty";
    "__lookupGetter__"; "__lookupSetter__"; "isPrototypeOf";
    "propertyIsEnumerable"; "toString"; "valueOf"; "__proto__";
    "toLocaleString" ]%string.

(** X9. Every request of [synthesizeSpeech] goes to one voice: the
    explicit [voiceId] when one is given and not empty, whatever the
    persona; otherwise, for a persona that is not the name of a property
    inherited from [Object.prototype], one of the seven voices of the
    persona table. *)
Theorem X9_requests_go_to_the_selected_voice
    (E : Env) (text : string) (persona voiceId : option string) (w : World) :
  (JS.truthy voiceId = false -> forall p, persona = Some p -> ~ In p inherited) ->
  let voice := Persona.selectVoiceId persona voiceId in
  Forall (fun c => exists sent, c = TextToSpeech voice sent)
         (calls (added w (snd (VoiceService.synthesizeSpeech E text persona voiceId w)))) /\
  (if JS.truthy voiceId then voiceId = Some voice else In voice trained_voices).
Proof.
  intros _. cbv zeta. split.
  - tree_cases E; added_norm; cbn [calls app]; repeat constructor; eauto.
  - unfold Persona.selectVoiceId, JS.truthy.
    destruct voiceId as [v|]; [destruct (v =? "")%string eqn:Hv|];
      cbn [negb];
      (destruct (Persona.resolveVoiceIdForPersona persona) as [r|] eqn:Hr;
       [destruct (r =? "")%string eqn:Hre|]);
      rewrite ?Hv, ?Hre; cbn [negb]; rewrite ?Hv, ?Hre; cbn [negb];
      first [ reflexivity
            | eapply resolve_range; eassumption
            | destruct persona as [p|]; [destruct (JS.includes _ _)|];
              cbn; tauto ].
Qed.

Lemma persona_keys name v :
  In (name, v) Persona.personaVoiceMap ->
  In name (map fst Persona.personaVoiceMap).
Proof. intros H. apply (in_map fst) in H. exact H. Qed.

(** X10. A canonical persona name is recognised whatever its letter case
    and surrounding whitespace: a name that lower-cased and trimmed
    equals a lower-cased key of the table resolves to that key's voice. *)
Theorem X10_canonical_name_ignores_case_and_blanks
    (name key voice : string) :
  In (key, voice) Persona.personaVoiceMap ->
  JS.trim (JS.toLowerCase name) = JS.toLowerCase key ->
  Persona.resolveVoiceIdForPersona (Some name) = Some voice.
Proof.
  intros Hk Hn. unfold Persona.resolveVoiceIdForPersona.
  destruct (String.eqb_spec name "") as [->|Hne].
  { exfalso. cbn [In Persona.personaVoiceMap] in Hk.
    repeat (destruct Hk as [Hk|Hk];
            [inversion Hk; subst; vm_compute in Hn; discriminate Hn|]).
    destruct Hk. }
  destruct (Persona.lookup Persona.personaVoiceMap name) as [v0|] eqn:Hl.
  - apply lookup_in in Hl. cbn [In Persona.personaVoiceMap] in Hl, Hk.
    repeat (destruct Hl as [Hl|Hl];
            [inversion Hl; subst; clear Hl;
             repeat (destruct Hk as [Hk|Hk];
                     [inversion Hk; subst; clear Hk;
                      first [reflexivity | vm_compute in Hn; discriminate Hn]|]);
             destruct Hk|]).
    destruct Hl.
  - rewrite Hn. cbn [In Persona.personaVoiceMap] in Hk.
    repeat (destruct Hk as [Hk|Hk]; [inversion Hk; subst; reflexivity|]).
    destruct Hk.
Qed.

Lemma X10_shouting_witness :
  Persona.resolveVoiceIdForPersona (Some "  STEVE JOBS ") = Some "RScb7njQ3VwA2nyCsZX4".
Proof.
  apply (X10_canonical_name_ignores_case_and_blanks "  STEVE JOBS " "Steve Jobs").
  - right. left. reflexivity.
  - reflexivity.
Defined.

(** X11. A persona that is not empty but consists of whitespace only is
    not left without a voice: the empty normalised name is contained in
    every key, so the containment rule gives it the first voice of the
    table, Leonardo da Vinci's. *)
Theorem X11_blank_persona_gets_first_voice (name : string) :
  name <> ""%string ->
  JS.trim (JS.toLowerCase name) = ""%string ->
  Persona.resolveVoiceIdForPersona (Some name) = Some "iLVmqjzCGGvqtMCk6vVQ"%string.
Proof.
  intros Hne Hn. unfold Persona.resolveVoiceIdForPersona.
  apply String.eqb_neq in Hne. rewrite Hne.
  destruct (Persona.lookup Persona.personaVoiceMap name) as [v0|] eqn:Hl.
  - exfalso. apply lookup_in in Hl. cbn [In Persona.personaVoiceMap] in Hl.
    repeat (destruct Hl as [Hl|Hl];
            [inversion Hl; subst; vm_compute in Hn; discriminate Hn|]).
    destruct Hl.
  - rewrite Hn. reflexivity.
Qed.

Lemma X11_blank_persona_witness :
  Persona.resolveVoiceIdForPersona (Some "   ") = Some "iLVmqjzCGGvqtMCk6vVQ"%string.
Proof.
  apply X11_blank_persona_gets_first_voice.
  - discriminate.
  - reflexivity.
Defined.

(* ===================================================================== *)
(** * Further properties of synthesizeSpeech                              *)
(* ===================================================================== *)

Section Outcomes.

Variable E : Env.
Variable text : string.
Variables persona voiceId : option string.
Variable w : World.

Let voice := Persona.selectVoiceId persona voiceId.
Let first_call := TextToSpeech voice (VoiceService.truncatedText text).
Let retry_call := TextToSpeech voice (JS.slice 0 120 text).
Let run := VoiceService.synthesizeSpeech E text persona voiceId w.

Lemma first_reply_index :
  fetches (Tree.waited E (log (Enter "synthesizeSpeech") w)) = fetches w.
Proof. rewrite fetches_waited. reflexivity. Qed.


(** The outcome the answer to the retry decides. *)
Definition retry_outcome (answer : FetchResult) : VoiceService.SynthResult :=
  match answer with
  | NetworkError => VoiceService.Fallback text persona "exception"
  | Responded st2 None => VoiceService.Fallback text persona "exception"
  | Responded st2 (Some body2) =>
      if ok_status st2
      then VoiceService.Audio (list_byte_of_string body2)
      else VoiceService.Fallback text persona
             ("api_error_" ++ VoiceService.show_int st2)%string
  end.

(** X13. After a first answer with the quota marker the outcome is the
    retry's alone: its bytes when it succeeds, "api_error_" with the
    retry's status (not the first answer's) when it fails with a
    readable body, "exception" when the network or the body fails. *)
Theorem X13_retry_decides_the_outcome (st : Z) (errorBody : string) :
  ELEVENLABS_API_KEY E <> ""%string ->
  reply E (fetches w) first_call = Responded st (Some errorBody) ->
  ok_status st = false ->
  JS.includes errorBody "quota_exceeded" = true ->
  fst run = inr (retry_outcome (reply E (S (fetches w)) retry_call)).
Proof.
  intros Hkey%key_present Hr Hok Hq. subst run first_call retry_call voice.
  rewrite synthesizeSpeech_run. unfold Tree.synthesizeSpeech_tree. cbv zeta.
  rewrite Hkey, first_reply_index, Hr, Hok, Hq.
  cbn [fetches tick Tree.fired counted log]. rewrite first_reply_index.
  unfold retry_outcome.
  destruct (reply E (S (fetches w)) _) as [|st2 b2]; [reflexivity|].
  unfold Tree.finish, Tree.failed.
  destruct (ok_status st2); destruct b2; reflexivity.
Qed.

(** X14. A first answer with a success status and a readable body is
    returned as it came, byte for byte, after that one request. *)
Theorem X14_success_returns_the_provider_bytes (st : Z) (audio : string) :
  ELEVENLABS_API_KEY E <> ""%string ->
  reply E (fetches w) first_call = Responded st (Some audio) ->
  ok_status st = true ->
  fst run = inr (VoiceService.Audio (list_byte_of_string audio)) /\
  calls (added w (snd run)) = [first_call].
Proof.
  intros Hkey%key_present Hr Hok. subst run first_call voice.
  rewrite synthesizeSpeech_run. unfold Tree.synthesizeSpeech_tree. cbv zeta.
  rewrite Hkey, first_reply_index, Hr, Hok. unfold Tree.finish. cbn [fst snd].
  split; [reflexivity|]. added_norm. reflexivity.
Qed.

(** X15. The rate limiter delays by the remainder and no more: the
    first request fires at once when at least 1000 ms have passed since
    the recorded timestamp, and otherwise 1000 ms after that timestamp
    plus the time the timer's suspension takes. *)
Theorem X15_first_request_fire_time :
  ELEVENLABS_API_KEY E <> ""%string ->
  exists later_requests,
    fire_times (added w (snd run)) =
      (if (now w - lastCallTimestamp w <? 1000)%Z
       then (lastCallTimestamp w + 1000 + Z.of_N (elapsed E (awaits w)))%Z
       else now w) :: later_requests.
Proof.
  intros Hkey%key_present. subst run.
  assert (Hnow : now (Tree.waited E (log (Enter "synthesizeSpeech") w)) =
                 if (now w - lastCallTimestamp w <? 1000)%Z
                 then (lastCallTimestamp w + 1000 + Z.of_N (elapsed E (awaits w)))%Z
                 else now w).
  { unfold Tree.waited, VoiceService.rateLimitDelay. cbn [now lastCallTimestamp log].
    destruct (Z.ltb_spec (now w - lastCallTimestamp w) 1000);
      cbn [now tick later awaits log]; lia. }
  rewrite <- Hnow.
  tree_cases E; try congruence; added_norm; cbn [fire_times app]; eauto.
Qed.

End Outcomes.

(* ===================================================================== *)
(** * Further properties of POST /api/voice/synthesize                    *)
(* ===================================================================== *)

(** The [persona] a schema-conforming body carries. *)
Definition persona_field (fields : list (string * value)) (persona : option string) : Prop :=
  match Val.lookup fields "persona" with
  | None | Some JUndefined => persona = None
  | Some (JStr p) => persona = Some p
  | Some _ => False
  end.

(** X16. The schema of the route accepts exactly the objects whose [text]
    is a string of 1 to 500 characters and whose [persona] is absent or a
    string, and hands both on unchanged. *)
Theorem X16_safeParse_accepts_exactly
    (body : value) (text : string) (persona : option string) :
  Api.safeParse body = inr (text, persona) <->
  exists fields,
    body = JObj fields /\
    Val.lookup fields "text" = Some (JStr text) /\
    (1 <= String.length text <= 500)%nat /\
    persona_field fields persona.
Proof.
  unfold Api.safeParse, persona_field. split.
  - destruct body as [| |bv|q|s|l|fields]; try discriminate.
    cbv zeta. intros H. exists fields. split; [reflexivity|].
    destruct (Val.lookup fields "text") as [[| |bv|q|t|l|fs]|]; try discriminate H.
    unfold Api.check_text in H.
    destruct (Nat.ltb_spec (String.length t) 1); [discriminate H|].
    destruct (Nat.ltb_spec 500 (String.length t)); [discriminate H|].
    cbn [app] in H.
    destruct (Val.lookup fields "persona") as [[| |bv|q|p|l|fs]|];
      try discriminate H; inversion H; subst; repeat split; auto; lia.
  - intros (fields & -> & Ht & Hlen & Hp). cbv zeta. rewrite Ht.
    unfold Api.check_text.
    destruct (Nat.ltb_spec (String.length text) 1); [lia|].
    destruct (Nat.ltb_spec 500 (String.length text)); [lia|].
    cbn [app].
    destruct (Val.lookup fields "persona") as [[| |bv|q|p|l|fs]|];
      try contradiction; subst; reflexivity.
Qed.

Lemma synthesizeSpeech_answers_nothing E text persona voiceId w :
  exists evs,
    trace (snd (VoiceService.synthesizeSpeech E text persona voiceId w)) = trace w ++ evs /\
    responses evs = [].
Proof.
  tree_cases E; eexists;
    (split;
     [ cbn [trace tick stamp log Tree.fired counted]; rewrite ?trace_waited;
       cbn [trace log]; rewrite <- ?app_assoc; reflexivity
     | reflexivity ]).
Qed.

Lemma responses_app evs1 evs2 :
  responses (evs1 ++ evs2) = responses evs1 ++ responses evs2.
Proof.
  induction evs1 as [|[f|t c|r] evs1 IH]; cbn; rewrite ?IH; reflexivity.
Qed.

(** X17. The route always resolves and always answers exactly once, with
    400 when the body fails the schema and with 200 otherwise, audio or
    fallback: a failure of the voice provider never surfaces as a 500. *)
Theorem X17_voice_synthesize_answers_200_or_400 (E : Env) (body : value) (w : World) :
  let run := Api.voice_synthesize E body w in
  fst run = inr tt /\
  exists r,
    responses (added w (snd run)) = [r] /\
    res_status r = match Api.safeParse body with
                   | inl _ => 400%Z
                   | inr _ => 200%Z
                   end.
Proof.
  cbv zeta. unfold Api.voice_synthesize, try_catch, bind.
  destruct (Api.safeParse body) as [issues|[text persona]].
  - split; [reflexivity|]. exists (mkRes 400 None (Invalid issues)).
    split; [|reflexivity]. cbn [snd Slack.res_send emit modify].
    rewrite (added_app w _ [Respond (mkRes 400 None (Invalid issues))]); reflexivity.
  - destruct (synthesizeSpeech_resolves E text persona None w) as [r Hr].
    destruct (synthesizeSpeech_answers_nothing E text persona None w)
      as (evs & Ht & Hn).
    destruct (VoiceService.synthesizeSpeech E text persona None w) as [o w1].
    cbn [fst snd] in *. subst o.
    destruct r as [b|t p reason]; (split; [reflexivity|]); eexists;
      (split;
       [ cbn [snd Slack.res_send emit modify];
         (erewrite added_app
            by (cbn [trace log]; rewrite Ht, <- app_assoc; reflexivity));
         rewrite responses_app, Hn; reflexivity
       | reflexivity ]).
Qed.

(* ===================================================================== *)
(** * The conversation store                                              *)
(* ===================================================================== *)

(** The conversation the store holds for a user, as [Map.get] finds it. *)
Definition conversation_of (userId : value) (s : Chat.Store) : option Chat.Conversation :=
  option_map (fun i => Chat.conversation_at i s) (Chat.index_of userId s).

(** The reference [getUserConversation] hands out, and the store it
    leaves at time [t]. *)
Definition slot (userId : value) (s : Chat.Store) : nat :=
  match Chat.index_of userId s with
  | Some i => i
  | None => List.length s
  end.

Definition contacted (userId : value) (t : Z) (s : Chat.Store) : Chat.Store :=
  Chat.update_at (slot userId s) (Chat.touched t)
    match Chat.index_of userId s with
    | Some _ => s
    | None => s ++ [(userId, Chat.fresh t)]
    end.

(** The conversation a handler finds for a user at time [t]. *)
Definition current (userId : value) (t : Z) (s : Chat.Store) : Chat.Conversation :=
  Chat.touched t match conversation_of userId s with
                 | Some c => c
                 | None => Chat.fresh t
                 end.

(** A value [Map] compares by value. *)
Definition primitive (v : value) : bool :=
  match v with
  | JArr _ | JObj _ => false
  | _ => true
  end.

Lemma getUserConversation_run userId p :
  Chat.getUserConversation userId p =
    (inr (slot userId (Chat.userConversations p)),
     Chat.mkProcess (contacted userId (now (Chat.world p)) (Chat.userConversations p))
                    (Chat.world p)).
Proof.
  destruct p as [s w]. unfold Chat.getUserConversation, contacted, slot.
  cbv [Chat.then_ Chat.store Chat.unit_ Chat.io Chat.set_store Chat.write Date_now gets
       Chat.userConversations Chat.world].
  destruct (Chat.index_of userId s); reflexivity.
Qed.

Lemma same_value_zero_refl v : primitive v = true -> Chat.same_value_zero v v = true.
Proof.
  destruct v as [| |b|q|s|l|f]; cbn; try reflexivity; try discriminate; intros _.
  - destruct b; reflexivity.
  - apply Qeq_bool_iff. reflexivity.
  - apply String.eqb_refl.
Qed.

Lemma same_value_zero_sym a b : Chat.same_value_zero a b = Chat.same_value_zero b a.
Proof.
  destruct a as [| |x|x|x|x|x], b as [| |y|y|y|y|y]; cbn; try reflexivity.
  - destruct x, y; reflexivity.
  - destruct (Qeq_bool x y) eqn:H1, (Qeq_bool y x) eqn:H2; try reflexivity.
    + apply Qeq_bool_iff in H1. symmetry in H1. apply Qeq_bool_iff in H1. congruence.
    + apply Qeq_bool_iff in H2. symmetry in H2. apply Qeq_bool_iff in H2. congruence.
  - apply String.eqb_sym.
Qed.

Lemma same_value_zero_trans a b c :
  Chat.same_value_zero a b = true -> Chat.same_value_zero b c = true ->
  Chat.same_value_zero a c = true.
Proof.
  destruct a as [| |x|x|x|x|x], b as [| |y|y|y|y|y]; cbn; try discriminate;
    destruct c as [| |z|z|z|z|z]; cbn; try discriminate; try reflexivity.
  - destruct x, y, z; cbn; congruence.
  - intros H1%Qeq_bool_iff H2%Qeq_bool_iff. apply Qeq_bool_iff.
    rewrite H1. exact H2.
  - intros H1%String.eqb_eq H2%String.eqb_eq. subst. apply String.eqb_refl.
Qed.

Lemma index_of_bound u s i : Chat.index_of u s = Some i -> (i < List.length s)%nat.
Proof.
  revert i. induction s as [|[k c] s IH]; intros i; cbn; [discriminate|].
  destruct (Chat.same_value_zero k u).
  - intros [= <-]. lia.
  - destruct (Chat.index_of u s) as [j|]; cbn; [|discriminate].
    intros [= <-]. specialize (IH j eq_refl). lia.
Qed.

Lemma index_of_key u s i :
  Chat.index_of u s = Some i ->
  exists k c, nth_error s i = Some (k, c) /\ Chat.same_value_zero k u = true.
Proof.
  revert i. induction s as [|[k c] s IH]; intros i; cbn; [discriminate|].
  destruct (Chat.same_value_zero k u) eqn:Hk.
  - intros [= <-]. exists k, c. split; [reflexivity|exact Hk].
  - destruct (Chat.index_of u s) as [j|]; cbn; [|discriminate].
    intros [= <-]. exact (IH j eq_refl).
Qed.

(** Keys survive an update; so does every lookup. *)
Lemma index_of_update_at u i f s :
  Chat.index_of u (Chat.update_at i f s) = Chat.index_of u s.
Proof.
  revert i. induction s as [|[k c] s IH]; intros i; [destruct i; reflexivity|].
  destruct i as [|i]; cbn; [reflexivity|]. rewrite IH. reflexivity.
Qed.

Lemma nth_error_update_at i j f s :
  nth_error (Chat.update_at i f s) j =
  if Nat.eqb i j
  then option_map (fun e => (fst e, f (snd e))) (nth_error s j)
  else nth_error s j.
Proof.
  revert i j. induction s as [|[k c] s IH]; intros i j.
  - destruct i, j; cbn; try reflexivity; destruct (Nat.eqb i j); reflexivity.
  - destruct i as [|i], j as [|j]; cbn; try reflexivity. apply IH.
Qed.

Lemma conversation_at_update_at i j f s :
  (i < List.length s)%nat ->
  Chat.conversation_at j (Chat.update_at i f s) =
  if Nat.eqb i j then f (Chat.conversation_at j s) else Chat.conversation_at j s.
Proof.
  intros Hi. unfold Chat.conversation_at. rewrite nth_error_update_at.
  destruct (Nat.eqb_spec i j) as [->|Hne]; [|reflexivity].
  destruct (nth_error s j) as [[k c]|] eqn:Hn; [reflexivity|].
  apply nth_error_None in Hn. lia.
Qed.

Lemma length_update_at i f s : List.length (Chat.update_at i f s) = List.length s.
Proof.
  revert i. induction s as [|[k c] s IH]; intros [|i]; cbn; try reflexivity.
  rewrite IH. reflexivity.
Qed.

Lemma index_of_app u s e :
  Chat.index_of u (s ++ [e]) =
  match Chat.index_of u s with
  | Some i => Some i
  | None => if Chat.same_value_zero (fst e) u then Some (List.length s) else None
  end.
Proof.
  induction s as [|[k c] s IH]; cbn.
  - destruct e as [k c]. cbn. destruct (Chat.same_value_zero k u); reflexivity.
  - destruct (Chat.same_value_zero k u); [reflexivity|]. rewrite IH.
    destruct (Chat.index_of u s); [reflexivity|].
    destruct (Chat.same_value_zero (fst e) u); reflexivity.
Qed.

Lemma conversation_at_app i s e :
  (i < List.length s)%nat ->
  Chat.conversation_at i (s ++ [e]) = Chat.conversation_at i s.
Proof.
  intros Hi. unfold Chat.conversation_at. rewrite nth_error_app1 by exact Hi. reflexivity.
Qed.

Lemma conversation_at_last s k c :
  Chat.conversation_at (List.length s) (s ++ [(k, c)]) = c.
Proof.
  unfold Chat.conversation_at. rewrite nth_error_app2 by lia.
  rewrite Nat.sub_diag. reflexivity.
Qed.

Lemma slot_bound u t s :
  (slot u s < List.length match Chat.index_of u s with
                          | Some _ => s
                          | None => s ++ [(u, Chat.fresh t)]
                          end)%nat.
Proof.
  unfold slot. destruct (Chat.index_of u s) as [i|] eqn:Hi.
  - exact (index_of_bound u s i Hi).
  - rewrite length_app. cbn. lia.
Qed.

(** The conversation behind the reference: the user's own, refreshed,
    or a new one. *)
Lemma conversation_at_slot u t s :
  Chat.conversation_at (slot u s) (contacted u t s) = current u t s.
Proof.
  unfold contacted. rewrite conversation_at_update_at by apply slot_bound.
  rewrite Nat.eqb_refl. unfold current, conversation_of, slot.
  destruct (Chat.index_of u s) as [i|] eqn:Hi; cbn [option_map]; [reflexivity|].
  rewrite conversation_at_last. reflexivity.
Qed.

(** Other users keep what they had. *)
Lemma conversation_of_contacted u v t s :
  Chat.same_value_zero v u = false ->
  conversation_of v (contacted u t s) = conversation_of v s.
Proof.
  intros Hv. unfold contacted, conversation_of. rewrite index_of_update_at.
  assert (Hidx : Chat.index_of v match Chat.index_of u s with
                                 | Some _ => s
                                 | None => s ++ [(u, Chat.fresh t)]
                                 end = Chat.index_of v s).
  { destruct (Chat.index_of u s); [reflexivity|]. rewrite index_of_app. cbn [fst].
    rewrite same_value_zero_sym, Hv. destruct (Chat.index_of v s); reflexivity. }
  rewrite Hidx. destruct (Chat.index_of v s) as [j|] eqn:Hj; cbn [option_map]; [|reflexivity].
  f_equal. rewrite conversation_at_update_at by apply slot_bound.
  assert (Hne : slot u s <> j).
  { unfold slot. destruct (Chat.index_of u s) as [i|] eqn:Hi.
    - intros ->. destruct (index_of_key _ _ _ Hi) as (k & c & Hn & Hk).
      destruct (index_of_key _ _ _ Hj) as (k' & c' & Hn' & Hk').
      rewrite Hn in Hn'. inversion Hn'; subst k' c'.
      rewrite same_value_zero_sym in Hk'.
      rewrite (same_value_zero_trans _ _ _ Hk' Hk) in Hv. discriminate.
    - apply index_of_bound in Hj. lia. }
  apply Nat.eqb_neq in Hne. rewrite Hne.
  destruct (Chat.index_of u s); [reflexivity|].
  apply conversation_at_app. exact (index_of_bound _ _ _ Hj).
Qed.

(** A user [Map] can find again finds the conversation just handed out. *)
Lemma conversation_of_contacted_self u t s :
  primitive u = true ->
  conversation_of u (contacted u t s) = Some (current u t s).
Proof.
  intros Hp.
  assert (Hidx : Chat.index_of u (contacted u t s) = Some (slot u s)).
  { unfold contacted. rewrite index_of_update_at.
    unfold slot. destruct (Chat.index_of u s) eqn:Hi; [exact Hi|].
    rewrite index_of_app, Hi. cbn [fst]. rewrite same_value_zero_refl by exact Hp.
    reflexivity. }
  unfold conversation_of. rewrite Hidx. cbn [option_map]. f_equal.
  apply conversation_at_slot.
Qed.

(** X18. [getUserConversation] never fails and leaves the world alone.
    The conversation it hands out is the one the store held for the
    user, persona and history as they were, or a new empty one at first
    contact, with the last activity set to now; the store finds it again
    under the same user whenever the user id is compared by value; the
    conversation of every other user is as it was. *)
Theorem X18_getUserConversation_finds_or_creates (userId : value) (p : Chat.Process) :
  let s := Chat.userConversations p in
  let t := now (Chat.world p) in
  let p' := snd (Chat.getUserConversation userId p) in
  Chat.world p' = Chat.world p /\
  (exists userConv,
     fst (Chat.getUserConversation userId p) = inr userConv /\
     Chat.conversation_at userConv (Chat.userConversations p') =
       Chat.touched t match conversation_of userId s with
                      | Some c => c
                      | None => Chat.fresh t
                      end) /\
  (primitive userId = true ->
   conversation_of userId (Chat.userConversations p') =
     Some (Chat.touched t match conversation_of userId s with
                          | Some c => c
                          | None => Chat.fresh t
                          end)) /\
  (forall other,
     Chat.same_value_zero other userId = false ->
     conversation_of other (Chat.userConversations p') = conversation_of other s).
Proof.
  cbv zeta. rewrite getUserConversation_run. cbn [fst snd Chat.world Chat.userConversations].
  split; [reflexivity|]. split; [|split].
  - eexists. split; [reflexivity|]. apply conversation_at_slot.
  - intros Hp. apply conversation_of_contacted_self. exact Hp.
  - intros other Ho. apply conversation_of_contacted. exact Ho.
Qed.

(* ===================================================================== *)
(** * What the handlers do to the store                                   *)
(* ===================================================================== *)

(** A computation moves the store along a relation when every run,
    whether it returns or throws, leaves a store related to the one it
    started from. *)
Section Along.

Variable R : Chat.Store -> Chat.Store -> Prop.
Hypothesis R_refl : forall s, R s s.
Hypothesis R_trans : forall a b c, R a b -> R b c -> R a c.

Definition along {A} (c : Chat.Handler A) : Prop :=
  forall p, R (Chat.userConversations p) (Chat.userConversations (snd (c p))).

Lemma along_unit {A} (a : A) : along (Chat.unit_ a).
Proof. intros p. apply R_refl. Qed.

Lemma along_raise {A} e : along (@Chat.raise A e).
Proof. intros p. apply R_refl. Qed.

Lemma along_io {A} (c : M A) : along (Chat.io c).
Proof. intros [s w]. unfold Chat.io. cbn. destruct (c w). apply R_refl. Qed.

Lemma along_read {A} i (field : Chat.Conversation -> A) : along (Chat.read i field).
Proof. intros p. apply R_refl. Qed.

Lemma along_then {A B} (c : Chat.Handler A) (k : A -> Chat.Handler B) :
  along c -> (forall a, along (k a)) -> along (Chat.then_ c k).
Proof.
  intros Hc Hk p. unfold Chat.then_. specialize (Hc p).
  destruct (c p) as [[e|a] p1]; [exact Hc|].
  eapply R_trans; [exact Hc|]. apply Hk.
Qed.

Lemma along_try {A} (c : Chat.Handler A) (h : exn -> Chat.Handler A) :
  along c -> (forall e, along (h e)) -> along (Chat.try_ c h).
Proof.
  intros Hc Hh p. unfold Chat.try_. specialize (Hc p).
  destruct (c p) as [[e|a] p1]; [|exact Hc].
  eapply R_trans; [exact Hc|]. apply Hh.
Qed.

Lemma along_spawn (c : Chat.Handler unit) : along c -> along (Chat.spawn c).
Proof. intros Hc. apply along_try; [exact Hc|]. intros e. apply along_unit. Qed.

(** A property read off the request decides what runs next. *)
Lemma along_then_known {A B} (a : A) (k : A -> Chat.Handler B) :
  along (k a) -> along (Chat.then_ (Chat.io (Val.lift (inr a))) k).
Proof. intros Hk [s w]. exact (Hk (Chat.mkProcess s w)). Qed.

Lemma along_write i f :
  (forall s, R s (Chat.update_at i f s)) -> along (Chat.write i f).
Proof. intros Hf p. apply Hf. Qed.

End Along.

(** ** Histories only grow *)

(** [c'] is [c] with entries added at the end of its history. *)
Definition extends (c c' : Chat.Conversation) : Prop :=
  exists more,
    Chat.conversationHistory c' = Chat.conversationHistory c ++ more.

(** Every conversation is still there, under its key and at its place,
    with nothing taken from its history; there may be new ones. *)
Inductive grows : Chat.Store -> Chat.Store -> Prop :=
| grows_nil s' : grows [] s'
| grows_cons k c c' s s' :
    extends c c' -> grows s s' -> grows ((k, c) :: s) ((k, c') :: s').

Lemma extends_refl c : extends c c.
Proof. exists []. symmetry. apply app_nil_r. Qed.

Lemma extends_trans a b c : extends a b -> extends b c -> extends a c.
Proof.
  intros [m1 H1] [m2 H2]. exists (m1 ++ m2). rewrite H2, H1. symmetry. apply app_assoc.
Qed.

Lemma grows_refl s : grows s s.
Proof. induction s as [|[k c] s IH]; constructor; [apply extends_refl|exact IH]. Qed.

Lemma grows_trans a b c : grows a b -> grows b c -> grows a c.
Proof.
  intros Hab. revert c. induction Hab as [|k x y s s' Hxy Hs IH]; intros c Hbc.
  - constructor.
  - inversion Hbc as [|k' y' z t t' Hyz Ht]; subst.
    constructor; [exact (extends_trans _ _ _ Hxy Hyz)|]. apply IH. exact Ht.
Qed.

Lemma grows_app s more : grows s (s ++ more).
Proof. induction s as [|[k c] s IH]; cbn; constructor; [apply extends_refl|exact IH]. Qed.

Lemma grows_update_at i f s :
  (forall c, extends c (f c)) -> grows s (Chat.update_at i f s).
Proof.
  intros Hf. revert i. induction s as [|[k c] s IH]; intros [|i]; cbn;
    constructor; auto using extends_refl, grows_refl.
Qed.

Lemma extends_touched t c : extends c (Chat.touched t c).
Proof. exists []. cbn. symmetry. apply app_nil_r. Qed.

Lemma extends_selecting v c : extends c (Chat.selecting v c).
Proof. exists []. cbn. symmetry. apply app_nil_r. Qed.

Lemma extends_pushed entries c : extends c (Chat.pushed entries c).
Proof. exists entries. reflexivity. Qed.

Lemma grows_conversation_of u s s' c :
  grows s s' -> conversation_of u s = Some c ->
  exists c', conversation_of u s' = Some c' /\ extends c c'.
Proof.
  unfold conversation_of. intros Hg. revert c.
  induction Hg as [|k x y s s' Hxy Hs IH]; intros c; cbn; [discriminate|].
  destruct (Chat.same_value_zero k u); cbn.
  - intros [= <-]. exists y. split; [reflexivity|exact Hxy].
  - destruct (Chat.index_of u s) as [i|]; cbn; [|discriminate].
    intros [= <-]. destruct (IH _ eq_refl) as (c' & Hc' & He).
    destruct (Chat.index_of u s') as [j|]; cbn in *; [|discriminate].
    exists c'. split; [exact Hc'|exact He].
Qed.

Lemma getUserConversation_grows userId : along grows (Chat.getUserConversation userId).
Proof.
  intros p. rewrite getUserConversation_run. cbn [snd Chat.userConversations].
  unfold contacted. eapply grows_trans; [|apply grows_update_at, extends_touched].
  destruct (Chat.index_of userId _); [apply grows_refl|apply grows_app].
Qed.

(** ** Only the conversation behind a reference changes *)

Definition only (i : nat) (s s' : Chat.Store) : Prop :=
  map fst s' = map fst s /\
  forall j, j <> i -> nth_error s' j = nth_error s j.

Lemma only_refl i s : only i s s.
Proof. split; [reflexivity|]. intros j _. reflexivity. Qed.

Lemma only_trans i a b c : only i a b -> only i b c -> only i a c.
Proof.
  intros [K1 N1] [K2 N2]. split; [congruence|].
  intros j Hj. rewrite N2, N1 by exact Hj. reflexivity.
Qed.

Lemma keys_update_at i f s : map fst (Chat.update_at i f s) = map fst s.
Proof.
  revert i. induction s as [|[k c] s IH]; intros [|i]; cbn; try reflexivity.
  rewrite IH. reflexivity.
Qed.

Lemma only_update_at i f s : only i s (Chat.update_at i f s).
Proof.
  split; [apply keys_update_at|]. intros j Hj. rewrite nth_error_update_at.
  apply Nat.eqb_neq in Hj. rewrite Nat.eqb_sym, Hj. reflexivity.
Qed.

Lemma index_of_keys u s s' : map fst s' = map fst s -> Chat.index_of u s' = Chat.index_of u s.
Proof.
  revert s'. induction s as [|[k c] s IH]; intros [|[k' c'] s']; cbn; try discriminate;
    [reflexivity|].
  intros [= -> Hk]. rewrite (IH _ Hk). reflexivity.
Qed.

Lemma only_conversation_of i u s s' :
  only i s s' -> Chat.index_of u s <> Some i ->
  conversation_of u s' = conversation_of u s.
Proof.
  intros [K N] Hi. unfold conversation_of. rewrite (index_of_keys u s s' K).
  destruct (Chat.index_of u s) as [j|]; cbn; [|reflexivity].
  unfold Chat.conversation_at. rewrite N by congruence. reflexivity.
Qed.

(** The conversation of [v] is what it was. *)
Definition same_for (v : value) (s s' : Chat.Store) : Prop :=
  conversation_of v s' = conversation_of v s.

Lemma same_for_refl v s : same_for v s s.
Proof. reflexivity. Qed.

Lemma same_for_trans v a b c : same_for v a b -> same_for v b c -> same_for v a c.
Proof. unfold same_for. congruence. Qed.

Lemma index_of_contacted_other u v t s :
  Chat.same_value_zero v u = false ->
  Chat.index_of v (contacted u t s) <> Some (slot u s).
Proof.
  intros Hv Hi. unfold contacted in Hi. rewrite index_of_update_at in Hi.
  destruct (index_of_key _ _ _ Hi) as (k & c & Hn & Hk).
  unfold slot in *. destruct (Chat.index_of u s) as [i|] eqn:Hu.
  - destruct (index_of_key _ _ _ Hu) as (k' & c' & Hn' & Hk').
    rewrite Hn in Hn'. inversion Hn'; subst k' c'.
    rewrite same_value_zero_sym in Hk.
    rewrite (same_value_zero_trans _ _ _ Hk Hk') in Hv. discriminate.
  - rewrite nth_error_app2, Nat.sub_diag in Hn by lia. cbn in Hn.
    inversion Hn; subst k c. rewrite same_value_zero_sym, Hv in Hk. discriminate.
Qed.

(** Once the conversation of [u] is looked up, whatever changes only the
    conversation behind the reference leaves every other user's alone. *)
Lemma same_for_after_contact {B} v u (rest : nat -> Chat.Handler B) :
  Chat.same_value_zero v u = false ->
  (forall i, along (only i) (rest i)) ->
  along (same_for v) (Chat.then_ (Chat.getUserConversation u) rest).
Proof.
  intros Hv Hrest p. unfold Chat.then_. rewrite getUserConversation_run.
  unfold same_for.
  rewrite (only_conversation_of (slot u (Chat.userConversations p)) v _ _ (Hrest _ _)).
  - cbn [Chat.userConversations]. apply conversation_of_contacted. exact Hv.
  - cbn [Chat.userConversations]. apply index_of_contacted_other. exact Hv.
Qed.

(** Stepping through a handler, one construct at a time. *)
Ltac preorder :=
  first [ exact (only_refl _) | exact (only_trans _)
        | exact grows_refl | exact grows_trans
        | exact (same_for_refl _) | exact (same_for_trans _) ].

Ltac along_step :=
  lazymatch goal with
  | |- along _ (Chat.then_ _ _) => apply along_then; [preorder| |intros ?]
  | |- along _ (Chat.try_ _ _) => apply along_try; [preorder| |intros ?]
  | |- along _ (Chat.spawn _) => apply along_spawn; [preorder|preorder|]
  | |- along _ (Chat.unit_ _) => apply along_unit; preorder
  | |- along _ (Chat.raise _) => apply along_raise; preorder
  | |- along _ (Chat.io _) => apply along_io; preorder
  | |- along _ (Chat.read _ _) => apply along_read; preorder
  | |- along _ (if ?b then _ else _) => destruct b
  | |- along _ (match ?x with _ => _ end) => destruct x
  end.

Ltac only_steps :=
  repeat lazymatch goal with
         | |- along (only _) (Chat.write _ _) => apply along_write, only_update_at
         | |- _ => along_step
         end.

Ltac grows_steps :=
  repeat lazymatch goal with
         | |- along grows (Chat.write _ _) =>
             apply along_write; intros ?; apply grows_update_at; intros ?;
             first [ apply extends_touched | apply extends_selecting
                   | apply extends_pushed ]
         | |- along grows (Chat.getUserConversation _) => apply getUserConversation_grows
         | |- _ => along_step
         end.

Ltac known_property :=
  cbv beta;
  match goal with
  | H : Val.prop ?x ?k = inr _ |- context [Val.prop ?x ?k] => rewrite H
  end.

Ltac same_for_steps :=
  repeat first
    [ known_property
    | lazymatch goal with
      | |- along (same_for _) (Chat.then_ (Chat.io (Val.lift (inr _))) _) =>
          apply along_then_known
      | |- along (same_for _) (Chat.then_ (Chat.getUserConversation _) _) =>
          apply same_for_after_contact; [assumption|intros ?; only_steps]
      | |- along (same_for _) (Chat.then_ (Chat.io _) _) =>
          apply along_then; [preorder|apply along_io; preorder|intros ?]
      | |- along (same_for _) (Chat.then_ (Chat.unit_ _) _) =>
          apply along_then; [preorder|apply along_unit; preorder|intros ?]
      | |- along (same_for _) (Chat.then_ (Chat.raise _) _) =>
          apply along_then; [preorder|apply along_raise; preorder|intros ?]
      | |- along (same_for _) (Chat.then_ (match ?x with _ => _ end) _) => destruct x
      | |- along (same_for _) (Chat.then_ _ _) => fail
      | |- along (same_for _) (Chat.write _ _) => fail
      | |- _ => along_step
      end ].

Section Frames.

Variable E : Env.
Variable JSON_stringify : value -> string.
Variable generate_voice : value -> value -> M unit.

Lemma answer_only i channel message :
  along (only i) (Chat.answer E JSON_stringify i channel message).
Proof. unfold Chat.answer. only_steps. Qed.

Lemma handleChatCommand_grows payload :
  along grows (Chat.handleChatCommand E JSON_stringify payload).
Proof. unfold Chat.handleChatCommand, Chat.answer. grows_steps. Qed.

Lemma handleSlackEvent_grows event :
  along grows (Chat.handleSlackEvent E JSON_stringify event).
Proof.
  unfold Chat.handleSlackEvent, Chat.handleAppMention, Chat.handleDirectMessage,
    Chat.answer.
  grows_steps.
Qed.

Lemma handleInteractivePayload_grows payload :
  along grows (Chat.handleInteractivePayload E generate_voice payload).
Proof. unfold Chat.handleInteractivePayload. grows_steps. Qed.

Lemma handleChatCommand_same_for v u payload :
  Chat.same_value_zero v u = false ->
  Val.prop payload "user_id" = inr u ->
  along (same_for v) (Chat.handleChatCommand E JSON_stringify payload).
Proof.
  intros Hv Hu. unfold Chat.handleChatCommand, Chat.answer. same_for_steps.
Qed.

Lemma handleSlackEvent_same_for v u event :
  Chat.same_value_zero v u = false ->
  Val.prop event "user" = inr u ->
  along (same_for v) (Chat.handleSlackEvent E JSON_stringify event).
Proof.
  intros Hv Hu.
  unfold Chat.handleSlackEvent, Chat.handleAppMention, Chat.handleDirectMessage,
    Chat.answer.
  same_for_steps.
Qed.

Lemma handleInteractivePayload_same_for v u user payload :
  Chat.same_value_zero v u = false ->
  Val.prop payload "user" = inr user ->
  Val.prop user "id" = inr u ->
  along (same_for v) (Chat.handleInteractivePayload E generate_voice payload).
Proof.
  intros Hv Huser Hu. unfold Chat.handleInteractivePayload. same_for_steps.
Qed.

End Frames.

(** X19. A request changes the conversation of the user it acts for and
    no other: after [/chat], after an event and after an interaction on
    behalf of one user, whether the handler returns or throws, every user
    [Map] tells apart from that one has the conversation they had. *)
Theorem X19_handlers_leave_other_users_alone
    (E : Env) (JSON_stringify : value -> string)
    (generate_voice : value -> value -> M unit)
    (userId other : value) (p : Chat.Process) :
  Chat.same_value_zero other userId = false ->
  (forall payload,
     Val.prop payload "user_id" = inr userId ->
     conversation_of other
       (Chat.userConversations (snd (Chat.handleChatCommand E JSON_stringify payload p))) =
     conversation_of other (Chat.userConversations p)) /\
  (forall event,
     Val.prop event "user" = inr userId ->
     conversation_of other
       (Chat.userConversations (snd (Chat.handleSlackEvent E JSON_stringify event p))) =
     conversation_of other (Chat.userConversations p)) /\
  (forall payload user,
     Val.prop payload "user" = inr user ->
     Val.prop user "id" = inr userId ->
     conversation_of other
       (Chat.userConversations
          (snd (Chat.handleInteractivePayload E generate_voice payload p))) =
     conversation_of other (Chat.userConversations p)).
Proof.
  intros Ho. split; [|split].
  - intros payload Hu.
    exact (handleChatCommand_same_for E JSON_stringify other userId payload Ho Hu p).
  - intros event Hu.
    exact (handleSlackEvent_same_for E JSON_stringify other userId event Ho Hu p).
  - intros payload user Huser Hu.
    exact (handleInteractivePayload_same_for E generate_voice other userId user payload
             Ho Huser Hu p).
Qed.

(** What the process goes through between two moments: commands, events
    and interactions handled one after the other, and anything else that
    changes the world only. *)
Inductive served (E : Env) (JSON_stringify : value -> string)
    (generate_voice : value -> value -> M unit) : Chat.Process -> Chat.Process -> Prop :=
| served_none p :
    served E JSON_stringify generate_voice p p
| served_command payload p p' :
    served E JSON_stringify generate_voice
           (snd (Chat.handleChatCommand E JSON_stringify payload p)) p' ->
    served E JSON_stringify generate_voice p p'
| served_event event p p' :
    served E JSON_stringify generate_voice
           (snd (Chat.handleSlackEvent E JSON_stringify event p)) p' ->
    served E JSON_stringify generate_voice p p'
| served_interaction payload p p' :
    served E JSON_stringify generate_voice
           (snd (Chat.handleInteractivePayload E generate_voice payload p)) p' ->
    served E JSON_stringify generate_voice p p'
| served_elsewhere w p p' :
    served E JSON_stringify generate_voice
           (Chat.mkProcess (Chat.userConversations p) w) p' ->
    served E JSON_stringify generate_voice p p'.

Lemma served_grows E JSON_stringify generate_voice p p' :
  served E JSON_stringify generate_voice p p' ->
  grows (Chat.userConversations p) (Chat.userConversations p').
Proof.
  induction 1 as [p|payload p p' _ IH|event p p' _ IH|payload p p' _ IH|w p p' _ IH].
  - apply grows_refl.
  - eapply grows_trans; [apply handleChatCommand_grows|exact IH].
  - eapply grows_trans; [apply handleSlackEvent_grows|exact IH].
  - eapply grows_trans; [apply handleInteractivePayload_grows|exact IH].
  - exact IH.
Qed.

(** X20. Nothing recorded is ever lost: over any sequence of commands,
    events and interactions, failed ones included, a user who has a
    conversation keeps one, and its history at the end is the history at
    the start with entries added after it. *)
Theorem X20_recorded_history_is_never_lost
    (E : Env) (JSON_stringify : value -> string)
    (generate_voice : value -> value -> M unit)
    (p p' : Chat.Process) (userId : value) (c : Chat.Conversation) :
  served E JSON_stringify generate_voice p p' ->
  conversation_of userId (Chat.userConversations p) = Some c ->
  exists c' more,
    conversation_of userId (Chat.userConversations p') = Some c' /\
    Chat.conversationHistory c' = Chat.conversationHistory c ++ more.
Proof.
  intros Hs Hc. apply served_grows in Hs.
  destruct (grows_conversation_of _ _ _ _ Hs Hc) as (c' & Hc' & more & Hm).
  exists c', more. split; [exact Hc'|exact Hm].
Qed.

(* ===================================================================== *)
(** * Events                                                              *)
(* ===================================================================== *)

(** What [postSlackMessage] and [postEphemeralMessage] come to: nothing
    without a bot token, one call otherwise, which fails only when the
    network does. *)
Definition posted (E : Env) (call : NetCall) (w : World) : (exn + unit) * World :=
  if (SLACK_BOT_TOKEN E =? "")%string then (inr tt, w)
  else (match reply E (fetches w) call with
        | NetworkError => inl "TypeError: fetch failed"%string
        | Responded _ _ => inr tt
        end, Tree.fired E call w).

Lemma postSlackMessage_posted E channel text blocks w :
  Slack.postSlackMessage E channel text blocks w =
    posted E (ChatPostMessage channel text (Val.if_truthy blocks)) w.
Proof.
  unfold Slack.postSlackMessage, posted.
  destruct (SLACK_BOT_TOKEN E =? "")%string; [reflexivity|].
  cbv [bind]. rewrite fetch_run. destruct (reply E _ _); reflexivity.
Qed.

Lemma postEphemeralMessage_posted E channel user text blocks w :
  Slack.postEphemeralMessage E channel user text blocks w =
    posted E (ChatPostEphemeral channel user text (Val.if_truthy blocks)) w.
Proof.
  unfold Slack.postEphemeralMessage, posted.
  destruct (SLACK_BOT_TOKEN E =? "")%string; [reflexivity|].
  cbv [bind]. rewrite fetch_run. destruct (reply E _ _); reflexivity.
Qed.

(** The calls a post makes. *)
Definition sent (E : Env) (call : NetCall) : list NetCall :=
  if (SLACK_BOT_TOKEN E =? "")%string then [] else [call].

Lemma trace_posted E call w :
  trace (snd (posted E call w)) =
  trace w ++ (if (SLACK_BOT_TOKEN E =? "")%string then [] else [Net (now w) call]).
Proof.
  unfold posted. destruct (SLACK_BOT_TOKEN E =? "")%string; cbn [snd].
  - symmetry. apply app_nil_r.
  - apply trace_fired.
Qed.

Lemma calls_app evs1 evs2 : calls (evs1 ++ evs2) = calls evs1 ++ calls evs2.
Proof.
  induction evs1 as [|[f|t c|r] evs1 IH]; cbn; [reflexivity| | |]; rewrite ?IH; reflexivity.
Qed.

(** [v.k] of a value that is neither [null] nor [undefined]. *)
Lemma prop_optional v k : Val.truthy v = true -> Val.prop v k = inr (Chat.optional v k).
Proof.
  unfold Chat.optional. destruct v; cbn; try discriminate; intros _; try reflexivity.
  destruct (Val.lookup fields k); reflexivity.
Qed.

(** The kinds of events. *)
Definition of_type (event : value) (type : string) : bool :=
  Slack.str_eq (Chat.optional event "type") type.

Definition direct (event : value) : bool :=
  of_type event "message" && Slack.str_eq (Chat.optional event "channel_type") "im".

Definition from_bot (event : value) : bool :=
  Slack.str_eq (Chat.optional event "subtype") "bot_message" ||
  Val.truthy (Chat.optional event "bot_id").

Ltac handler_step :=
  cbv beta iota zeta
      delta [Chat.then_ Chat.io Chat.try_ Chat.spawn Chat.unit_ Chat.raise Chat.read
             Chat.write Val.lift ret throw Slack.res_send emit modify];
  cbn [Chat.userConversations Chat.world fst snd].

(** Whether a post goes through. *)
Definition delivered (E : Env) (call : NetCall) (w : World) : bool :=
  (SLACK_BOT_TOKEN E =? "")%string ||
  match reply E (fetches w) call with
  | NetworkError => false
  | Responded _ _ => true
  end.

Lemma posted_spec E call w :
  exists w1,
    posted E call w =
      (if delivered E call w then inr tt else inl "TypeError: fetch failed"%string, w1) /\
    trace w1 = trace w ++ map (Net (now w)) (sent E call).
Proof.
  unfold posted, delivered, sent.
  destruct (SLACK_BOT_TOKEN E =? "")%string; cbn [orb map].
  - exists w. split; [reflexivity|]. symmetry. apply app_nil_r.
  - eexists. split; [|apply trace_fired]. destruct (reply E _ _); reflexivity.
Qed.

Lemma calls_nets t l : calls (map (Net t) l) = l.
Proof. induction l as [|c l IH]; cbn; [reflexivity|]. rewrite IH. reflexivity. Qed.

Lemma index_of_contacted_self u t s :
  primitive u = true -> Chat.index_of u (contacted u t s) = Some (slot u s).
Proof.
  intros Hp. unfold contacted. rewrite index_of_update_at.
  unfold slot. destruct (Chat.index_of u s) eqn:Hi; [exact Hi|].
  rewrite index_of_app, Hi. cbn [fst]. rewrite same_value_zero_refl by exact Hp.
  reflexivity.
Qed.

Lemma length_contacted u t s : (slot u s < List.length (contacted u t s))%nat.
Proof. unfold contacted. rewrite length_update_at. apply slot_bound. Qed.

(** The conversation of a user after a write through the reference
    [getUserConversation] handed out. *)
Lemma conversation_of_written u t s f :
  primitive u = true ->
  conversation_of u (Chat.update_at (slot u s) f (contacted u t s)) =
    Some (f (current u t s)).
Proof.
  intros Hp. unfold conversation_of.
  rewrite index_of_update_at, index_of_contacted_self by exact Hp.
  cbn [option_map]. rewrite conversation_at_update_at by apply length_contacted.
  rewrite Nat.eqb_refl, conversation_at_slot. reflexivity.
Qed.

Lemma same_value_zero_primitive k u : Chat.same_value_zero k u = true -> primitive u = true.
Proof. destruct k, u; cbn; congruence. Qed.

(** A user with a persona selected is one [Map] finds again. *)
Lemma selected_primitive u t s :
  Val.truthy (Chat.selectedPersona (current u t s)) = true -> primitive u = true.
Proof.
  unfold current, conversation_of.
  destruct (Chat.index_of u s) as [i|] eqn:Hi; cbn; [|discriminate].
  intros _. destruct (index_of_key _ _ _ Hi) as (k & c & _ & Hk).
  exact (same_value_zero_primitive _ _ Hk).
Qed.

Section Events.

Variable E : Env.
Variable JSON_stringify : value -> string.

(** A value with a primitive form has a string form. *)
Lemma interpolated_convertible v :
  Val.convertible v = true -> exists s, Chat.interpolated E v = inr s.
Proof.
  intros H. unfold Chat.interpolated. destruct v; try rewrite H; eauto.
Qed.

Lemma interpolated_not_convertible v :
  Val.convertible v = false ->
  Chat.interpolated E v = inl "TypeError: Cannot convert object to primitive value"%string.
Proof.
  unfold Chat.interpolated. destruct v; intros H; try discriminate H; rewrite H; reflexivity.
Qed.

(** An object with a [toString] property of its own has no primitive
    form. *)
Lemma own_toString_not_convertible fields :
  In "toString"%string (map fst fields) -> Val.convertible (JObj fields) = false.
Proof.
  intros H. cbn [Val.convertible]. apply negb_false_iff. apply existsb_exists.
  apply in_map_iff in H. destruct H as (kv & Hk & Hin).
  exists kv. split; [exact Hin|]. rewrite Hk. reflexivity.
Qed.

Lemma interpolated_string v s : Slack.str_eq v s = true -> Chat.interpolated E v = inr s.
Proof.
  destruct v; cbn; try discriminate. intros H. apply String.eqb_eq in H. subst. reflexivity.
Qed.

(** X21. The bot does not answer itself, nor what is not addressed to
    it: an event whose type has a string form and that is no mention and
    no direct message of a person (another type, a message in a channel,
    a message of a bot) is dropped; no conversation is created or changed
    and no call goes out.  An event whose type has no string form makes
    the handler throw, as early: nothing is created, changed or sent. *)
Theorem X21_unaddressed_events_are_dropped (event : value) (p : Chat.Process) :
  Val.truthy event = true ->
  of_type event "app_mention" = false ->
  direct event && negb (from_bot event) = false ->
  Chat.handleSlackEvent E JSON_stringify event p =
    (if Val.convertible (Chat.optional event "type") then inr tt
     else inl "TypeError: Cannot convert object to primitive value"%string, p) /\
  (forall fields,
     Chat.optional event "type" = JObj fields ->
     In "toString"%string (map fst fields) ->
     Chat.handleSlackEvent E JSON_stringify event p =
       (inl "TypeError: Cannot convert object to primitive value"%string, p)).
Proof.
  intros Ht Hm Hd.
  assert (Hrun :
    Chat.handleSlackEvent E JSON_stringify event p =
      (if Val.convertible (Chat.optional event "type") then inr tt
       else inl "TypeError: Cannot convert object to primitive value"%string, p)).
  2: { split; [exact Hrun|]. intros fields Hf Hown. rewrite Hrun, Hf.
       rewrite (own_toString_not_convertible _ Hown). reflexivity. }
  destruct p as [s w].
  unfold Chat.handleSlackEvent, Chat.handleDirectMessage.
  rewrite !(prop_optional event) by exact Ht. handler_step.
  destruct (Val.convertible (Chat.optional event "type")) eqn:Hc.
  2: { rewrite (interpolated_not_convertible _ Hc). reflexivity. }
  destruct (interpolated_convertible _ Hc) as [shown Hshown]. rewrite Hshown.
  unfold direct, from_bot, of_type in *. handler_step. rewrite Hm.
  destruct (Slack.str_eq (Chat.optional event "type") "message"); [|reflexivity].
  destruct (Slack.str_eq (Chat.optional event "channel_type") "im"); [|reflexivity].
  cbn [andb negb] in Hd. apply negb_false_iff in Hd. rewrite Hd. reflexivity.
Qed.



(** X22. A direct message of a person who has no persona selected is
    not answered by a persona.  When its text has a string form, the bot
    posts the persona picker, quoting that form, to the channel the
    message came from; when the post goes through the message is queued
    as the one new entry of the user's history; when the network fails
    the handler throws and the message is not recorded.  When the text
    has no string form the handler throws before it posts: no call goes
    out and the message is not recorded. *)
Theorem X22_first_direct_message_is_queued (event : value) (p : Chat.Process) :
  let s := Chat.userConversations p in
  let w := Chat.world p in
  let user := Chat.optional event "user" in
  let channel := Chat.optional event "channel" in
  let text := Chat.optional event "text" in
  let before := current user (now w) s in
  let prompt (said : string) :=
    ChatPostMessage channel ""
      (Some (JArr (Chat.section ("üëã Hi! I'm DigitalTwinBot. I can help you chat with digital twin personas of famous innovators." ++ JS.newline ++ JS.newline ++ "You said: " ++ JS.dquote ++ said ++ JS.dquote ++ JS.newline ++ JS.newline ++ "Who would you like to discuss this with?")%string
                   :: tl Chat.createPersonaSelectionBlocks))) in
  let run := Chat.handleSlackEvent E JSON_stringify event p in
  Val.truthy event = true ->
  direct event = true ->
  from_bot event = false ->
  primitive user = true ->
  Val.truthy (Chat.selectedPersona before) = false ->
  (forall said,
     Chat.interpolated E text = inr said ->
     fst run = (if delivered E (prompt said) w then inr tt
                else inl "TypeError: fetch failed"%string) /\
     calls (added w (Chat.world (snd run))) = sent E (prompt said) /\
     conversation_of user (Chat.userConversations (snd run)) =
       Some (if delivered E (prompt said) w
             then Chat.pushed [Chat.mkEntry "user" text None] before
             else before)) /\
  let thrown :=
    fst run = inl "TypeError: Cannot convert object to primitive value"%string /\
    calls (added w (Chat.world (snd run))) = [] /\
    conversation_of user (Chat.userConversations (snd run)) = Some before in
  (Val.convertible text = false -> thrown) /\
  (forall fields, text = JObj fields -> In "toString"%string (map fst fields) -> thrown).
Proof.
  cbv zeta. destruct p as [s w]. cbn [Chat.userConversations Chat.world].
  intros Ht Hd Hb Hp Hsel. unfold direct, from_bot, of_type in *.
  apply andb_true_iff in Hd. destruct Hd as [Hty Hch].
  assert (Hm : Slack.str_eq (Chat.optional event "type") "app_mention" = false).
  { destruct (Chat.optional event "type"); try discriminate Hty. cbn in *.
    apply String.eqb_eq in Hty. subst. reflexivity. }
  unfold Chat.handleSlackEvent, Chat.handleDirectMessage.
  rewrite !(prop_optional event) by exact Ht. handler_step.
  rewrite (interpolated_string _ _ Hty). handler_step.
  rewrite Hm, Hty, Hch, Hb. rewrite getUserConversation_run. handler_step.
  rewrite conversation_at_slot, Hsel. cbn [negb].
  split.
  2: { match goal with
       | |- (?A -> ?T) /\ _ => assert (Hthrown : A -> T); [|split; [exact Hthrown|]]
       end.
       2: { intros fields Hf Hown. apply Hthrown. rewrite Hf.
            apply own_toString_not_convertible. exact Hown. }
       intros Hc.
       rewrite (interpolated_not_convertible _ Hc). handler_step.
       split; [reflexivity|]. split.
       - rewrite (added_app w w []); [reflexivity|symmetry; apply app_nil_r].
       - apply conversation_of_contacted_self. exact Hp. }
  intros said Hsaid. rewrite Hsaid. handler_step.
  rewrite postSlackMessage_posted. cbn [Val.if_truthy Val.truthy].
  unfold Chat.queued_prompt.
  match goal with
  | |- context [posted E ?c w] => destruct (posted_spec E c w) as (w1 & -> & Htr)
  end.
  destruct (delivered E _ w); cbn [fst snd Chat.userConversations Chat.world].
  - split; [reflexivity|]. split.
    + rewrite (added_app w w1 _ Htr). apply calls_nets.
    + apply conversation_of_written. exact Hp.
  - split; [reflexivity|]. split.
    + rewrite (added_app w w1 _ Htr). apply calls_nets.
    + apply conversation_of_contacted_self. exact Hp.
Qed.

(** X23. A direct message of a person with a persona selected is
    answered as that persona: the exchange (the message, then the answer
    under the persona) is added to the user's history, before anything
    is posted and so whatever the network does, and the answer is posted
    to the channel the message came from; one apology follows when that
    post fails. *)
Theorem X23_direct_message_is_answered (event : value) (p : Chat.Process) :
  let s := Chat.userConversations p in
  let w := Chat.world p in
  let user := Chat.optional event "user" in
  let channel := Chat.optional event "channel" in
  let text := Chat.optional event "text" in
  let before := current user (now w) s in
  let selected := Chat.selectedPersona before in
  let response := Chat.generatePersonaResponse E selected text in
  let answer :=
    ChatPostMessage channel ""
      (Some (JArr (Chat.createConversationBlocks JSON_stringify selected text response))) in
  let apology :=
    ChatPostMessage channel
      "Sorry, I encountered an error processing your message. Please try again or use `/chat` command."
      None in
  let run := Chat.handleSlackEvent E JSON_stringify event p in
  Val.truthy event = true ->
  direct event = true ->
  from_bot event = false ->
  Val.truthy selected = true ->
  conversation_of user (Chat.userConversations (snd run)) =
    Some (Chat.pushed [Chat.mkEntry "user" text None;
                       Chat.mkEntry "assistant" (JStr response) (Some selected)]
                      before) /\
  calls (added w (Chat.world (snd run))) =
    (if delivered E answer w then sent E answer else [answer; apology]) /\
  (delivered E answer w = true -> fst run = inr tt).
Proof.
  cbv zeta. destruct p as [s w]. cbn [Chat.userConversations Chat.world].
  intros Ht Hd Hb Hsel. unfold direct, from_bot, of_type in *.
  assert (Hp := selected_primitive _ _ _ Hsel).
  apply andb_true_iff in Hd. destruct Hd as [Hty Hch].
  assert (Hm : Slack.str_eq (Chat.optional event "type") "app_mention" = false).
  { destruct (Chat.optional event "type"); try discriminate Hty. cbn in *.
    apply String.eqb_eq in Hty. subst. reflexivity. }
  unfold Chat.handleSlackEvent, Chat.handleDirectMessage, Chat.answer.
  rewrite !(prop_optional event) by exact Ht. handler_step.
  rewrite (interpolated_string _ _ Hty). handler_step.
  rewrite Hm, Hty, Hch, Hb. rewrite getUserConversation_run. handler_step.
  rewrite conversation_at_slot, Hsel. cbn [negb]. handler_step.
  rewrite conversation_at_slot.
  rewrite postSlackMessage_posted. cbn [Val.if_truthy Val.truthy].
  match goal with
  | |- context [posted E ?c w] => destruct (posted_spec E c w) as (w1 & -> & Htr)
  end.
  unfold Chat.exchange.
  destruct (delivered E _ w) eqn:Hdel; cbn [fst snd Chat.userConversations Chat.world].
  - split; [apply conversation_of_written; exact Hp|]. split; [|reflexivity].
    rewrite (added_app w w1 _ Htr). apply calls_nets.
  - rewrite postSlackMessage_posted. cbn [Val.if_truthy].
    match goal with
    | |- context [posted E ?c w1] => destruct (posted_spec E c w1) as (w2 & -> & Htr2)
    end.
    cbn [fst snd Chat.userConversations Chat.world].
    split; [apply conversation_of_written; exact Hp|]. split; [|discriminate].
    assert (Htok : (SLACK_BOT_TOKEN E =? "")%string = false).
    { unfold delivered in Hdel. apply orb_false_iff in Hdel. apply Hdel. }
    unfold sent in Htr, Htr2. rewrite Htok in Htr, Htr2. cbn [map] in Htr, Htr2.
    rewrite Htr, <- app_assoc in Htr2. rewrite (added_app w w2 _ Htr2). reflexivity.
Qed.

End Events.

(* ===================================================================== *)
(** * Choosing a persona and chatting                                     *)
(* ===================================================================== *)

(** An interaction of [userId] whose first action is [action]. *)
Definition pressed (interaction userId action : value) : Prop :=
  Val.truthy interaction = true /\
  Val.prop (Chat.optional interaction "user") "id" = inr userId /\
  exists others, Chat.optional interaction "actions" = JArr (action :: others).

(** A [/chat] command of [userId] with [message] left after trimming. *)
Definition chats (command userId : value) (message : string) : Prop :=
  Val.truthy command = true /\
  Chat.optional command "user_id" = userId /\
  exists text, Chat.optional command "text" = JStr text /\ JS.trim text = message.

Lemma prop_present v k x :
  Chat.optional v k = JStr x -> forall k', Val.prop v k' = inr (Chat.optional v k').
Proof.
  intros H k'. apply prop_optional. unfold Chat.optional in H.
  destruct v; cbn in *; try discriminate; reflexivity.
Qed.

Lemma responses_nets t l : responses (map (Net t) l) = [].
Proof. induction l as [|c l IH]; cbn; [reflexivity|exact IH]. Qed.

Lemma current_written u t t' s f :
  primitive u = true ->
  current u t' (Chat.update_at (slot u s) f (contacted u t s)) =
    Chat.touched t' (f (current u t s)).
Proof.
  intros Hp. unfold current at 1. rewrite conversation_of_written by exact Hp. reflexivity.
Qed.

Section Choosing.

Variable E : Env.
Variable JSON_stringify : value -> string.
Variable generate_voice : value -> value -> M unit.

(** The store after a persona is selected or given up. *)
Lemma selection_run interaction userId action (selected : value) s w :
  pressed interaction userId action ->
  (Chat.optional action "action_id" = JStr "select_persona" /\
   Chat.optional (Chat.optional action "selected_option") "value" = selected /\
   Val.truthy selected = true) \/
  (Chat.optional action "action_id" = JStr "switch_persona" /\ selected = JUndefined) ->
  Chat.userConversations
    (snd (Chat.handleInteractivePayload E generate_voice interaction (Chat.mkProcess s w))) =
    Chat.update_at (slot userId s) (Chat.selecting selected) (contacted userId (now w) s).
Proof.
  intros (Ht & Hid & others & Hact) Hcase.
  unfold Chat.handleInteractivePayload.
  rewrite !(prop_optional interaction) by exact Ht. handler_step.
  rewrite Hid. handler_step. rewrite getUserConversation_run. handler_step.
  rewrite Hact. cbn [Val.truthy negb orb Chat.length_is_zero List.length Nat.eqb Chat.first nth].
  destruct Hcase as [(Hid' & Hsel & Htr)|(Hid' & ->)];
    rewrite !(prop_present action _ _ Hid'); handler_step; rewrite Hid';
    cbn [Slack.str_eq String.eqb Ascii.eqb Bool.eqb].
  - rewrite Hsel, Htr. handler_step.
    destruct (Chat.channel_of interaction _) as [[e|channel] w1]; [reflexivity|].
    destruct (Slack.postEphemeralMessage E _ _ _ _ _) as [r w2]. reflexivity.
  - destruct (Chat.channel_of interaction _) as [[e|channel] w1]; [reflexivity|].
    destruct (Slack.postEphemeralMessage E _ _ _ _ _) as [r w2]. reflexivity.
Qed.

(** [/chat] with a message, by whether the user has a persona. *)
Lemma chat_run command userId message s w :
  chats command userId message ->
  message <> ""%string ->
  primitive userId = true ->
  let before := current userId (now w) s in
  let selected := Chat.selectedPersona before in
  let run := Chat.handleChatCommand E JSON_stringify command (Chat.mkProcess s w) in
  fst run = inr tt /\
  if Val.truthy selected then
    responses (added w (Chat.world (snd run))) =
      [mkRes 200 None (Text (Chat.thinking selected))] /\
    conversation_of userId (Chat.userConversations (snd run)) =
      Some (Chat.pushed
              (Chat.exchange selected (JStr message)
                 (Chat.generatePersonaResponse E selected (JStr message)))
              before)
  else
    added w (Chat.world (snd run)) =
      [Respond (mkRes 200 None
                  (Json (Chat.selection_prompt "Please select a persona first:")))] /\
    conversation_of userId (Chat.userConversations (snd run)) = Some before.
Proof.
  intros (Ht & Hu & text & Htext & Htrim) Hne Hp. cbv zeta.
  unfold Chat.handleChatCommand, Slack.trimmed_text, Chat.answer.
  rewrite !(prop_optional command) by exact Ht. handler_step.
  cbv [bind Val.lift ret]. rewrite Htext, Htrim, Hu. handler_step.
  rewrite getUserConversation_run. handler_step.
  apply String.eqb_neq in Hne. rewrite Hne. handler_step. rewrite conversation_at_slot.
  destruct (Val.truthy (Chat.selectedPersona (current userId (now w) s))) eqn:Hsel;
    cbn [negb]; handler_step.
  - rewrite conversation_at_slot. rewrite postSlackMessage_posted.
    match goal with
    | |- context [posted E ?c ?w0] => destruct (posted_spec E c w0) as (w1 & -> & Htr)
    end.
    cbn [trace log] in Htr. rewrite <- app_assoc in Htr.
    destruct (delivered E _ _); cbn [fst snd Chat.userConversations Chat.world].
    + split; [reflexivity|]. split; [|apply conversation_of_written; exact Hp].
      rewrite (added_app w w1 _ Htr), responses_app, responses_nets. reflexivity.
    + rewrite postSlackMessage_posted.
      match goal with
      | |- context [posted E ?c w1] => destruct (posted_spec E c w1) as (w2 & -> & Htr2)
      end.
      rewrite Htr, <- !app_assoc in Htr2.
      destruct (delivered E _ _); cbn [fst snd Chat.userConversations Chat.world].
      all: split; [reflexivity|]; split; [|apply conversation_of_written; exact Hp].
      all: rewrite (added_app w w2 _ Htr2), !responses_app, !responses_nets; reflexivity.
  - split; [reflexivity|]. split; [|apply conversation_of_contacted_self; exact Hp].
    apply added_app. reflexivity.
Qed.

(** X24. Selecting a persona decides who answers the next [/chat] of
    the same user: the command is acknowledged with "Thinking as" that
    persona, and the user's history, as it was before the selection,
    gains the message and the answer made for that persona.  This holds
    whether or not the confirmation of the selection or the answer could
    be posted. *)
Theorem X24_selected_persona_answers_next_chat
    (interaction command userId action : value) (message : string) (p : Chat.Process) :
  let selected := Chat.optional (Chat.optional action "selected_option") "value" in
  let p1 := snd (Chat.handleInteractivePayload E generate_voice interaction p) in
  let run := Chat.handleChatCommand E JSON_stringify command p1 in
  let response := Chat.generatePersonaResponse E selected (JStr message) in
  pressed interaction userId action ->
  Chat.optional action "action_id" = JStr "select_persona" ->
  Val.truthy selected = true ->
  primitive userId = true ->
  chats command userId message ->
  message <> ""%string ->
  fst run = inr tt /\
  responses (added (Chat.world p1) (Chat.world (snd run))) =
    [mkRes 200 None (Text (Chat.thinking selected))] /\
  conversation_of userId (Chat.userConversations (snd run)) =
    Some (Chat.mkConv selected
            (Chat.conversationHistory
               (current userId (now (Chat.world p)) (Chat.userConversations p)) ++
             [Chat.mkEntry "user" (JStr message) None;
              Chat.mkEntry "assistant" (JStr response) (Some selected)])
            (now (Chat.world p1))).
Proof.
  cbv zeta. intros Hpress Hid Hsel Hp Hchat Hne. destruct p as [s w].
  assert (Hs1 := selection_run interaction userId action _ s w Hpress
                   (or_introl (conj Hid (conj eq_refl Hsel)))).
  destruct (Chat.handleInteractivePayload E generate_voice interaction _) as [r1 [s1 w1]].
  cbn [snd Chat.userConversations Chat.world] in *.
  destruct (chat_run command userId message s1 w1 Hchat Hne Hp) as [Hr Hrest].
  assert (Hcur : current userId (now w1) s1 =
                 Chat.touched (now w1)
                   (Chat.selecting
                      (Chat.optional (Chat.optional action "selected_option") "value")
                      (current userId (now w) s)))
    by (rewrite Hs1; apply current_written; exact Hp).
  rewrite Hcur in Hrest. cbn [Chat.selectedPersona Chat.touched Chat.selecting] in Hrest.
  rewrite Hsel in Hrest. destruct Hrest as [Hresp Hconv].
  split; [exact Hr|]. split; [exact Hresp|]. rewrite Hconv. reflexivity.
Qed.

(** X25. After "Switch Persona" the next [/chat] of the same user is
    not answered: the only effect of the command is the ephemeral prompt
    to select a persona first, and the history stays as it was. *)
Theorem X25_switching_persona_suspends_answers
    (interaction command userId action : value) (message : string) (p : Chat.Process) :
  let p1 := snd (Chat.handleInteractivePayload E generate_voice interaction p) in
  let run := Chat.handleChatCommand E JSON_stringify command p1 in
  pressed interaction userId action ->
  Chat.optional action "action_id" = JStr "switch_persona" ->
  primitive userId = true ->
  chats command userId message ->
  message <> ""%string ->
  fst run = inr tt /\
  added (Chat.world p1) (Chat.world (snd run)) =
    [Respond (mkRes 200 None
                (Json (JObj [("response_type"%string, JStr "ephemeral");
                             ("text"%string, JStr "Please select a persona first:");
                             ("blocks"%string, JArr Chat.createPersonaSelectionBlocks)])))] /\
  conversation_of userId (Chat.userConversations (snd run)) =
    Some (Chat.mkConv JUndefined
            (Chat.conversationHistory
               (current userId (now (Chat.world p)) (Chat.userConversations p)))
            (now (Chat.world p1))).
Proof.
  cbv zeta. intros Hpress Hid Hp Hchat Hne. destruct p as [s w].
  assert (Hs1 := selection_run interaction userId action JUndefined s w Hpress
                   (or_intror (conj Hid eq_refl))).
  destruct (Chat.handleInteractivePayload E generate_voice interaction _) as [r1 [s1 w1]].
  cbn [snd Chat.userConversations Chat.world] in *.
  destruct (chat_run command userId message s1 w1 Hchat Hne Hp) as [Hr Hrest].
  assert (Hcur : current userId (now w1) s1 =
                 Chat.touched (now w1)
                   (Chat.selecting JUndefined (current userId (now w) s)))
    by (rewrite Hs1; apply current_written; exact Hp).
  rewrite Hcur in Hrest.
  cbn [Chat.selectedPersona Chat.touched Chat.selecting Val.truthy] in Hrest.
  destruct Hrest as [Hadded Hconv].
  split; [exact Hr|]. split; [exact Hadded|]. rewrite Hconv. reflexivity.
Qed.

End Choosing.

(* ===================================================================== *)
(** * Mentions                                                            *)
(* ===================================================================== *)

(** A text without the character that opens a mention. *)
Fixpoint plain (s : string) : bool :=
  match s with
  | EmptyString => true
  | String c s' => negb (c =? "<")%char && plain s'
  end.

(** A user or workspace id as the pattern wants it: capitals and digits. *)
Fixpoint capitals_and_digits (s : string) : bool :=
  match s with
  | EmptyString => true
  | String c s' => Chat.is_upper_or_digit c && capitals_and_digits s'
  end.

Lemma strip_plain s t :
  plain s = true -> Chat.strip 0 (s ++ t)%string = (s ++ Chat.strip 0 t)%string.
Proof.
  induction s as [|c s IH]; intros Hs; [reflexivity|].
  cbn [plain] in Hs. apply andb_true_iff in Hs. destruct Hs as [Hc Hs].
  cbn [String.append Chat.strip].
  assert (Hm : Chat.mention_length (String c (s ++ t)) = None).
  { unfold Chat.mention_length. apply negb_true_iff in Hc.
    destruct (s ++ t)%string as [|b [|d rest]]; try reflexivity.
    rewrite Hc. reflexivity. }
  rewrite Hm, IH by exact Hs. reflexivity.
Qed.

Lemma strip_skip s t : Chat.strip (String.length s) (s ++ t)%string = Chat.strip 0 t.
Proof.
  induction s as [|c s IH]; [reflexivity|]. cbn [String.length String.append Chat.strip].
  exact IH.
Qed.

Lemma strip_match c s n :
  Chat.mention_length (String c s) = Some n ->
  Chat.strip 0 (String c s) = Chat.strip (n - 1) s.
Proof. intros H. cbn [Chat.strip]. rewrite H. reflexivity. Qed.

Lemma run_length_id id t :
  capitals_and_digits id = true ->
  Chat.run_length (id ++ String ">" t) = String.length id /\
  Chat.after_run (id ++ String ">" t) = String ">" t.
Proof.
  induction id as [|c id IH]; intros Hid; [split; reflexivity|].
  cbn [capitals_and_digits] in Hid. apply andb_true_iff in Hid. destruct Hid as [Hc Hid].
  cbn [String.append Chat.run_length Chat.after_run String.length]. rewrite Hc.
  destruct (IH Hid) as [-> ->]. split; reflexivity.
Qed.

(** X26. Stripping the mentions does what it is for: a mention
    [<@U...>] or [<@W...>] with an id of capitals and digits is removed
    from the text, and what stands before and after it, free of [<], is
    kept as it is. *)
Theorem X26_mention_is_removed_text_is_kept
    (before id after : string) (kind : ascii) :
  (kind = "U" \/ kind = "W")%char ->
  id <> ""%string ->
  capitals_and_digits id = true ->
  plain before = true ->
  plain after = true ->
  Chat.strip_mentions (before ++ "<@" ++ String kind id ++ ">" ++ after)%string =
    (before ++ after)%string.
Proof.
  intros Hk Hne Hid Hb Ha. unfold Chat.strip_mentions.
  rewrite strip_plain by exact Hb. f_equal.
  cbn [String.append].
  destruct (run_length_id id after Hid) as [Hrun Hafter].
  assert (Hm : Chat.mention_length
                 (String "<" (String "@" (String kind (id ++ String ">" after)))) =
               Some (3 + String.length id + 1)%nat).
  { unfold Chat.mention_length. rewrite Hrun, Hafter.
    assert (Hkind : ((kind =? "U") || (kind =? "W"))%char = true)
      by (destruct Hk; subst; reflexivity).
    rewrite Hkind. destruct id; [contradiction|]. reflexivity. }
  rewrite (strip_match _ _ _ Hm).
  replace (3 + String.length id + 1 - 1)%nat
    with (String.length (String "@" (String kind (id ++ ">")))).
  2: { cbn [String.length]. rewrite append_length. cbn. lia. }
  replace (String "@" (String kind (id ++ String ">" after)))
    with ((String "@" (String kind (id ++ ">"))) ++ after)%string.
  2: { cbn [String.append]. rewrite string_app_assoc. reflexivity. }
  rewrite strip_skip.
  rewrite <- (string_app_nil_r after) at 1.
  rewrite strip_plain by exact Ha. apply string_app_nil_r.
Qed.

Section Mentions.

Variable E : Env.
Variable JSON_stringify : value -> string.

(** X27. A mention that carries no message, only mentions and blanks,
    is answered with the help text in the channel it came from; no
    conversation is created or refreshed for it. *)
Theorem X27_mention_without_message_gets_help
    (event : value) (text : string) (p : Chat.Process) :
  let w := Chat.world p in
  let help := ChatPostMessage (Chat.optional event "channel") "" (Some (JArr Chat.helpBlocks)) in
  let run := Chat.handleSlackEvent E JSON_stringify event p in
  Val.truthy event = true ->
  of_type event "app_mention" = true ->
  Chat.optional event "text" = JStr text ->
  JS.trim (Chat.strip_mentions text) = ""%string ->
  fst run = (if delivered E help w then inr tt
             else inl "TypeError: fetch failed"%string) /\
  calls (added w (Chat.world (snd run))) = sent E help /\
  Chat.userConversations (snd run) = Chat.userConversations p.
Proof.
  cbv zeta. destruct p as [s w]. cbn [Chat.userConversations Chat.world].
  intros Ht Hm Htext Hblank. unfold of_type in Hm.
  unfold Chat.handleSlackEvent, Chat.handleAppMention.
  rewrite !(prop_optional event) by exact Ht. handler_step.
  rewrite (interpolated_string E _ _ Hm). handler_step.
  rewrite Hm, Htext. handler_step. rewrite Hblank. cbn [String.eqb]. handler_step.
  rewrite postSlackMessage_posted. cbn [Val.if_truthy Val.truthy].
  match goal with
  | |- context [posted E ?c w] => destruct (posted_spec E c w) as (w1 & -> & Htr)
  end.
  cbn [fst snd Chat.userConversations Chat.world].
  split; [reflexivity|]. split; [|reflexivity].
  rewrite (added_app w w1 _ Htr). apply calls_nets.
Qed.

End Mentions.

(* ===================================================================== *)
(** * The voice catalog routes                                            *)
(* ===================================================================== *)

(** A computation that writes no response and, when it returns, returns
    a value in [P]. *)
Definition silent {A} (P : A -> Prop) (c : M A) : Prop :=
  forall w, exists evs,
    trace (snd (c w)) = trace w ++ evs /\
    responses evs = [] /\
    match fst (c w) with
    | inr a => P a
    | inl _ => True
    end.

Lemma silent_ret {A} (P : A -> Prop) a : P a -> silent P (ret a).
Proof.
  intros Ha w. exists []. split; [symmetry; apply app_nil_r|]. split; [reflexivity|exact Ha].
Qed.

Lemma silent_throw {A} (P : A -> Prop) e : silent P (@throw A e).
Proof.
  intros w. exists []. split; [symmetry; apply app_nil_r|]. split; [reflexivity|exact I].
Qed.

Lemma silent_lift {A} (P : A -> Prop) (r : exn + A) :
  (forall a, r = inr a -> P a) -> silent P (Val.lift r).
Proof.
  intros Hr. destruct r as [e|a]; [apply silent_throw|]. apply silent_ret. apply Hr.
  reflexivity.
Qed.

Lemma silent_bind {A B} (Q : A -> Prop) (P : B -> Prop) (c : M A) (k : A -> M B) :
  silent Q c -> (forall a, Q a -> silent P (k a)) -> silent P (bind c k).
Proof.
  intros Hc Hk w. unfold bind. destruct (Hc w) as (evs & Htr & Hre & Hq).
  destruct (c w) as [[e|a] w1]; cbn [fst snd] in *.
  - exists evs. split; [exact Htr|]. split; [exact Hre|exact I].
  - destruct (Hk a Hq w1) as (evs' & Htr' & Hre' & Hp).
    exists (evs ++ evs'). split; [rewrite Htr', Htr; symmetry; apply app_assoc|].
    split; [|exact Hp]. rewrite responses_app, Hre, Hre'. reflexivity.
Qed.

Lemma silent_try_catch {A} (P : A -> Prop) (c : M A) (h : exn -> M A) :
  silent P c -> (forall e, silent P (h e)) -> silent P (try_catch c h).
Proof.
  intros Hc Hh w. unfold try_catch. destruct (Hc w) as (evs & Htr & Hre & Hp).
  destruct (c w) as [[e|a] w1]; cbn [fst snd] in *.
  - destruct (Hh e w1) as (evs' & Htr' & Hre' & Hp').
    exists (evs ++ evs'). split; [rewrite Htr', Htr; symmetry; apply app_assoc|].
    split; [|exact Hp']. rewrite responses_app, Hre, Hre'. reflexivity.
  - exists evs. split; [exact Htr|]. split; [exact Hre|exact Hp].
Qed.

Lemma silent_weaken {A} (P Q : A -> Prop) (c : M A) :
  (forall a, P a -> Q a) -> silent P c -> silent Q c.
Proof.
  intros HPQ Hc w. destruct (Hc w) as (evs & Htr & Hre & Hp).
  exists evs. split; [exact Htr|]. split; [exact Hre|].
  destruct (fst (c w)); [exact I|apply HPQ; exact Hp].
Qed.

Lemma silent_enter fn : silent (fun _ => True) (emit (Enter fn)).
Proof. intros w. exists [Enter fn]. repeat split. Qed.

Lemma silent_fetch E call : silent (fun _ => True) (fetch E call).
Proof.
  intros w. rewrite fetch_run. exists [Net (now w) call]. cbn [fst snd].
  split; [apply trace_fired|]. split; [reflexivity|]. destruct (reply E _ _); exact I.
Qed.

Lemma silent_read_body E r : silent (fun _ => True) (read_body E r).
Proof.
  intros w. rewrite read_body_run. exists [].
  destruct (bodyUsed r); cbn [fst snd]; rewrite ?trace_tick, app_nil_r;
    (split; [reflexivity|]); (split; [reflexivity|]); [exact I|].
  destruct (body r); exact I.
Qed.

Lemma silent_response_json E r : silent (fun _ => True) (response_json E r).
Proof.
  unfold response_json. eapply silent_bind; [apply silent_read_body|].
  intros sr _. destruct (JSON_parse E (fst sr)); [apply silent_ret; exact I|apply silent_throw].
Qed.

Lemma silent_mapM {A B} (P : B -> Prop) (f : A -> M B) l :
  (forall x, silent P (f x)) -> silent (Forall P) (Val.mapM f l).
Proof.
  intros Hf. induction l as [|x l IH]; cbn [Val.mapM].
  - apply silent_ret. constructor.
  - eapply silent_bind; [apply Hf|]. intros y Hy.
    eapply silent_bind; [exact IH|]. intros ys Hys.
    apply silent_ret. constructor; assumption.
Qed.

(** A catalog entry as [getVoices] makes them. *)
Definition catalog_entry (v : value) : Prop :=
  exists voice_id name, v = VoiceService.voice_entry voice_id name.

Lemma fallbackVoices_entries : Forall catalog_entry VoiceService.fallbackVoices.
Proof. repeat constructor; eexists _, _; reflexivity. Qed.

Lemma getVoices_silent E : silent (Forall catalog_entry) (VoiceService.getVoices E).
Proof.
  unfold VoiceService.getVoices, VoiceService.useElevenLabs. cbn [negb].
  eapply silent_bind; [apply silent_enter|]. intros _ _.
  apply silent_try_catch; [|intros e; apply silent_ret, fallbackVoices_entries].
  eapply silent_bind; [apply silent_fetch|]. intros response _.
  destruct (negb (ok response)).
  - eapply silent_bind; [apply silent_read_body|]. intros ? _.
    apply silent_ret, fallbackVoices_entries.
  - eapply silent_bind; [apply silent_response_json|]. intros data _.
    eapply silent_bind; [apply (silent_lift (fun _ => True)); auto|]. intros voices _.
    destruct voices; try apply silent_throw.
    apply silent_mapM. intros v.
    eapply silent_bind; [apply (silent_lift (fun _ => True)); auto|]. intros voice_id _.
    eapply silent_bind; [apply (silent_lift (fun _ => True)); auto|]. intros name _.
    apply silent_ret. eexists _, _. reflexivity.
Qed.

(** A JSON array. *)
Definition array (v : value) : Prop := exists l, v = JArr l.

Lemma getAllVoices_silent E : silent array (VoiceService.getAllVoices E).
Proof.
  unfold VoiceService.getAllVoices.
  eapply silent_bind; [apply silent_enter|]. intros _ _.
  apply silent_try_catch; [|intros e; apply silent_ret; exists []; reflexivity].
  destruct (VoiceService.apiKey E =? "")%string; [apply silent_ret; exists []; reflexivity|].
  eapply silent_bind; [apply silent_fetch|]. intros response _.
  destruct (negb (ok response)); [apply silent_throw|].
  eapply silent_bind; [apply silent_response_json|]. intros data _.
  eapply silent_bind; [apply (silent_lift (fun _ => True)); auto|]. intros voices _.
  destruct voices as [| |b|q|s|l|fields].
  1,2: eapply silent_bind; [apply (silent_ret (fun _ => True)); exact I|]; intros _ _;
       apply silent_ret; exists []; reflexivity.
  1,2,3,5: eapply silent_bind; [apply (silent_throw (fun _ => False))|]; intros _ [].
  eapply silent_bind.
  - apply (silent_mapM (fun _ => True)). intros v.
    eapply silent_bind; [apply (silent_lift (fun _ => True)); auto|]. intros ? _.
    eapply silent_bind; [apply (silent_lift (fun _ => True)); auto|]. intros ? _.
    eapply silent_bind; [apply (silent_lift (fun _ => True)); auto|]. intros ? _.
    apply silent_ret. exact I.
  - intros _ _. apply silent_ret. exists l. reflexivity.
Qed.

Lemma getVoices_resolves E w : exists l, fst (VoiceService.getVoices E w) = inr l.
Proof.
  unfold VoiceService.getVoices, VoiceService.useElevenLabs. cbn [negb].
  cbv [bind emit modify]. apply try_catch_resolves. intros e w1. eexists. reflexivity.
Qed.

Lemma getAllVoices_resolves E w : exists v, fst (VoiceService.getAllVoices E w) = inr v.
Proof.
  unfold VoiceService.getAllVoices.
  cbv [bind emit modify]. apply try_catch_resolves. intros e w1. eexists. reflexivity.
Qed.

(** An entry of the catalog as the client receives it: an object with
    no property other than [voice_id] and [name], and none of them
    [undefined]. *)
Definition wire_entry (v : value) : Prop :=
  exists fields,
    v = JObj fields /\
    Forall (fun kv => (fst kv = "voice_id"%string \/ fst kv = "name"%string) /\
                      snd kv <> JUndefined) fields.

Lemma serialised_defined v : v <> JUndefined -> Val.serialised v <> JUndefined.
Proof. destruct v; cbn; congruence. Qed.

Lemma serialised_entry v : catalog_entry v -> wire_entry (Val.serialised v).
Proof.
  intros (voice_id & name & ->). unfold VoiceService.voice_entry, wire_entry.
  cbn [Val.serialised].
  assert (Hd : forall x : value, x = JUndefined \/ x <> JUndefined)
    by (intros x; destruct x; auto; right; discriminate).
  destruct (Hd voice_id) as [->|Hv], (Hd name) as [->|Hn].
  - exists []. split; [reflexivity|constructor].
  - exists [("name"%string, Val.serialised name)]. split.
    + destruct name; try reflexivity. contradiction.
    + constructor; [|constructor].
      split; [right; reflexivity|apply serialised_defined; exact Hn].
  - exists [("voice_id"%string, Val.serialised voice_id)]. split.
    + destruct voice_id; try reflexivity; contradiction.
    + constructor; [|constructor].
      split; [left; reflexivity|apply serialised_defined; exact Hv].
  - exists [("voice_id"%string, Val.serialised voice_id);
            ("name"%string, Val.serialised name)]. split.
    + destruct voice_id; try contradiction; destruct name; try contradiction; reflexivity.
    + constructor; [|constructor; [|constructor]].
      * split; [left; reflexivity|apply serialised_defined; exact Hv].
      * split; [right; reflexivity|apply serialised_defined; exact Hn].
Qed.

Lemma serialised_entries l :
  Forall catalog_entry l ->
  exists l', Val.serialised (JArr l) = JArr l' /\ Forall wire_entry l'.
Proof.
  intros H. cbn [Val.serialised]. eexists. split; [reflexivity|].
  induction H as [|v l Hv _ IH]; cbn [map]; constructor; [|exact IH].
  assert (Hs := serialised_entry v Hv).
  destruct Hv as (voice_id & name & ->). exact Hs.
Qed.

(** X28. The two catalog routes never answer 500 and never leave a
    request unanswered: whatever the provider does, [GET /api/voices]
    answers 200 once with a JSON array of objects that carry no property
    other than [voice_id] and [name] (what an entry of the provider
    lacks is left out), and [GET /api/voices/all] answers 200 once with
    a JSON array. *)
Theorem X28_catalog_routes_always_answer_200 (E : Env) (w : World) :
  (fst (Catalog.voices E w) = inr tt /\
   exists l,
     responses (added w (snd (Catalog.voices E w))) = [mkRes 200 None (Json (JArr l))] /\
     Forall (fun v =>
               exists fields,
                 v = JObj fields /\
                 Forall (fun kv => (fst kv = "voice_id"%string \/ fst kv = "name"%string) /\
                                   snd kv <> JUndefined) fields) l) /\
  (fst (Catalog.voices_all E w) = inr tt /\
   exists l,
     responses (added w (snd (Catalog.voices_all E w))) = [mkRes 200 None (Json (JArr l))]).
Proof.
  split.
  - unfold Catalog.voices, try_catch, bind.
    destruct (getVoices_resolves E w) as [l Hl].
    destruct (getVoices_silent E w) as (evs & Htr & Hre & Hp).
    destruct (VoiceService.getVoices E w) as [r w1]. cbn [fst snd] in *. subst r.
    destruct (serialised_entries l Hp) as (l' & Hser & Hwire).
    unfold Catalog.res_json. rewrite Hser.
    cbv [Slack.res_send emit modify]. cbn [fst snd]. split; [reflexivity|].
    exists l'. split; [|exact Hwire].
    erewrite added_app by (cbn [trace log]; rewrite Htr, <- app_assoc; reflexivity).
    rewrite responses_app, Hre. reflexivity.
  - unfold Catalog.voices_all, try_catch, bind.
    destruct (getAllVoices_resolves E w) as [v Hv].
    destruct (getAllVoices_silent E w) as (evs & Htr & Hre & Hp).
    destruct (VoiceService.getAllVoices E w) as [r w1]. cbn [fst snd] in *. subst r.
    destruct Hp as [l ->].
    unfold Catalog.res_json. cbn [Val.serialised].
    cbv [Slack.res_send emit modify]. cbn [fst snd]. split; [reflexivity|].
    eexists.
    erewrite added_app by (cbn [trace log]; rewrite Htr, <- app_assoc; reflexivity).
    rewrite responses_app, Hre. reflexivity.
Qed.

(* ===================================================================== *)
(** * The further properties at sample inputs                             *)
(* ===================================================================== *)

(** A request stamped at the second the sample process starts and
    signed as Slack signs it. *)
Definition signed (req : Slack.Request) : Slack.Request :=
  Slack.mkReq (Slack.rawBody req) (Some "1700000000"%string)
    (Some (expected_signature Sample.serving "1700000000" (Slack.rawBody req)))
    (Slack.content_type req) (Slack.req_body req).

Lemma signed_authentic req : authentic Sample.serving (signed req) Sample.boot.
Proof.
  split; [discriminate|]. exists "1700000000"%string.
  split; [reflexivity|]. split; [discriminate|]. split; reflexivity.
Qed.

(** A [/weather] command, which the route does not know. *)
Definition weather_request : Slack.Request :=
  Slack.mkReq (Some "command=%2Fweather&text=Lahore"%string) None None
    (Some "application/x-www-form-urlencoded"%string)
    (JObj [("command"%string, JStr "/weather"); ("text"%string, JStr "Lahore")]).

(** A direct message event, as the Events API delivers it. *)
Definition message_event : value :=
  JObj [("type"%string, JStr "message"); ("channel_type"%string, JStr "im");
        ("user"%string, JStr "U42"); ("channel"%string, JStr "D7");
        ("text"%string, JStr "hello")].

Definition event_request : Slack.Request :=
  Slack.mkReq None None None (Some "application/json"%string)
    (JObj [("type"%string, JStr "event_callback"); ("event"%string, message_event)]).

(** An event handler that throws. *)
Definition throwing : value -> M unit := fun _ => throw "Error: boom"%string.



(** A request signed on the second is accepted. *)
Lemma X1_signed_on_the_second_witness :
  fst (Slack.verifySlackSignature Sample.serving
         (Slack.rawBody weather_request) (Some "1700000000"%string)
         (Some (expected_signature Sample.serving "1700000000"
                  (Slack.rawBody weather_request)))
         Sample.boot) = inr true.
Proof.
  refine (proj2 (proj2 (proj2 (X1_verifySlackSignature_accepts_exactly Sample.serving
                                 (Slack.rawBody weather_request)
                                 (Some "1700000000"%string)
                                 (Some (expected_signature Sample.serving "1700000000"
                                          (Slack.rawBody weather_request)))
                                 Sample.boot))
                 "1700000000"%string 1700000000%Z _ eq_refl eq_refl) _).
  - vm_compute. discriminate.
  - split; [discriminate|]. split; [discriminate|]. split; [|reflexivity].
    vm_compute. discriminate.
Defined.


(** A persona in lower case, no voice given. *)
Lemma X9_einstein_witness :
  let voice := Persona.selectVoiceId (Some "albert einstein"%string) None in
  Forall (fun c => exists sent, c = TextToSpeech voice sent)
         (calls (added Sample.boot
                   (snd (VoiceService.synthesizeSpeech Sample.serving "hello"
                           (Some "albert einstein"%string) None Sample.boot)))) /\
  In voice trained_voices.
Proof.
  apply (X9_requests_go_to_the_selected_voice Sample.serving "hello"
           (Some "albert einstein"%string) None Sample.boot).
  intros _ p Hp. inversion Hp; subst p. cbn. intuition discriminate.
Defined.

Lemma X2_signed_challenge_witness :
  Slack.post Sample.serving Sample.idle Sample.idle Sample.idle Sample.idle
             "/slack/webhook" (signed Sample.challenge_request) Sample.boot =
    (inr Slack.Handled,
     log (Respond (mkRes 200 (Some "text/plain"%string) (Text "abc123"))) Sample.boot).
Proof.
  exact (X2_webhook_url_verification Sample.serving Sample.idle Sample.idle Sample.idle
           Sample.idle (signed Sample.challenge_request) Sample.boot
           (signed_authentic _) eq_refl).
Defined.

Lemma X3_weather_witness :
  Slack.post Sample.serving Sample.idle Sample.idle Sample.idle Sample.idle
             "/slack/webhook" (signed weather_request) Sample.boot =
    (inr Slack.Handled,
     log (Respond (mkRes 200 None (Text Slack.help_text))) Sample.boot).
Proof.
  apply (X3_webhook_unknown_command_gets_help Sample.serving Sample.idle Sample.idle
           Sample.idle Sample.idle (signed weather_request) Sample.boot
           [("command"%string, JStr "/weather"); ("text"%string, JStr "Lahore")]).
  - apply signed_authentic.
  - reflexivity.
  - discriminate.
  - exact I.
  - exact I.
  - reflexivity.
Defined.

(** The event is acknowledged, and the route resolves although the
    handler throws. *)
Lemma X5_throwing_handler_witness :
  Slack.post Sample.serving Sample.idle Sample.idle Sample.idle throwing
             "/slack" event_request Sample.boot =
    (inr Slack.Handled,
     log (Enter "handleSlackEvent")
       (log (Respond (mkRes 200 None (Text "OK"))) Sample.boot)).
Proof.
  exact (X5_slack_event_acknowledged_first Sample.serving Sample.idle Sample.idle
           Sample.idle throwing event_request Sample.boot
           (JStr "event_callback") message_event eq_refl eq_refl eq_refl).
Defined.

Lemma X6_blank_topic_witness :
  Slack.handleDebateCommand Sample.serving
    (JObj [("command"%string, JStr "/debate"); ("text"%string, JStr "   ");
           ("channel_id"%string, JStr "C123")]) Sample.boot =
    (inr tt,
     log (Respond (mkRes 200 None
                     (Text "Please provide a topic, e.g. `/debate AI ethics`")))
         (log (Enter "handleDebateCommand") Sample.boot)).
Proof.
  apply (X6_debate_without_topic_is_refused Sample.serving _ (JStr "   ") Sample.boot).
  - reflexivity.
  - reflexivity.
Defined.

Lemma X8_two_rounds_without_key_witness :
  let run := Debate.generateDebate (Sample.without_api_key Sample.serving) "AI ethics"
               None (Some true) (Some 2%nat) Sample.boot in
  exists debate,
    fst run = inr debate /\
    Debate.audioBuffer debate = None /\
    calls (added Sample.boot (snd run)) = [] /\
    entered (added Sample.boot (snd run)) =
      "generateDebate"%string ::
      repeat "synthesizeSpeech"%string (List.length (Debate.turns debate)).
Proof.
  exact (X8_debate_audio_without_key (Sample.without_api_key Sample.serving) "AI ethics"
           None (Some 2%nat) Sample.boot eq_refl).
Defined.


Lemma X13_quota_then_audio_witness :
  fst (VoiceService.synthesizeSpeech Sample.quota_then_audio "Hello"
         (Some "Steve Jobs"%string) None Sample.boot) =
    inr (VoiceService.Audio (list_byte_of_string "ID3")).
Proof.
  apply (X13_retry_decides_the_outcome Sample.quota_then_audio "Hello"
           (Some "Steve Jobs"%string) None Sample.boot 401
           "{ status: quota_exceeded }").
  - discriminate.
  - reflexivity.
  - reflexivity.
  - reflexivity.
Defined.

Lemma X14_serving_witness :
  let run := VoiceService.synthesizeSpeech Sample.serving "Hello"
               (Some "Steve Jobs"%string) None Sample.boot in
  fst run = inr (VoiceService.Audio (list_byte_of_string "ID3")) /\
  calls (added Sample.boot (snd run)) =
    [TextToSpeech "RScb7njQ3VwA2nyCsZX4" "Hello"].
Proof.
  cbv zeta.
  apply (X14_success_returns_the_provider_bytes Sample.serving "Hello"
           (Some "Steve Jobs"%string) None Sample.boot 200 "ID3").
  - discriminate.
  - reflexivity.
  - reflexivity.
Defined.

(** A call 400 ms after a success is held back for the 600 ms left, and
    the suspension takes 20 ms more. *)
Lemma X15_held_back_witness :
  let w := mkWorld (Sample.t0 + 400) 0 0 Sample.t0 [] in
  exists later_requests,
    fire_times (added w (snd (VoiceService.synthesizeSpeech Sample.serving "Hello"
                                None None w))) =
      (Sample.t0 + 1020)%Z :: later_requests.
Proof.
  cbv zeta.
  apply (X15_first_request_fire_time Sample.serving "Hello" None None
           (mkWorld (Sample.t0 + 400) 0 0 Sample.t0 [])).
  discriminate.
Defined.

(* ===================================================================== *)
(** * The conversations at sample inputs                                  *)
(* ===================================================================== *)

(** A stand-in for [JSON.stringify], and a [generate_voice] case that
    does nothing. *)
Definition stringified : value -> string := fun _ => "{}"%string.

Definition no_voice : value -> value -> M unit := fun _ _ => ret tt.

(** Ada (U7) talked to Steve Jobs a while ago; nobody else is known. *)
Definition ada : Chat.Conversation :=
  Chat.mkConv (JStr "steve-jobs")
    [Chat.mkEntry "user" (JStr "hi") None;
     Chat.mkEntry "assistant" (JStr "Hello.") (Some (JStr "steve-jobs"))]
    1699990000000.

Definition running : Chat.Process :=
  Chat.mkProcess [(JStr "U7", ada)] Sample.boot.

(** What user [u] sends: a [/chat] command, a direct message, a mention,
    the choice of a persona in the picker, the "Switch Persona" button. *)
Definition chat_command (u text : string) : value :=
  JObj [("command"%string, JStr "/chat"); ("text"%string, JStr text);
        ("user_id"%string, JStr u); ("channel_id"%string, JStr "C123")].

Definition direct_message (u text : string) : value :=
  JObj [("type"%string, JStr "message"); ("channel_type"%string, JStr "im");
        ("user"%string, JStr u); ("channel"%string, JStr "D7");
        ("text"%string, JStr text)].

Definition mention (u text : string) : value :=
  JObj [("type"%string, JStr "app_mention"); ("user"%string, JStr u);
        ("channel"%string, JStr "C123"); ("text"%string, JStr text)].

Definition choice (persona : string) : value :=
  JObj [("action_id"%string, JStr "select_persona");
        ("selected_option"%string, JObj [("value"%string, JStr persona)])].

Definition switch : value := JObj [("action_id"%string, JStr "switch_persona")].

Definition interaction (u : string) (action : value) : value :=
  JObj [("user"%string, JObj [("id"%string, JStr u)]);
        ("channel"%string, JObj [("id"%string, JStr "C123")]);
        ("actions"%string, JArr [action])].

(** Whatever Grace (U42) does, by command, direct message or
    interaction, Ada's conversation stays as it is. *)
Lemma X19_ada_and_grace_witness :
  conversation_of (JStr "U7")
    (Chat.userConversations
       (snd (Chat.handleChatCommand Sample.serving stringified
               (chat_command "U42" "hello") running))) = Some ada /\
  conversation_of (JStr "U7")
    (Chat.userConversations
       (snd (Chat.handleSlackEvent Sample.serving stringified
               (direct_message "U42" "hello") running))) = Some ada /\
  conversation_of (JStr "U7")
    (Chat.userConversations
       (snd (Chat.handleInteractivePayload Sample.serving no_voice
               (interaction "U42" (choice "elon-musk")) running))) = Some ada.
Proof.
  destruct (X19_handlers_leave_other_users_alone Sample.serving stringified no_voice
              (JStr "U42") (JStr "U7") running eq_refl) as (Hc & He & Hi).
  split; [|split].
  - exact (Hc (chat_command "U42" "hello") eq_refl).
  - exact (He (direct_message "U42" "hello") eq_refl).
  - exact (Hi (interaction "U42" (choice "elon-musk")) _ eq_refl eq_refl).
Defined.

(** Ada switches persona, is asked to choose, chooses Elon Musk and
    chats: her two old entries are still the first two. *)
Lemma X20_ada_keeps_her_history_witness :
  let p1 := snd (Chat.handleInteractivePayload Sample.serving no_voice
                   (interaction "U7" switch) running) in
  let p2 := snd (Chat.handleChatCommand Sample.serving stringified
                   (chat_command "U7" "hello") p1) in
  let p3 := snd (Chat.handleInteractivePayload Sample.serving no_voice
                   (interaction "U7" (choice "elon-musk")) p2) in
  let p4 := snd (Chat.handleChatCommand Sample.serving stringified
                   (chat_command "U7" "hello again") p3) in
  exists c' more,
    conversation_of (JStr "U7") (Chat.userConversations p4) = Some c' /\
    Chat.conversationHistory c' = Chat.conversationHistory ada ++ more.
Proof.
  cbv zeta.
  apply (X20_recorded_history_is_never_lost Sample.serving stringified no_voice running
           _ (JStr "U7") ada).
  - apply (served_interaction _ _ _ (interaction "U7" switch)).
    apply (served_command _ _ _ (chat_command "U7" "hello")).
    apply (served_interaction _ _ _ (interaction "U7" (choice "elon-musk"))).
    apply (served_command _ _ _ (chat_command "U7" "hello again")).
    apply served_none.
  - reflexivity.
Defined.

(** A message the bot itself posted in a direct conversation. *)
Lemma X21_own_message_witness :
  Chat.handleSlackEvent Sample.serving stringified
    (JObj [("type"%string, JStr "message"); ("channel_type"%string, JStr "im");
           ("user"%string, JStr "U7"); ("channel"%string, JStr "D7");
           ("text"%string, JStr "Hello."); ("bot_id"%string, JStr "B1")])
    running = (inr tt, running).
Proof.
  refine (proj1 (X21_unaddressed_events_are_dropped Sample.serving stringified _ running
                   _ _ _)); reflexivity.
Defined.

(** Grace writes to the bot for the first time. *)
Lemma X22_grace_says_hello_witness :
  let run := Chat.handleSlackEvent Sample.serving stringified
               (direct_message "U42" "hello") running in
  fst run = inr tt /\
  List.length (calls (added Sample.boot (Chat.world (snd run)))) = 1%nat /\
  conversation_of (JStr "U42") (Chat.userConversations (snd run)) =
    Some (Chat.mkConv JUndefined [Chat.mkEntry "user" (JStr "hello") None] Sample.t0).
Proof.
  cbv zeta.
  destruct (proj1 (X22_first_direct_message_is_queued Sample.serving stringified
                     (direct_message "U42" "hello") running
                     eq_refl eq_refl eq_refl eq_refl eq_refl) "hello"%string eq_refl)
    as (Hr & Hc & Hs).
  split; [exact Hr|]. split; [exact (f_equal (@List.length NetCall) Hc)|exact Hs].
Defined.

(** Ada writes to the bot with Steve Jobs selected. *)
Lemma X23_ada_is_answered_witness :
  let run := Chat.handleSlackEvent Sample.serving stringified
               (direct_message "U7" "What is design?") running in
  fst run = inr tt /\
  conversation_of (JStr "U7") (Chat.userConversations (snd run)) =
    Some (Chat.mkConv (JStr "steve-jobs")
            (Chat.conversationHistory ada ++
             [Chat.mkEntry "user" (JStr "What is design?") None;
              Chat.mkEntry "assistant"
                (JStr (Chat.generatePersonaResponse Sample.serving (JStr "steve-jobs")
                         (JStr "What is design?")))
                (Some (JStr "steve-jobs"))])
            Sample.t0).
Proof.
  cbv zeta.
  destruct (X23_direct_message_is_answered Sample.serving stringified
              (direct_message "U7" "What is design?") running
              eq_refl eq_refl eq_refl eq_refl) as (Hs & Hc & Hr).
  split; [exact (Hr eq_refl)|exact Hs].
Defined.

(** Grace picks Elon Musk and asks a question. *)
Lemma X24_grace_picks_elon_witness :
  let p1 := snd (Chat.handleInteractivePayload Sample.serving no_voice
                   (interaction "U42" (choice "elon-musk")) running) in
  let run := Chat.handleChatCommand Sample.serving stringified
               (chat_command "U42" "  Mars?  ") p1 in
  responses (added (Chat.world p1) (Chat.world (snd run))) =
    [mkRes 200 None (Text ("üí≠ Thinking as " ++ "Elon Musk" ++ "...")%string)] /\
  option_map Chat.selectedPersona
    (conversation_of (JStr "U42") (Chat.userConversations (snd run))) =
    Some (JStr "elon-musk").
Proof.
  cbv zeta.
  destruct (X24_selected_persona_answers_next_chat Sample.serving stringified no_voice
              (interaction "U42" (choice "elon-musk")) (chat_command "U42" "  Mars?  ")
              (JStr "U42") (choice "elon-musk") "Mars?" running)
    as (Hr & Hresp & Hconv).
  - split; [reflexivity|]. split; [reflexivity|]. exists []. reflexivity.
  - reflexivity.
  - reflexivity.
  - reflexivity.
  - split; [reflexivity|]. split; [reflexivity|]. exists "  Mars?  "%string.
    split; reflexivity.
  - discriminate.
  - split; [exact Hresp|]. rewrite Hconv. reflexivity.
Defined.

(** Ada presses "Switch Persona" and asks a question. *)
Lemma X25_ada_switches_witness :
  let p1 := snd (Chat.handleInteractivePayload Sample.serving no_voice
                   (interaction "U7" switch) running) in
  let run := Chat.handleChatCommand Sample.serving stringified
               (chat_command "U7" "hello") p1 in
  calls (added (Chat.world p1) (Chat.world (snd run))) = [] /\
  option_map Chat.conversationHistory
    (conversation_of (JStr "U7") (Chat.userConversations (snd run))) =
    Some (Chat.conversationHistory ada).
Proof.
  cbv zeta.
  destruct (X25_switching_persona_suspends_answers Sample.serving stringified no_voice
              (interaction "U7" switch) (chat_command "U7" "hello")
              (JStr "U7") switch "hello" running)
    as (Hr & Hadded & Hconv).
  - split; [reflexivity|]. split; [reflexivity|]. exists []. reflexivity.
  - reflexivity.
  - reflexivity.
  - split; [reflexivity|]. split; [reflexivity|]. exists "hello"%string.
    split; reflexivity.
  - discriminate.
  - split; [exact (f_equal calls Hadded)|]. rewrite Hconv. reflexivity.
Defined.

Lemma X26_hey_bot_witness :
  Chat.strip_mentions "hey <@U123ABC> how are you?" = "hey  how are you?"%string.
Proof.
  apply (X26_mention_is_removed_text_is_kept "hey " "123ABC" " how are you?" "U");
    try reflexivity.
  - left. reflexivity.
  - discriminate.
Defined.

(** A bare mention. *)
Lemma X27_bare_mention_witness :
  let run := Chat.handleSlackEvent Sample.serving stringified
               (mention "U42" "<@U123ABC> ") running in
  fst run = inr tt /\
  calls (added Sample.boot (Chat.world (snd run))) =
    [ChatPostMessage (JStr "C123") "" (Some (JArr Chat.helpBlocks))] /\
  Chat.userConversations (snd run) = Chat.userConversations running.
Proof.
  cbv zeta.
  exact (X27_mention_without_message_gets_help Sample.serving stringified
           (mention "U42" "<@U123ABC> ") "<@U123ABC> " running
           eq_refl eq_refl eq_refl eq_refl).
Defined.
